(** * Transaction write-set preparation: [tx_ops.go]

    A shallow embedding of
    [core/ledger/kvledger/txmgmt/validation/tx_ops.go]: the [txOps]
    map with its mutation primitives, the projection [applyTxRwset] of a
    transaction read-write set, the preceding-state resolver and the merge
    stage [prepareTxOps].

    Conventions of the embedding.
    - A Go [string] is a [string] (a sequence of 8-bit characters).
    - A Go slice whose nil-ness is observable ([[]byte], [[]string], the
      [Entries] of a metadata write) is an [option (list _)]: [None] is the
      nil slice, [Some []] the empty non-nil slice.  Slices that are only
      ranged over are plain lists.
    - [keyOpsFlag] is [uint8]: a [Z] in [0, 256) with [+=] wrapping.
    - [txOps] is [map[compositeKey]*keyOps].  Every key owns its own heap
      cell (allocated by [getOrCreateKeyEntry]), so the map of pointers is
      a finite map of records and a write through the pointer is an insert
      at that key.
    - Calls into the staging buffer and into the state database are
      recorded in a trace, next to the value or the error they return. *)

From Stdlib Require Import ZArith Strings.String Strings.Ascii Strings.Byte List Lia.
From stdpp Require Import base option list strings gmap fin_maps.

Local Open Scope Z_scope.
Local Open Scope string_scope.
Local Open Scope list_scope.

(** ** Go values *)

Abbreviation slice A := (option (list A)) (only parsing).
Abbreviation bytes := (option (list byte)) (only parsing).

(** [string(b)] for [b []byte]; the nil slice converts to [""]. *)
Definition string_of_bytes (b : bytes) : string :=
  match b with
  | None => ""
  | Some l => string_of_list_byte l
  end.

(** [[]byte(s)]; the conversion always allocates, also for [""]. *)
Definition bytes_of_string (s : string) : bytes := Some (list_byte_of_string s).

(** [append(s, x)] *)
Definition append {A} (s : slice A) (x : A) : slice A :=
  match s with
  | None => Some [x]
  | Some l => Some (l ++ [x])
  end.

Definition error := string.

(** ** Package [strings] *)

(** [strings.HasSuffix(s, suffix)]:
    [len(s) >= len(suffix) && s[len(s)-len(suffix):] == suffix]. *)
Definition HasSuffix (s suffix : string) : bool :=
  let n := String.length s in
  let m := String.length suffix in
  (m <=? n)%nat && String.eqb (substring (n - m) m s) suffix.

(** [strings.Split(s, sep)] for a separator of one byte: the substrings
    between the occurrences of [sep], of which there is always one more
    than there are occurrences. *)
Fixpoint Split (s : string) (sep : ascii) : list string :=
  match s with
  | EmptyString => [EmptyString]
  | String c s' =>
      if Ascii.eqb c sep then EmptyString :: Split s' sep
      else match Split s' sep with
           | [] => [String c EmptyString]
           | seg :: segs => String c seg :: segs
           end
  end.

Definition underscore : ascii := "_"%char.

(** ** Package [kvrwset] and [rwsetutil]: the parsed read-write set *)

Module Version.
Record t := mk { BlockNum : Z; TxNum : Z }.
End Version.

Module KVRead.
Record t := mk { Key : string; Version : option Version.t }.
End KVRead.

Module KVWrite.
Record t := mk { Key : string; IsDelete : bool; Value : bytes }.
End KVWrite.

Module KVMetadataEntry.
Record t := mk { Name : string; Value : bytes }.
End KVMetadataEntry.

Module KVMetadataWrite.
Record t := mk { Key : string; Entries : slice KVMetadataEntry.t }.
End KVMetadataWrite.

Module KVWriteHash.
Record t := mk { KeyHash : bytes; IsDelete : bool; ValueHash : bytes }.
End KVWriteHash.

Module KVMetadataWriteHash.
Record t := mk { KeyHash : bytes; Entries : slice KVMetadataEntry.t }.
End KVMetadataWriteHash.

Module KVRWSet.
Record t := mk {
  Reads : list KVRead.t;
  Writes : list KVWrite.t;
  MetadataWrites : list KVMetadataWrite.t }.
End KVRWSet.

Module HashedRWSet.
Record t := mk {
  HashedWrites : list KVWriteHash.t;
  MetadataWrites : list KVMetadataWriteHash.t }.
End HashedRWSet.

Module CollHashedRwSet.
Record t := mk { CollectionName : string; HashedRwSet : HashedRWSet.t }.
End CollHashedRwSet.

Module NsRwSet.
Record t := mk {
  NameSpace : string;
  KvRwSet : KVRWSet.t;
  CollHashedRwSets : list CollHashedRwSet.t }.
End NsRwSet.

Module TxRwSet.
Record t := mk { NsRwSets : list NsRwSet.t }.
End TxRwSet.

(** ** Package [statedb] *)

Module VersionedValue.
Record t := mk { Value : bytes; Metadata : bytes; Version : option Version.t }.
End VersionedValue.

(** ** [keyOpsFlag], [compositeKey], [keyOps], [txOps] *)

(** [type keyOpsFlag uint8] *)
Definition keyOpsFlag := Z.

Definition uint8 (z : Z) : keyOpsFlag := z mod 256.

(** [1 << iota] for [iota] = 0, 1, 2, 3 *)
Definition upsertVal : keyOpsFlag := Z.shiftl 1 0.
Definition metadataUpdate : keyOpsFlag := Z.shiftl 1 1.
Definition metadataDelete : keyOpsFlag := Z.shiftl 1 2.
Definition keyDelete : keyOpsFlag := Z.shiftl 1 3.

Definition MaxUint64 : Z := 2 ^ 64 - 1.

Record compositeKey := CompositeKey { ck_ns : string; ck_coll : string; ck_key : string }.

Global Instance compositeKey_eq_dec : EqDecision compositeKey.
Proof. solve_decision. Defined.

Global Instance compositeKey_countable : Countable compositeKey.
Proof.
  refine (inj_countable' (λ k, (ck_ns k, ck_coll k, ck_key k))
                         (λ t, CompositeKey t.1.1 t.1.2 t.2) _).
  by intros [].
Defined.

Record keyOps := KeyOps {
  flag : keyOpsFlag;
  value : bytes;
  metadata : bytes;
  deps : slice string;
  depSnapshot : Z }.

(** [&keyOps{}] *)
Definition keyOps_zero : keyOps := KeyOps 0 None None None 0.

Abbreviation txOps := (gmap compositeKey keyOps) (only parsing).

Definition set_flag (f : keyOpsFlag) (ko : keyOps) : keyOps :=
  KeyOps f (value ko) (metadata ko) (deps ko) (depSnapshot ko).
Definition set_value (v : bytes) (ko : keyOps) : keyOps :=
  KeyOps (flag ko) v (metadata ko) (deps ko) (depSnapshot ko).
Definition set_metadata (m : bytes) (ko : keyOps) : keyOps :=
  KeyOps (flag ko) (value ko) m (deps ko) (depSnapshot ko).
Definition set_deps (d : slice string) (ko : keyOps) : keyOps :=
  KeyOps (flag ko) (value ko) (metadata ko) d (depSnapshot ko).
Definition set_depSnapshot (s : Z) (ko : keyOps) : keyOps :=
  KeyOps (flag ko) (value ko) (metadata ko) (deps ko) s.

(** [keyops.flag += bit] on [uint8] *)
Definition add_flag (bit : keyOpsFlag) (ko : keyOps) : keyOps :=
  set_flag (uint8 (flag ko + bit)) ko.

(** *** [txOps] functions *)

(** The pointer returned by the source is the cell of [k]; the embedding
    returns its content together with the map in which [k] is bound. *)
Definition getOrCreateKeyEntry (k : compositeKey) (txops : txOps) : keyOps * txOps :=
  match txops !! k with
  | Some keyops => (keyops, txops)
  | None => (keyOps_zero, <[k := keyOps_zero]> txops)
  end.

Definition txops_upsert (k : compositeKey) (val : bytes) (txops : txOps) : txOps :=
  let '(keyops, txops) := getOrCreateKeyEntry k txops in
  <[k := set_value val (add_flag upsertVal keyops)]> txops.

Definition txops_delete (k : compositeKey) (txops : txOps) : txOps :=
  let '(keyops, txops) := getOrCreateKeyEntry k txops in
  <[k := add_flag keyDelete keyops]> txops.

Definition txops_upsertWithDep (k : compositeKey) (val : bytes)
    (ds : slice string) (snapshot : Z) (txops : txOps) : txOps :=
  let '(keyops, txops) := getOrCreateKeyEntry k txops in
  <[k := set_depSnapshot snapshot
           (set_deps ds (set_value val (add_flag upsertVal keyops)))]> txops.

Definition txops_deleteWithDep (k : compositeKey)
    (ds : slice string) (snapshot : Z) (txops : txOps) : txOps :=
  let '(keyops, txops) := getOrCreateKeyEntry k txops in
  <[k := set_depSnapshot snapshot (set_deps ds (add_flag keyDelete keyops))]> txops.

Definition txops_metadataUpdate (k : compositeKey) (md : bytes) (txops : txOps) : txOps :=
  let '(keyops, txops) := getOrCreateKeyEntry k txops in
  <[k := set_metadata md (add_flag metadataUpdate keyops)]> txops.

Definition txops_metadataDelete (k : compositeKey) (txops : txOps) : txOps :=
  let '(keyops, txops) := getOrCreateKeyEntry k txops in
  <[k := add_flag metadataDelete keyops]> txops.

(** *** [keyOps] functions *)

Definition isDelete (keyops : keyOps) : bool :=
  Z.eqb (Z.land (flag keyops) keyDelete) keyDelete.

Definition isUpsertAndMetadataUpdate (keyops : keyOps) : bool :=
  if Z.eqb (Z.land (flag keyops) upsertVal) upsertVal then
    Z.eqb (Z.land (flag keyops) metadataUpdate) metadataUpdate
    || Z.eqb (Z.land (flag keyops) metadataDelete) metadataDelete
  else false.

Definition isOnlyUpsert (keyops : keyOps) : bool :=
  Z.eqb (Z.lor (flag keyops) upsertVal) upsertVal.

(** ** Results, and the trace of resolver calls *)

Inductive result (A : Type) : Type :=
| Ok (a : A)
| Err (err : error).
Arguments Ok {A} a.
Arguments Err {A} err.

(** The lookups the resolver can issue, with their arguments. *)
Inductive call : Type :=
| PublicUpdates_Get (ns key : string)
| HashUpdates_Get (ns coll key : string)
| DB_GetState (ns key : string)
| DB_GetValueHash (ns coll : string) (keyHash : bytes)
| DB_GetStateMetadata (ns key : string)
| DB_GetPrivateDataMetadataByHash (ns coll : string) (keyHash : bytes).

(** The ledger slot a lookup is about. *)
Definition call_key (c : call) : compositeKey :=
  match c with
  | PublicUpdates_Get ns key => CompositeKey ns "" key
  | HashUpdates_Get ns coll key => CompositeKey ns coll key
  | DB_GetState ns key => CompositeKey ns "" key
  | DB_GetValueHash ns coll keyHash => CompositeKey ns coll (string_of_bytes keyHash)
  | DB_GetStateMetadata ns key => CompositeKey ns "" key
  | DB_GetPrivateDataMetadataByHash ns coll keyHash =>
      CompositeKey ns coll (string_of_bytes keyHash)
  end.

(** A computation that issues lookups and then returns or fails. *)
Definition M (A : Type) : Type := list call * result A.

Global Instance M_ret : MRet M := λ A a, ([], Ok a).

Global Instance M_bind : MBind M := λ A B f m,
  match m with
  | (t, Ok a) => let '(t', r) := f a in (t ++ t', r)
  | (t, Err err) => (t, Err err)
  end.

Definition lookup_call {A} (c : call) (r : result A) : M A := ([c], r).

Definition trace {A} (m : M A) : list call := m.1.
Definition outcome {A} (m : M A) : result A := m.2.

(** ** The collaborators: staging buffer and state database *)

Module Height.
Record t := mk { BlockNum : Z; TxNum : Z }.
End Height.

Record publicAndHashUpdates := PublicAndHashUpdates {
  publicUpdates_Get : string → string → option VersionedValue.t;
  hashUpdates_Get : string → string → string → option VersionedValue.t }.

Record DB := MkDB {
  GetState : string → string → result (option VersionedValue.t);
  GetValueHash : string → string → bytes → result (option VersionedValue.t);
  GetStateMetadata : string → string → result bytes;
  GetPrivateDataMetadataByHash : string → string → bytes → result bytes }.

(** ** The preceding-state resolver *)

Definition retrieveLatestState (ns coll key : string)
    (precedingUpdates : publicAndHashUpdates) (db : DB) : M (option VersionedValue.t) :=
  if String.eqb coll "" then
    vv ← lookup_call (PublicUpdates_Get ns key)
           (Ok (publicUpdates_Get precedingUpdates ns key));
    match vv with
    | None => lookup_call (DB_GetState ns key) (GetState db ns key)
    | Some _ => mret vv
    end
  else
    vv ← lookup_call (HashUpdates_Get ns coll key)
           (Ok (hashUpdates_Get precedingUpdates ns coll key));
    match vv with
    | None => lookup_call (DB_GetValueHash ns coll (bytes_of_string key))
                (GetValueHash db ns coll (bytes_of_string key))
    | Some _ => mret vv
    end.

Definition retrieveLatestMetadata (ns coll key : string)
    (precedingUpdates : publicAndHashUpdates) (db : DB) : M bytes :=
  if String.eqb coll "" then
    vv ← lookup_call (PublicUpdates_Get ns key)
           (Ok (publicUpdates_Get precedingUpdates ns key));
    match vv with
    | Some vv => mret (VersionedValue.Metadata vv)
    | None => lookup_call (DB_GetStateMetadata ns key) (GetStateMetadata db ns key)
    end
  else
    vv ← lookup_call (HashUpdates_Get ns coll key)
           (Ok (hashUpdates_Get precedingUpdates ns coll key));
    match vv with
    | Some vv => mret (VersionedValue.Metadata vv)
    | None => lookup_call (DB_GetPrivateDataMetadataByHash ns coll (bytes_of_string key))
                (GetPrivateDataMetadataByHash db ns coll (bytes_of_string key))
    end.

(** ** Projection and merge *)

Section Validation.

(** [localconfig.LineageSupported()] and [localconfig.IsOCC()] *)
Variable LineageSupported : bool.
Variable IsOCC : bool.

(** [statemetadata.Serialize] *)
Variable Serialize : slice KVMetadataEntry.t → result bytes.

(** The order in which [range] visits the keys of a map; the language
    leaves it unspecified. *)
Variable range_order : txOps → list compositeKey.

(** [applyKVWrite] records upsertion/deletion of a kvwrite. *)
Definition applyKVWrite (ns coll : string) (kvWrite : KVWrite.t) (txops : txOps) : txOps :=
  if KVWrite.IsDelete kvWrite then
    txops_delete (CompositeKey ns coll (KVWrite.Key kvWrite)) txops
  else
    txops_upsert (CompositeKey ns coll (KVWrite.Key kvWrite)) (KVWrite.Value kvWrite) txops.

Definition applyKVWriteWithDep (ns coll : string) (kvWrite : KVWrite.t)
    (ds : slice string) (snapshot : Z) (txops : txOps) : txOps :=
  if KVWrite.IsDelete kvWrite then
    txops_deleteWithDep (CompositeKey ns coll (KVWrite.Key kvWrite)) ds snapshot txops
  else
    txops_upsertWithDep (CompositeKey ns coll (KVWrite.Key kvWrite))
      (KVWrite.Value kvWrite) ds snapshot txops.

(** [applyMetadata] records updatation/deletion of a metadataWrite; it
    returns the map and the error ([None] for Go's [nil]). *)
Definition applyMetadata (ns coll : string) (metadataWrite : KVMetadataWrite.t)
    (txops : txOps) : txOps * option error :=
  match KVMetadataWrite.Entries metadataWrite with
  | None =>
      (txops_metadataDelete (CompositeKey ns coll (KVMetadataWrite.Key metadataWrite)) txops,
       None)
  | Some _ =>
      match Serialize (KVMetadataWrite.Entries metadataWrite) with
      | Err err => (txops, Some err)
      | Ok metadataBytes =>
          (txops_metadataUpdate (CompositeKey ns coll (KVMetadataWrite.Key metadataWrite))
             metadataBytes txops,
           None)
      end
  end.

(** One step of the loop over [Reads] (lines 68-82). *)
Definition readSnapshot (snapshot : Z) (kvRead : KVRead.t) : Z :=
  if IsOCC then
    match KVRead.Version kvRead with
    | None => MaxUint64
    | Some v => Version.BlockNum v
    end
  else snapshot.

Definition depSnapshotOf (reads : list KVRead.t) : Z :=
  fold_left readSnapshot reads MaxUint64.

(** The inner loop of lines 93-98. *)
Definition depKeysOf (val : bytes) : slice string :=
  fold_left (λ depKeys dk, if String.eqb dk "" then depKeys else append depKeys dk)
    (Split (string_of_bytes val) underscore) (Some []).

(** One step of the first loop over [Writes] (lines 86-100).  [Split]
    returns at least one segment, so the index [0] is in range. *)
Definition recordDeps (depsMap : gmap string (slice string)) (kvWrite : KVWrite.t)
    : gmap string (slice string) :=
  if negb (HasSuffix (KVWrite.Key kvWrite) "_prov") then depsMap
  else
    let key := hd "" (Split (KVWrite.Key kvWrite) underscore) in
    <[key := depKeysOf (KVWrite.Value kvWrite)]> depsMap.

Definition depsOf (writes : list KVWrite.t) : gmap string (slice string) :=
  fold_left recordDeps writes ∅.

(** One step of the second loop over [Writes] (lines 102-111). *)
Definition applyRealWrite (ns : string) (depsMap : gmap string (slice string))
    (snapshot : Z) (txops : txOps) (kvWrite : KVWrite.t) : txOps :=
  if HasSuffix (KVWrite.Key kvWrite) "_prov" then txops
  else
    let keyDeps := match depsMap !! KVWrite.Key kvWrite with
                   | Some d => d
                   | None => Some []
                   end in
    applyKVWriteWithDep ns "" kvWrite keyDeps snapshot txops.

(** Lines 125-145, for one collection. *)
Definition applyCollHashedRwSet (ns : string) (txops : txOps)
    (collHashRWset : CollHashedRwSet.t) : txOps :=
  let coll := CollHashedRwSet.CollectionName collHashRWset in
  let txops :=
    fold_left (λ txops hashedWrite,
        applyKVWrite ns coll
          (KVWrite.mk (string_of_bytes (KVWriteHash.KeyHash hashedWrite))
                      (KVWriteHash.IsDelete hashedWrite)
                      (KVWriteHash.ValueHash hashedWrite)) txops)
      (HashedRWSet.HashedWrites (CollHashedRwSet.HashedRwSet collHashRWset)) txops in
  fold_left (λ txops metadataWrite,
      (applyMetadata ns coll
         (KVMetadataWrite.mk (string_of_bytes (KVMetadataWriteHash.KeyHash metadataWrite))
                             (KVMetadataWriteHash.Entries metadataWrite)) txops).1)
    (HashedRWSet.MetadataWrites (CollHashedRwSet.HashedRwSet collHashRWset)) txops.

(** The body of the loop over [rwset.NsRwSets].  The error returned by
    [applyMetadata] is dropped at both call sites, as in the source. *)
Definition applyNsRwSet (txops : txOps) (nsRWSet : NsRwSet.t) : txOps :=
  let ns := NsRwSet.NameSpace nsRWSet in
  let txops :=
    if LineageSupported then
      let snapshot := depSnapshotOf (KVRWSet.Reads (NsRwSet.KvRwSet nsRWSet)) in
      let depsMap := depsOf (KVRWSet.Writes (NsRwSet.KvRwSet nsRWSet)) in
      fold_left (applyRealWrite ns depsMap snapshot)
        (KVRWSet.Writes (NsRwSet.KvRwSet nsRWSet)) txops
    else
      fold_left (λ txops kvWrite, applyKVWrite ns "" kvWrite txops)
        (KVRWSet.Writes (NsRwSet.KvRwSet nsRWSet)) txops in
  let txops :=
    fold_left (λ txops kvMetadataWrite, (applyMetadata ns "" kvMetadataWrite txops).1)
      (KVRWSet.MetadataWrites (NsRwSet.KvRwSet nsRWSet)) txops in
  fold_left (applyCollHashedRwSet ns) (NsRwSet.CollHashedRwSets nsRWSet) txops.

(** [applyTxRwset] records the upsertion/deletion of a kv and
    updatation/deletion of associated metadata present in a txrwset.  Its
    only [return] statement is [return nil]. *)
Definition applyTxRwset (rwset : TxRwSet.t) (txops : txOps) : txOps * option error :=
  (fold_left applyNsRwSet (TxRwSet.NsRwSets rwset) txops, None).

(** The body of the loop of [prepareTxOps] for the key [ck].  [range]
    yields [ck] with the cell it is bound to; a key that is no longer
    in the map is not produced. *)
Definition mergeKey (precedingUpdates : publicAndHashUpdates) (db : DB)
    (ck : compositeKey) (txops : txOps) : M txOps :=
  match txops !! ck with
  | None => mret txops
  | Some keyop =>
      if isDelete keyop || isUpsertAndMetadataUpdate keyop then mret txops
      else if isOnlyUpsert keyop then
        latestMetadata ← retrieveLatestMetadata (ck_ns ck) (ck_coll ck) (ck_key ck)
                           precedingUpdates db;
        mret (<[ck := set_metadata latestMetadata keyop]> txops)
      else
        latestVal ← retrieveLatestState (ck_ns ck) (ck_coll ck) (ck_key ck)
                      precedingUpdates db;
        match latestVal with
        | Some vv => mret (<[ck := set_value (VersionedValue.Value vv) keyop]> txops)
        | None => mret (delete ck txops)
        end
  end.

Fixpoint mergeKeys (precedingUpdates : publicAndHashUpdates) (db : DB)
    (keys : list compositeKey) (txops : txOps) : M txOps :=
  match keys with
  | [] => mret txops
  | ck :: keys =>
      txops ← mergeKey precedingUpdates db ck txops;
      mergeKeys precedingUpdates db keys txops
  end.

(** [prepareTxOps]: the result of [applyTxRwset] is not looked at; an
    error of the resolver ends the loop with [return nil, err]. *)
Definition prepareTxOps (rwset : TxRwSet.t) (txht : option Height.t)
    (precedingUpdates : publicAndHashUpdates) (db : DB) : M txOps :=
  let '(txops, _) := applyTxRwset rwset ∅ in
  mergeKeys precedingUpdates db (range_order txops) txops.

End Validation.

(** ** Vocabulary of the statements *)

(** The cell of [k]: what [getOrCreateKeyEntry] hands out. *)
Definition entry (txops : txOps) (k : compositeKey) : keyOps :=
  default keyOps_zero (txops !! k).

(** The values a [uint8] can hold. *)
Definition is_uint8 (f : keyOpsFlag) : Prop := 0 ≤ f < 256.

(** Every flag of the map is a [uint8]. *)
Definition flags_in_range (txops : txOps) : Prop :=
  ∀ k, is_uint8 (flag (entry txops k)).

(** The staged value of a slot, and the two answers of the database for
    it, dispatched on the collection as the resolver does. *)
Definition staged (precedingUpdates : publicAndHashUpdates) (ck : compositeKey)
    : option VersionedValue.t :=
  if String.eqb (ck_coll ck) "" then
    publicUpdates_Get precedingUpdates (ck_ns ck) (ck_key ck)
  else hashUpdates_Get precedingUpdates (ck_ns ck) (ck_coll ck) (ck_key ck).

Definition committedState (db : DB) (ck : compositeKey) : result (option VersionedValue.t) :=
  if String.eqb (ck_coll ck) "" then GetState db (ck_ns ck) (ck_key ck)
  else GetValueHash db (ck_ns ck) (ck_coll ck) (bytes_of_string (ck_key ck)).

Definition committedMetadata (db : DB) (ck : compositeKey) : result bytes :=
  if String.eqb (ck_coll ck) "" then GetStateMetadata db (ck_ns ck) (ck_key ck)
  else GetPrivateDataMetadataByHash db (ck_ns ck) (ck_coll ck) (bytes_of_string (ck_key ck)).

(** What one pass of the loop body of [prepareTxOps] makes of a cell
    holding [keyop]: [r] is the new content, [None] when the key is
    removed from the map. *)
Definition merged_cell (precedingUpdates : publicAndHashUpdates) (db : DB)
    (ck : compositeKey) (keyop : keyOps) (r : option keyOps) : Prop :=
  if isDelete keyop || isUpsertAndMetadataUpdate keyop then r = Some keyop
  else if isOnlyUpsert keyop then
    ∃ latestMetadata,
      outcome (retrieveLatestMetadata (ck_ns ck) (ck_coll ck) (ck_key ck)
                 precedingUpdates db) = Ok latestMetadata
      ∧ r = Some (set_metadata latestMetadata keyop)
  else
    ∃ latestVal,
      outcome (retrieveLatestState (ck_ns ck) (ck_coll ck) (ck_key ck)
                 precedingUpdates db) = Ok latestVal
      ∧ r = (λ vv, set_value (VersionedValue.Value vv) keyop) <$> latestVal.

(** The slots a transaction addresses outside the public value writes:
    public metadata writes, hashed writes and hashed metadata writes. *)
Definition collKeys (ns : string) (c : CollHashedRwSet.t) : list compositeKey :=
  map (λ w, CompositeKey ns (CollHashedRwSet.CollectionName c)
              (string_of_bytes (KVWriteHash.KeyHash w)))
      (HashedRWSet.HashedWrites (CollHashedRwSet.HashedRwSet c))
  ++ map (λ w, CompositeKey ns (CollHashedRwSet.CollectionName c)
                 (string_of_bytes (KVMetadataWriteHash.KeyHash w)))
         (HashedRWSet.MetadataWrites (CollHashedRwSet.HashedRwSet c)).

Definition nsSideKeys (n : NsRwSet.t) : list compositeKey :=
  map (λ w, CompositeKey (NsRwSet.NameSpace n) "" (KVMetadataWrite.Key w))
      (KVRWSet.MetadataWrites (NsRwSet.KvRwSet n))
  ++ concat (map (collKeys (NsRwSet.NameSpace n)) (NsRwSet.CollHashedRwSets n)).

Definition sideKeys (rwset : TxRwSet.t) : list compositeKey :=
  concat (map nsSideKeys (TxRwSet.NsRwSets rwset)).

(** ** Sample inputs *)

Module Sample.

Definition b (s : string) : bytes := Some (list_byte_of_string s).

(** Keys in the order of [map_to_list]: one admissible [range] order. *)
Definition order (m : txOps) : list compositeKey := (map_to_list m).*1.

Definition noStaging : publicAndHashUpdates :=
  PublicAndHashUpdates (λ _ _, None) (λ _ _ _, None).

Definition emptyDB : DB :=
  MkDB (λ _ _, Ok None) (λ _ _ _, Ok None) (λ _ _, Ok None) (λ _ _ _, Ok None).

(** A database in which every public key holds ["v0"] with metadata
    ["M_old"]. *)
Definition fullDB : DB :=
  MkDB (λ _ _, Ok (Some (VersionedValue.mk (b "v0") (b "M_old") None)))
       (λ _ _ _, Ok None)
       (λ _ _, Ok (b "M_old"))
       (λ _ _ _, Ok None).

Definition serializeOk (entries : slice KVMetadataEntry.t) : result bytes := Ok (b "M2").
Definition serializeFails (entries : slice KVMetadataEntry.t) : result bytes :=
  Err "marshal".

Definition entries : slice KVMetadataEntry.t := Some [KVMetadataEntry.mk "a" (b "b")].

Definition publicNs (ns : string) (reads : list KVRead.t) (writes : list KVWrite.t)
    (mws : list KVMetadataWrite.t) : NsRwSet.t :=
  NsRwSet.mk ns (KVRWSet.mk reads writes mws) [].

Definition k : compositeKey := CompositeKey "n" "" "k".

(** Two upserts of the same key. *)
Definition rwUpsertTwice : TxRwSet.t :=
  TxRwSet.mk [publicNs "n" [] [KVWrite.mk "k" false (b "v1"); KVWrite.mk "k" false (b "v2")] []].

(** S1: a pure upsert. *)
Definition rwUpsert : TxRwSet.t :=
  TxRwSet.mk [publicNs "n" [] [KVWrite.mk "k" false (b "v1")] []].

(** S2: upsert plus metadata. *)
Definition rwUpsertMetadata : TxRwSet.t :=
  TxRwSet.mk [publicNs "n" [] [KVWrite.mk "k" false (b "v1")]
                [KVMetadataWrite.mk "k" entries]].

(** S3, S4: metadata only. *)
Definition rwMetadata : TxRwSet.t :=
  TxRwSet.mk [publicNs "n" [] [] [KVMetadataWrite.mk "k" entries]].

(** S5: delete plus metadata. *)
Definition rwDeleteMetadata : TxRwSet.t :=
  TxRwSet.mk [publicNs "n" [] [KVWrite.mk "k" true None]
                [KVMetadataWrite.mk "k" entries]].

(** S6: a marker and the write it annotates. *)
Definition nsProv : NsRwSet.t :=
  publicNs "n" [KVRead.mk "x" (Some (Version.mk 7 0))]
    [KVWrite.mk "x_prov" false (b "y_z_"); KVWrite.mk "x" false (b "v")] [].
Definition rwProv : TxRwSet.t := TxRwSet.mk [nsProv].

(** A marker for a key that itself contains an underscore. *)
Definition rwProvUnderscore : TxRwSet.t :=
  TxRwSet.mk [publicNs "n" []
                [KVWrite.mk "a_b_prov" false (b "y_z_"); KVWrite.mk "a_b" false (b "v")] []].

(** A metadata write and a hashed write whose keys end in [_prov]. *)
Definition rwProvSide : TxRwSet.t :=
  TxRwSet.mk [NsRwSet.mk "n"
                (KVRWSet.mk [] [KVWrite.mk "x_prov" false (b "y_")]
                   [KVMetadataWrite.mk "x_prov" None])
                [CollHashedRwSet.mk "c"
                   (HashedRWSet.mk [KVWriteHash.mk (b "h_prov") false (b "vh")] [])]].

(** A lone write of a marker key. *)
Definition rwMarkerOnly : TxRwSet.t :=
  TxRwSet.mk [publicNs "n" [] [KVWrite.mk "x_prov" true None] []].

End Sample.

(** The dependency list line 106-109 attaches to a real write of [key]:
    [deps[key]], or the empty, non-nil slice when the map has no such key. *)
Definition keyDepsOf (depsMap : gmap string (slice string)) (key : string) : slice string :=
  match depsMap !! key with
  | Some d => d
  | None => Some []
  end.


(** ** Vocabulary of the further statements *)

(** A lookup that goes to the state database, as opposed to the staging
    buffer. *)
Definition is_db_call (c : call) : bool :=
  match c with
  | PublicUpdates_Get _ _ | HashUpdates_Get _ _ _ => false
  | DB_GetState _ _ | DB_GetValueHash _ _ _
  | DB_GetStateMetadata _ _ | DB_GetPrivateDataMetadataByHash _ _ _ => true
  end.

(** The lookup that the loop body of [prepareTxOps] needs for a cell
    holding [keyop] fails with [err]. *)
Definition resolver_fails (precedingUpdates : publicAndHashUpdates) (db : DB)
    (ck : compositeKey) (keyop : keyOps) (err : error) : Prop :=
  isDelete keyop || isUpsertAndMetadataUpdate keyop = false
  ∧ if isOnlyUpsert keyop then
      outcome (retrieveLatestMetadata (ck_ns ck) (ck_coll ck) (ck_key ck)
                 precedingUpdates db) = Err err
    else
      outcome (retrieveLatestState (ck_ns ck) (ck_coll ck) (ck_key ck)
                 precedingUpdates db) = Err err.

(** ** Further sample inputs *)

Module MoreSamples.

(** A database whose every lookup fails. *)
Definition failingDB : DB :=
  MkDB (λ _ _, Err "db down") (λ _ _ _, Err "db down")
       (λ _ _, Err "db down") (λ _ _ _, Err "db down").

(** The keys in the opposite order of [Sample.order]. *)
Definition reverseOrder (m : txOps) : list compositeKey := reverse (map_to_list m).*1.

(** An upsert of [a] and a metadata write of [b]. *)
Definition rwTwoKeys : TxRwSet.t :=
  TxRwSet.mk [Sample.publicNs "n" [] [KVWrite.mk "a" false (Sample.b "v1")]
                [KVMetadataWrite.mk "b" Sample.entries]].

(** A staging buffer in which every key holds ["s0"] with metadata
    ["M_staged"]. *)
Definition fullStaging : publicAndHashUpdates :=
  PublicAndHashUpdates
    (λ _ _, Some (VersionedValue.mk (Sample.b "s0") (Sample.b "M_staged") None))
    (λ _ _ _, Some (VersionedValue.mk (Sample.b "s0") (Sample.b "M_staged") None)).

End MoreSamples.

(** A metadata write leaves a trace in the map when its entries are nil
    or can be serialized. *)
Definition recorded (Serialize : slice KVMetadataEntry.t → result bytes)
    (entries : slice KVMetadataEntry.t) : bool :=
  match entries with
  | None => true
  | Some _ => match Serialize entries with
              | Ok _ => true
              | Err _ => false
              end
  end.

(** The keys a transaction binds: per collection, per namespace and as a
    whole.  [lineage] tells whether the provenance extension filters the
    public writes. *)
Definition collRecordedKeys (Serialize : slice KVMetadataEntry.t → result bytes)
    (ns : string) (c : CollHashedRwSet.t) : list compositeKey :=
  map (λ w, CompositeKey ns (CollHashedRwSet.CollectionName c)
              (string_of_bytes (KVWriteHash.KeyHash w)))
      (HashedRWSet.HashedWrites (CollHashedRwSet.HashedRwSet c))
  ++ map (λ w, CompositeKey ns (CollHashedRwSet.CollectionName c)
                 (string_of_bytes (KVMetadataWriteHash.KeyHash w)))
         (List.filter (λ w, recorded Serialize (KVMetadataWriteHash.Entries w))
            (HashedRWSet.MetadataWrites (CollHashedRwSet.HashedRwSet c))).

Definition nsRecordedKeys (lineage : bool)
    (Serialize : slice KVMetadataEntry.t → result bytes) (n : NsRwSet.t)
    : list compositeKey :=
  map (λ w, CompositeKey (NsRwSet.NameSpace n) "" (KVWrite.Key w))
      (List.filter (λ w, negb (lineage && HasSuffix (KVWrite.Key w) "_prov"))
         (KVRWSet.Writes (NsRwSet.KvRwSet n)))
  ++ map (λ w, CompositeKey (NsRwSet.NameSpace n) "" (KVMetadataWrite.Key w))
         (List.filter (λ w, recorded Serialize (KVMetadataWrite.Entries w))
            (KVRWSet.MetadataWrites (NsRwSet.KvRwSet n)))
  ++ concat (map (collRecordedKeys Serialize (NsRwSet.NameSpace n))
               (NsRwSet.CollHashedRwSets n)).

Definition recordedKeys (lineage : bool)
    (Serialize : slice KVMetadataEntry.t → result bytes) (rwset : TxRwSet.t)
    : list compositeKey :=
  concat (map (nsRecordedKeys lineage Serialize) (TxRwSet.NsRwSets rwset)).

(** A step of the projection is cell-local when the cell it leaves under
    a key depends on nothing but the cell it finds there. *)
Definition cell_local (step : txOps → txOps) : Prop :=
  ∀ (m1 m2 : txOps) k, m1 !! k = m2 !! k → step m1 !! k = step m2 !! k.

Module MoreSamples2.

(** Two namespaces, the second with a collection. *)
Definition nsOne : NsRwSet.t :=
  Sample.publicNs "n1" [] [KVWrite.mk "k" false (Sample.b "v1")]
    [KVMetadataWrite.mk "k" Sample.entries].

Definition nsTwo : NsRwSet.t :=
  NsRwSet.mk "n2"
    (KVRWSet.mk [] [KVWrite.mk "k" true None] [])
    [CollHashedRwSet.mk "c"
       (HashedRWSet.mk [KVWriteHash.mk (Sample.b "h") false (Sample.b "vh")] [])].

End MoreSamples2.

(** The bits that a list of writes adds to the flag of the cell [k]:
    [upsertVal] for each upsert of [k], [keyDelete] for each delete. *)
Fixpoint bitsWritten (ns coll : string) (k : compositeKey) (ws : list KVWrite.t) : Z :=
  match ws with
  | [] => 0
  | w :: ws =>
      (if decide (CompositeKey ns coll (KVWrite.Key w) = k)
       then (if KVWrite.IsDelete w then keyDelete else upsertVal)
       else 0)
      + bitsWritten ns coll k ws
  end.

(** The transaction without its provenance markers. *)
Definition stripMarkersNs (n : NsRwSet.t) : NsRwSet.t :=
  NsRwSet.mk (NsRwSet.NameSpace n)
    (KVRWSet.mk (KVRWSet.Reads (NsRwSet.KvRwSet n))
       (List.filter (λ w, negb (HasSuffix (KVWrite.Key w) "_prov"))
          (KVRWSet.Writes (NsRwSet.KvRwSet n)))
       (KVRWSet.MetadataWrites (NsRwSet.KvRwSet n)))
    (NsRwSet.CollHashedRwSets n).

Definition stripMarkers (rwset : TxRwSet.t) : TxRwSet.t :=
  TxRwSet.mk (map stripMarkersNs (TxRwSet.NsRwSets rwset)).

(** Two maps agree up to provenance when they bind the same keys to
    entries with the same flag, value and metadata. *)
Definition same_up_to_provenance (m1 m2 : txOps) : Prop :=
  ∀ k, (is_Some (m1 !! k) ↔ is_Some (m2 !! k))
       ∧ flag (entry m1 k) = flag (entry m2 k)
       ∧ value (entry m1 k) = value (entry m2 k)
       ∧ metadata (entry m1 k) = metadata (entry m2 k).
(** * Properties *)

(** ** Flags *)

Lemma uint8_range z : is_uint8 (uint8 z).
Proof. unfold is_uint8, uint8. apply Z.mod_pos_bound. lia. Qed.

(** On a flag that lacks the bit, [+=] is the bitwise or. *)
Lemma add_is_lor (f bit : keyOpsFlag) :
  is_uint8 f → bit ∈ [upsertVal; metadataUpdate; metadataDelete; keyDelete] →
  Z.land f bit = 0 → uint8 (f + bit) = Z.lor f bit.
Proof.
  intros Hf Hbit Hland.
  assert (Hall : ∀ b, b ∈ [1; 2; 4; 8] →
            Forall (λ f, Z.land f b = 0 → (f + b) mod 256 = Z.lor f b) (seqZ 0 256)).
  { intros b Hb. set_unfold in Hb.
    destruct Hb as [->|[->|[->|[->|[]]]]];
      apply (bool_decide_unpack _); by vm_compute. }
  specialize (Hall bit Hbit). rewrite Forall_forall in Hall.
  apply Hall; [|done].
  apply elem_of_seqZ. unfold is_uint8 in Hf. lia.
Qed.

(** ** The mutation primitives as updates of one cell *)

Lemma getOrCreate_update (k : compositeKey) (f : keyOps → keyOps) (txops : txOps) :
  (let '(keyops, txops') := getOrCreateKeyEntry k txops in <[k := f keyops]> txops')
  = <[k := f (entry txops k)]> txops.
Proof.
  unfold getOrCreateKeyEntry, entry.
  destruct (txops !! k); simpl; [done|]. by rewrite insert_insert_eq.
Qed.

Lemma txops_upsert_eq k val (txops : txOps) :
  txops_upsert k val txops = <[k := set_value val (add_flag upsertVal (entry txops k))]> txops.
Proof. apply (getOrCreate_update k (λ ko, set_value val (add_flag upsertVal ko))). Qed.

Lemma txops_delete_eq k (txops : txOps) :
  txops_delete k txops = <[k := add_flag keyDelete (entry txops k)]> txops.
Proof. apply (getOrCreate_update k (add_flag keyDelete)). Qed.

Lemma txops_upsertWithDep_eq k val ds s (txops : txOps) :
  txops_upsertWithDep k val ds s txops
  = <[k := set_depSnapshot s (set_deps ds (set_value val (add_flag upsertVal (entry txops k))))]>
      txops.
Proof.
  apply (getOrCreate_update k
           (λ ko, set_depSnapshot s (set_deps ds (set_value val (add_flag upsertVal ko))))).
Qed.

Lemma txops_deleteWithDep_eq k ds s (txops : txOps) :
  txops_deleteWithDep k ds s txops
  = <[k := set_depSnapshot s (set_deps ds (add_flag keyDelete (entry txops k)))]> txops.
Proof.
  apply (getOrCreate_update k (λ ko, set_depSnapshot s (set_deps ds (add_flag keyDelete ko)))).
Qed.

Lemma txops_metadataUpdate_eq k md (txops : txOps) :
  txops_metadataUpdate k md txops
  = <[k := set_metadata md (add_flag metadataUpdate (entry txops k))]> txops.
Proof. apply (getOrCreate_update k (λ ko, set_metadata md (add_flag metadataUpdate ko))). Qed.

Lemma txops_metadataDelete_eq k (txops : txOps) :
  txops_metadataDelete k txops = <[k := add_flag metadataDelete (entry txops k)]> txops.
Proof. apply (getOrCreate_update k (add_flag metadataDelete)). Qed.

Lemma entry_insert k ko (txops : txOps) : entry (<[k := ko]> txops) k = ko.
Proof. unfold entry. by rewrite lookup_insert_eq. Qed.

Lemma entry_empty k : entry ∅ k = keyOps_zero.
Proof. unfold entry. by rewrite lookup_empty. Qed.

(** C1. Two upserts of a fresh key [k] do not leave the flag at
    [upsertVal]: the second [flag += upsertVal] carries into the next
    bit, so the entry holds the last value [v2] under the flag
    [metadataUpdate], and is no longer an only-upsert entry.  In the same
    way two deletes of a fresh key leave the flag 16, in which the
    [keyDelete] bit is not set. *)
Theorem upsert_twice_flag (k : compositeKey) (v1 v2 : bytes) :
  txops_upsert k v2 (txops_upsert k v1 ∅) !! k
    = Some (KeyOps metadataUpdate v2 None None 0)
  ∧ metadataUpdate ≠ upsertVal
  ∧ Z.lor upsertVal upsertVal = upsertVal
  ∧ isOnlyUpsert (KeyOps metadataUpdate v2 None None 0) = false
  ∧ txops_delete k (txops_delete k ∅) !! k = Some (KeyOps 16 None None None 0)
  ∧ isDelete (KeyOps 16 None None None 0) = false.
Proof.
  split; [|split; [by vm_compute|split; [reflexivity|split; [reflexivity|split]]]].
  - rewrite !txops_upsert_eq, entry_insert, entry_empty.
    by rewrite lookup_insert_eq.
  - rewrite !txops_delete_eq, entry_insert, entry_empty.
    by rewrite lookup_insert_eq.
  - reflexivity.
Qed.

(** ** Computations with a trace *)

Lemma bind_unfold {A B} (m : M A) (f : A → M B) :
  m ≫= f = match m with
           | (t, Ok a) => let '(t', r) := f a in (t ++ t', r)
           | (t, Err err) => (t, Err err)
           end.
Proof. reflexivity. Qed.

Lemma bind_Ok_inv {A B} (m : M A) (f : A → M B) t b :
  m ≫= f = (t, Ok b) →
  ∃ t1 a t2, m = (t1, Ok a) ∧ f a = (t2, Ok b) ∧ t = t1 ++ t2.
Proof.
  rewrite bind_unfold. destruct m as [t1 [a|err]]; [|done].
  destruct (f a) as [t2 r] eqn:Hf. intros [= <- ->]. by exists t1, a, t2.
Qed.

Lemma bind_trace {A B} (m : M A) (f : A → M B) c :
  c ∈ trace (m ≫= f) → c ∈ trace m ∨ ∃ a, outcome m = Ok a ∧ c ∈ trace (f a).
Proof.
  rewrite bind_unfold. unfold trace, outcome.
  destruct m as [t1 [a|err]]; simpl; [|by left].
  destruct (f a) as [t2 r] eqn:Hf. simpl. rewrite elem_of_app.
  intros [?|?]; [by left|right]. exists a. by rewrite Hf.
Qed.

(** ** The resolver *)

(** The resolver asks the staging buffer first and the database only on
    a miss. *)
Lemma retrieveLatestState_outcome pu db ck :
  outcome (retrieveLatestState (ck_ns ck) (ck_coll ck) (ck_key ck) pu db)
  = match staged pu ck with
    | Some vv => Ok (Some vv)
    | None => committedState db ck
    end.
Proof.
  unfold retrieveLatestState, staged, committedState.
  destruct (String.eqb (ck_coll ck) "");
    rewrite bind_unfold; simpl.
  - destruct (publicUpdates_Get pu _ _); reflexivity.
  - destruct (hashUpdates_Get pu _ _ _); reflexivity.
Qed.

Lemma retrieveLatestMetadata_outcome pu db ck :
  outcome (retrieveLatestMetadata (ck_ns ck) (ck_coll ck) (ck_key ck) pu db)
  = match staged pu ck with
    | Some vv => Ok (VersionedValue.Metadata vv)
    | None => committedMetadata db ck
    end.
Proof.
  unfold retrieveLatestMetadata, staged, committedMetadata.
  destruct (String.eqb (ck_coll ck) "");
    rewrite bind_unfold; simpl.
  - destruct (publicUpdates_Get pu _ _); reflexivity.
  - destruct (hashUpdates_Get pu _ _ _); reflexivity.
Qed.

Lemma compositeKey_eta ck : CompositeKey (ck_ns ck) (ck_coll ck) (ck_key ck) = ck.
Proof. by destruct ck. Qed.

(** Every lookup of the resolver is about the slot it was asked for. *)
Lemma retrieveLatestState_trace ns coll key pu db c :
  c ∈ trace (retrieveLatestState ns coll key pu db) → call_key c = CompositeKey ns coll key.
Proof.
  unfold retrieveLatestState.
  destruct (String.eqb coll "") eqn:Hcoll.
  - apply String.eqb_eq in Hcoll as ->.
    intros [Hc|(vv & _ & Hc)]%bind_trace.
    + apply list_elem_of_singleton in Hc as ->. reflexivity.
    + destruct vv; [by apply not_elem_of_nil in Hc|].
      apply list_elem_of_singleton in Hc as ->. reflexivity.
  - intros [Hc|(vv & _ & Hc)]%bind_trace.
    + apply list_elem_of_singleton in Hc as ->. reflexivity.
    + destruct vv; [by apply not_elem_of_nil in Hc|].
      apply list_elem_of_singleton in Hc as ->. simpl.
      by rewrite string_of_list_byte_of_string.
Qed.

Lemma retrieveLatestMetadata_trace ns coll key pu db c :
  c ∈ trace (retrieveLatestMetadata ns coll key pu db) → call_key c = CompositeKey ns coll key.
Proof.
  unfold retrieveLatestMetadata.
  destruct (String.eqb coll "") eqn:Hcoll.
  - apply String.eqb_eq in Hcoll as ->.
    intros [Hc|(vv & _ & Hc)]%bind_trace.
    + apply list_elem_of_singleton in Hc as ->. reflexivity.
    + destruct vv; [by apply not_elem_of_nil in Hc|].
      apply list_elem_of_singleton in Hc as ->. reflexivity.
  - intros [Hc|(vv & _ & Hc)]%bind_trace.
    + apply list_elem_of_singleton in Hc as ->. reflexivity.
    + destruct vv; [by apply not_elem_of_nil in Hc|].
      apply list_elem_of_singleton in Hc as ->. simpl.
      by rewrite string_of_list_byte_of_string.
Qed.

(** ** The merge loop *)

Section Merge.

Variable precedingUpdates : publicAndHashUpdates.
Variable db : DB.

Lemma mret_Ok_inv {A} (a b : A) t : (mret a : M A) = (t, Ok b) → t = [] ∧ a = b.
Proof. by intros [= <- <-]. Qed.

(** The body of the loop touches no cell but that of its key. *)
Lemma mergeKey_frame ck (m m' : txOps) t k :
  mergeKey precedingUpdates db ck m = (t, Ok m') → k ≠ ck → m' !! k = m !! k.
Proof.
  unfold mergeKey. intros Hrun Hne.
  destruct (m !! ck) as [keyop|]; [|by apply mret_Ok_inv in Hrun as [_ ->]].
  destruct (isDelete keyop || isUpsertAndMetadataUpdate keyop);
    [by apply mret_Ok_inv in Hrun as [_ ->]|].
  destruct (isOnlyUpsert keyop).
  - apply bind_Ok_inv in Hrun as (t1 & md & t2 & _ & [_ <-]%mret_Ok_inv & _).
    by rewrite lookup_insert_ne.
  - apply bind_Ok_inv in Hrun as (t1 & [vv|] & t2 & _ & [_ <-]%mret_Ok_inv & _).
    + by rewrite lookup_insert_ne.
    + by rewrite lookup_delete_ne.
Qed.

(** What the body of the loop leaves in the cell of its key. *)
Lemma mergeKey_cell ck (m m' : txOps) t keyop :
  m !! ck = Some keyop →
  mergeKey precedingUpdates db ck m = (t, Ok m') →
  merged_cell precedingUpdates db ck keyop (m' !! ck).
Proof.
  unfold mergeKey, merged_cell. intros Hck Hrun. rewrite Hck in Hrun.
  destruct (isDelete keyop || isUpsertAndMetadataUpdate keyop);
    [by apply mret_Ok_inv in Hrun as [_ <-]|].
  destruct (isOnlyUpsert keyop).
  - apply bind_Ok_inv in Hrun as (t1 & md & t2 & Hget & [_ <-]%mret_Ok_inv & _).
    exists md. unfold outcome. rewrite Hget. by rewrite lookup_insert_eq.
  - apply bind_Ok_inv in Hrun as (t1 & latestVal & t2 & Hget & Hret & _).
    exists latestVal. unfold outcome. rewrite Hget. split; [done|].
    destruct latestVal as [vv|]; apply mret_Ok_inv in Hret as [_ <-]; simpl.
    + by rewrite lookup_insert_eq.
    + by rewrite lookup_delete_eq.
Qed.

(** The body of the loop calls the resolver only for its own key, and
    only when the cell is neither a delete nor fully specified. *)
Lemma mergeKey_trace ck (m : txOps) c :
  c ∈ trace (mergeKey precedingUpdates db ck m) →
  call_key c = ck
  ∧ ∃ keyop, m !! ck = Some keyop
             ∧ isDelete keyop || isUpsertAndMetadataUpdate keyop = false.
Proof.
  unfold mergeKey. destruct (m !! ck) as [keyop|]; [|by intros ?%not_elem_of_nil].
  destruct (isDelete keyop || isUpsertAndMetadataUpdate keyop) eqn:Hterm;
    [by intros ?%not_elem_of_nil|].
  intros Hc. split; [|by exists keyop].
  rewrite <- (compositeKey_eta ck).
  destruct (isOnlyUpsert keyop).
  - apply bind_trace in Hc as [Hc|(md & _ & Hc)].
    + by apply retrieveLatestMetadata_trace in Hc.
    + by apply not_elem_of_nil in Hc.
  - apply bind_trace in Hc as [Hc|(latestVal & _ & Hc)].
    + by apply retrieveLatestState_trace in Hc.
    + destruct latestVal; by apply not_elem_of_nil in Hc.
Qed.

(** The body of the loop never adds a key. *)
Lemma mergeKey_dom ck (m m' : txOps) t k :
  mergeKey precedingUpdates db ck m = (t, Ok m') → is_Some (m' !! k) → is_Some (m !! k).
Proof.
  intros Hrun. destruct (decide (k = ck)) as [->|Hne].
  - unfold mergeKey in Hrun. destruct (m !! ck) as [keyop|] eqn:Hck; [by eauto|].
    apply mret_Ok_inv in Hrun as [_ <-]. by rewrite Hck.
  - by rewrite (mergeKey_frame _ _ _ _ _ Hrun Hne).
Qed.

Lemma mergeKeys_cons ck keys (m : txOps) :
  mergeKeys precedingUpdates db (ck :: keys) m
  = mergeKey precedingUpdates db ck m ≫= mergeKeys precedingUpdates db keys.
Proof. reflexivity. Qed.

Lemma mergeKeys_frame keys (m m' : txOps) t k :
  k ∉ keys → mergeKeys precedingUpdates db keys m = (t, Ok m') → m' !! k = m !! k.
Proof.
  revert m t. induction keys as [|ck keys IH]; intros m t Hk Hrun.
  - by apply mret_Ok_inv in Hrun as [_ <-].
  - apply not_elem_of_cons in Hk as [Hne Hk].
    rewrite mergeKeys_cons in Hrun.
    apply bind_Ok_inv in Hrun as (t1 & m1 & t2 & Hhead & Htail & _).
    rewrite (IH _ _ Hk Htail). by apply (mergeKey_frame _ _ _ _ _ Hhead).
Qed.

Lemma mergeKeys_dom keys (m m' : txOps) t k :
  mergeKeys precedingUpdates db keys m = (t, Ok m') → is_Some (m' !! k) → is_Some (m !! k).
Proof.
  revert m t. induction keys as [|ck keys IH]; intros m t Hrun Hk.
  - by apply mret_Ok_inv in Hrun as [_ <-].
  - rewrite mergeKeys_cons in Hrun.
    apply bind_Ok_inv in Hrun as (t1 & m1 & t2 & Hhead & Htail & _).
    eapply mergeKey_dom; [done|]. by eapply IH.
Qed.

(** A key that is visited once ends up as one pass of the body leaves
    it, whatever the other keys and their order. *)
Lemma mergeKeys_cell keys (m m' : txOps) t ck keyop :
  NoDup keys → ck ∈ keys → m !! ck = Some keyop →
  mergeKeys precedingUpdates db keys m = (t, Ok m') →
  merged_cell precedingUpdates db ck keyop (m' !! ck).
Proof.
  revert m t. induction keys as [|k keys IH]; intros m t Hnd Hin Hck Hrun.
  - by apply not_elem_of_nil in Hin.
  - apply NoDup_cons in Hnd as [Hfresh Hnd].
    rewrite mergeKeys_cons in Hrun.
    apply bind_Ok_inv in Hrun as (t1 & m1 & t2 & Hhead & Htail & _).
    destruct (decide (ck = k)) as [->|Hne].
    + rewrite (mergeKeys_frame _ _ _ _ _ Hfresh Htail).
      by eapply mergeKey_cell.
    + apply elem_of_cons in Hin as [?|Hin]; [done|].
      eapply IH; [done|done| |done].
      by rewrite (mergeKey_frame _ _ _ _ _ Hhead Hne).
Qed.

(** Every lookup of the loop is about a visited key whose cell, as the
    projection left it, is neither a delete nor fully specified. *)
Lemma mergeKeys_trace keys (m : txOps) c :
  NoDup keys → c ∈ trace (mergeKeys precedingUpdates db keys m) →
  call_key c ∈ keys
  ∧ ∃ keyop, m !! call_key c = Some keyop
             ∧ isDelete keyop || isUpsertAndMetadataUpdate keyop = false.
Proof.
  revert m. induction keys as [|k keys IH]; intros m Hnd Hc.
  - by apply not_elem_of_nil in Hc.
  - apply NoDup_cons in Hnd as [Hfresh Hnd].
    rewrite mergeKeys_cons in Hc.
    apply bind_trace in Hc as [Hc|(m1 & Hhead & Hc)].
    + apply mergeKey_trace in Hc as [-> Hcell]. split; [by left|done].
    + destruct (IH _ Hnd Hc) as [Hin (keyop & Hcell & Hterm)].
      split; [by right|]. exists keyop. split; [|done].
      rewrite <- Hcell. symmetry.
      destruct (mergeKey precedingUpdates db k m) as [t1 r1] eqn:Hrun.
      unfold outcome in Hhead. simpl in Hhead. subst r1.
      eapply mergeKey_frame; [done|]. intros Heq. by rewrite Heq in Hin.
Qed.

(** Nothing is looked up, and nothing changes, for an empty map. *)
Lemma mergeKeys_empty keys :
  mergeKeys precedingUpdates db keys ∅ = ([], Ok ∅).
Proof.
  induction keys as [|k keys IH]; [done|].
  rewrite mergeKeys_cons. unfold mergeKey at 1. rewrite lookup_empty.
  rewrite bind_unfold. simpl. by rewrite IH.
Qed.

End Merge.

(** ** The three classes of [prepareTxOps] *)

Lemma only_upsert_flag keyop : isOnlyUpsert keyop = true → flag keyop = 0 ∨ flag keyop = 1.
Proof.
  unfold isOnlyUpsert, upsertVal. intros Hlor%Z.eqb_eq.
  change (Z.shiftl 1 0) with 1 in Hlor.
  pose proof (Z.add_lor_land (flag keyop) 1) as Hadd. rewrite Hlor in Hadd.
  pose proof (Z.land_ones (flag keyop) 1 ltac:(lia)) as Hones.
  change (Z.ones 1) with 1 in Hones. change (2 ^ 1) with 2 in Hones.
  pose proof (Z.mod_pos_bound (flag keyop) 2 ltac:(lia)). lia.
Qed.

Lemma only_upsert_not_terminal keyop :
  isOnlyUpsert keyop = true → isDelete keyop || isUpsertAndMetadataUpdate keyop = false.
Proof.
  intros Hflag%only_upsert_flag. unfold isDelete, isUpsertAndMetadataUpdate.
  by destruct Hflag as [-> | ->].
Qed.

(** An entry with a metadata bit and neither [upsertVal] nor [keyDelete]
    falls through to the last branch of the loop. *)
Lemma metadata_only_class keyop :
  Z.land (flag keyop) upsertVal = 0 →
  Z.land (flag keyop) keyDelete = 0 →
  Z.land (flag keyop) metadataUpdate ≠ 0 ∨ Z.land (flag keyop) metadataDelete ≠ 0 →
  isDelete keyop || isUpsertAndMetadataUpdate keyop = false ∧ isOnlyUpsert keyop = false.
Proof.
  intros Hup Hdel Hmeta. unfold isDelete, isUpsertAndMetadataUpdate, isOnlyUpsert.
  rewrite Hup, Hdel. split; [done|].
  apply Z.eqb_neq. intros Hlor.
  assert (∀ bit, Z.land 1 bit = 0 → Z.land (flag keyop) bit = 0) as Hbits.
  { intros bit Hbit.
    pose proof (Z.land_lor_distr_l (flag keyop) upsertVal bit) as Hd.
    rewrite Hlor in Hd. change upsertVal with 1 in Hd.
    rewrite Hbit, Z.lor_0_r in Hd. by rewrite Hd. }
  destruct Hmeta as [Hm|Hm]; apply Hm, Hbits; reflexivity.
Qed.

Section PrepareTxOps.

Variable LineageSupported : bool.
Variable IsOCC : bool.
Variable Serialize : slice KVMetadataEntry.t → result bytes.
Variable range_order : txOps → list compositeKey.

(** [range] visits every key of the map once. *)
Hypothesis range_order_perm : ∀ m : txOps, range_order m ≡ₚ (map_to_list m).*1.

Lemma range_order_NoDup (m : txOps) : NoDup (range_order m).
Proof. rewrite range_order_perm. apply NoDup_fst_map_to_list. Qed.

Lemma range_order_elem (m : txOps) k : k ∈ range_order m ↔ is_Some (m !! k).
Proof.
  rewrite range_order_perm, list_elem_of_fmap. split.
  - intros ([k' v] & -> & Hin). apply elem_of_map_to_list in Hin. by eexists.
  - intros [v Hv]. exists (k, v). split; [done|]. by apply elem_of_map_to_list.
Qed.

Lemma prepareTxOps_unfold rwset txht pu db :
  prepareTxOps LineageSupported IsOCC Serialize range_order rwset txht pu db
  = mergeKeys pu db
      (range_order (applyTxRwset LineageSupported IsOCC Serialize rwset ∅).1)
      (applyTxRwset LineageSupported IsOCC Serialize rwset ∅).1.
Proof. reflexivity. Qed.

(** The cell of a projected key after a successful merge. *)
Lemma prepareTxOps_cell rwset txht pu db ck keyop result :
  (applyTxRwset LineageSupported IsOCC Serialize rwset ∅).1 !! ck = Some keyop →
  outcome (prepareTxOps LineageSupported IsOCC Serialize range_order rwset txht pu db)
    = Ok result →
  merged_cell pu db ck keyop (result !! ck).
Proof.
  rewrite prepareTxOps_unfold. intros Hck Hout.
  destruct (mergeKeys pu db _ _) as [t r] eqn:Hrun.
  unfold outcome in Hout. simpl in Hout. subst r.
  eapply mergeKeys_cell; [apply range_order_NoDup| |done|done].
  apply range_order_elem. by eexists.
Qed.

(** C3. An entry that the projection leaves with a metadata bit and
    with neither [upsertVal] nor [keyDelete]: when [prepareTxOps] returns
    a map, the key is absent from it if neither the staging buffer nor
    the state database has a state for it, and if the latest state is
    [vv] the entry differs from the projected one in its value only:
    its value slot holds the value of [vv], and its flag, metadata,
    dependencies and snapshot are the projected ones. *)
Theorem metadata_only_entry_merged rwset txht pu db ck keyop result :
  (applyTxRwset LineageSupported IsOCC Serialize rwset ∅).1 !! ck = Some keyop →
  Z.land (flag keyop) upsertVal = 0 →
  Z.land (flag keyop) keyDelete = 0 →
  Z.land (flag keyop) metadataUpdate ≠ 0 ∨ Z.land (flag keyop) metadataDelete ≠ 0 →
  outcome (prepareTxOps LineageSupported IsOCC Serialize range_order rwset txht pu db)
    = Ok result →
  (staged pu ck = None → committedState db ck = Ok None → result !! ck = None)
  ∧ (∀ vv,
       outcome (retrieveLatestState (ck_ns ck) (ck_coll ck) (ck_key ck) pu db)
         = Ok (Some vv) →
       result !! ck = Some (set_value (VersionedValue.Value vv) keyop)
       ∧ flag (set_value (VersionedValue.Value vv) keyop) = flag keyop
       ∧ ∃ keyop',
           result !! ck = Some keyop'
           ∧ value keyop' = VersionedValue.Value vv
           ∧ flag keyop' = flag keyop
           ∧ metadata keyop' = metadata keyop
           ∧ deps keyop' = deps keyop
           ∧ depSnapshot keyop' = depSnapshot keyop).
Proof.
  intros Hck Hup Hdel Hmeta Hout.
  pose proof (prepareTxOps_cell _ _ _ _ _ _ _ Hck Hout) as Hcell.
  destruct (metadata_only_class _ Hup Hdel Hmeta) as [Hterm Hnot].
  unfold merged_cell in Hcell. rewrite Hterm, Hnot in Hcell.
  destruct Hcell as (latestVal & Hlatest & Hres). split.
  - intros Hst Hdb. rewrite retrieveLatestState_outcome, Hst, Hdb in Hlatest.
    injection Hlatest as <-. by rewrite Hres.
  - intros vv Hvv. rewrite Hvv in Hlatest. injection Hlatest as <-.
    rewrite Hres. split; [reflexivity|]. split; [reflexivity|].
    exists (set_value (VersionedValue.Value vv) keyop).
    split; [reflexivity|]. split; [reflexivity|]. split; [reflexivity|].
    split; [reflexivity|]. split; reflexivity.
Qed.

(** C4. An entry that the projection leaves with [isOnlyUpsert]: when
    [prepareTxOps] returns a map, the entry differs from the projected
    one in its metadata only, which is what [retrieveLatestMetadata]
    returns: the metadata of the staged value if there is one, otherwise
    the answer of the state database, and nil if that answer is nil. *)
Theorem only_upsert_entry_merged rwset txht pu db ck keyop result :
  (applyTxRwset LineageSupported IsOCC Serialize rwset ∅).1 !! ck = Some keyop →
  isOnlyUpsert keyop = true →
  outcome (prepareTxOps LineageSupported IsOCC Serialize range_order rwset txht pu db)
    = Ok result →
  ∃ latestMetadata,
    outcome (retrieveLatestMetadata (ck_ns ck) (ck_coll ck) (ck_key ck) pu db)
      = Ok latestMetadata
    ∧ match staged pu ck with
      | Some vv => latestMetadata = VersionedValue.Metadata vv
      | None => committedMetadata db ck = Ok latestMetadata
      end
    ∧ result !! ck = Some (set_metadata latestMetadata keyop)
    ∧ flag (set_metadata latestMetadata keyop) = flag keyop
    ∧ value (set_metadata latestMetadata keyop) = value keyop
    ∧ metadata (set_metadata latestMetadata keyop) = latestMetadata.
Proof.
  intros Hck Honly Hout.
  pose proof (prepareTxOps_cell _ _ _ _ _ _ _ Hck Hout) as Hcell.
  unfold merged_cell in Hcell.
  rewrite (only_upsert_not_terminal _ Honly), Honly in Hcell.
  destruct Hcell as (latestMetadata & Hlatest & Hres).
  exists latestMetadata. split; [done|]. split; [|done].
  rewrite retrieveLatestMetadata_outcome in Hlatest.
  destruct (staged pu ck); [by injection Hlatest|done].
Qed.

(** C5. An entry that the projection leaves with [isDelete] or with
    [isUpsertAndMetadataUpdate]: [prepareTxOps] issues no lookup about
    its key, whether it returns a map or an error, and in the map it
    returns the entry is the projected one, field for field. *)
Theorem delete_and_full_entries_untouched rwset txht pu db ck keyop :
  (applyTxRwset LineageSupported IsOCC Serialize rwset ∅).1 !! ck = Some keyop →
  isDelete keyop = true ∨ isUpsertAndMetadataUpdate keyop = true →
  (∀ c, c ∈ trace (prepareTxOps LineageSupported IsOCC Serialize range_order
                     rwset txht pu db) →
        call_key c ≠ ck)
  ∧ (∀ result,
       outcome (prepareTxOps LineageSupported IsOCC Serialize range_order
                  rwset txht pu db) = Ok result →
       result !! ck = Some keyop).
Proof.
  intros Hck Hclass.
  assert (isDelete keyop || isUpsertAndMetadataUpdate keyop = true) as Hterm.
  { apply orb_true_iff. tauto. }
  split.
  - intros c Hc Heq. rewrite prepareTxOps_unfold in Hc.
    apply mergeKeys_trace in Hc as [_ (keyop' & Hcell & Hnot)];
      [|apply range_order_NoDup].
    rewrite Heq, Hck in Hcell. injection Hcell as <-. congruence.
  - intros result Hout.
    pose proof (prepareTxOps_cell _ _ _ _ _ _ _ Hck Hout) as Hcell.
    unfold merged_cell in Hcell. by rewrite Hterm in Hcell.
Qed.

End PrepareTxOps.

(** *** The classes on the sample transactions *)

Lemma sample_order_perm (m : txOps) : Sample.order m ≡ₚ (map_to_list m).*1.
Proof. reflexivity. Qed.

(** S3: a metadata write on a key that the database holds with ["v0"]. *)
Lemma metadata_only_entry_merged_witness :
  ∃ result,
    outcome (prepareTxOps false false Sample.serializeOk Sample.order
               Sample.rwMetadata None Sample.noStaging Sample.fullDB) = Ok result
    ∧ result !! Sample.k
      = Some (KeyOps metadataUpdate (Sample.b "v0") (Sample.b "M2") None 0)
    ∧ ∃ keyop',
        result !! Sample.k = Some keyop'
        ∧ value keyop' = Sample.b "v0"
        ∧ flag keyop' = metadataUpdate
        ∧ metadata keyop' = Sample.b "M2"
        ∧ deps keyop' = None
        ∧ depSnapshot keyop' = 0.
Proof.
  assert (match outcome (prepareTxOps false false Sample.serializeOk Sample.order
                           Sample.rwMetadata None Sample.noStaging Sample.fullDB) with
          | Ok _ => true
          | Err _ => false
          end = true) as Hok by (vm_compute; reflexivity).
  destruct (outcome (prepareTxOps false false Sample.serializeOk Sample.order
                       Sample.rwMetadata None Sample.noStaging Sample.fullDB))
    as [result|err] eqn:Hout; [|discriminate Hok].
  exists result. split; [reflexivity|].
  assert ((applyTxRwset false false Sample.serializeOk Sample.rwMetadata ∅).1 !! Sample.k
          = Some (KeyOps metadataUpdate None (Sample.b "M2") None 0)) as Hck
    by (vm_compute; reflexivity).
  assert (Z.land metadataUpdate metadataUpdate ≠ 0 ∨ Z.land metadataUpdate metadataDelete ≠ 0)
    as Hmeta by (left; vm_compute; discriminate).
  assert (outcome (retrieveLatestState "n" "" "k" Sample.noStaging Sample.fullDB)
          = Ok (Some (VersionedValue.mk (Sample.b "v0") (Sample.b "M_old") None))) as Hstate
    by (vm_compute; reflexivity).
  destruct (proj2 (metadata_only_entry_merged false false Sample.serializeOk
                     Sample.order sample_order_perm Sample.rwMetadata None
                     Sample.noStaging Sample.fullDB Sample.k
                     (KeyOps metadataUpdate None (Sample.b "M2") None 0) result
                     Hck eq_refl eq_refl Hmeta Hout)
              (VersionedValue.mk (Sample.b "v0") (Sample.b "M_old") None) Hstate)
    as (Hres & _ & Hfields).
  split; [exact Hres|exact Hfields].
Defined.

(** S1: a pure upsert, no metadata anywhere. *)
Lemma only_upsert_entry_merged_witness :
  ∃ result,
    outcome (prepareTxOps false false Sample.serializeOk Sample.order
               Sample.rwUpsert None Sample.noStaging Sample.emptyDB) = Ok result
    ∧ ∃ latestMetadata,
        committedMetadata Sample.emptyDB Sample.k = Ok latestMetadata
        ∧ result !! Sample.k
          = Some (set_metadata latestMetadata (KeyOps upsertVal (Sample.b "v1") None None 0)).
Proof.
  assert (match outcome (prepareTxOps false false Sample.serializeOk Sample.order
                           Sample.rwUpsert None Sample.noStaging Sample.emptyDB) with
          | Ok _ => true
          | Err _ => false
          end = true) as Hok by (vm_compute; reflexivity).
  destruct (outcome (prepareTxOps false false Sample.serializeOk Sample.order
                       Sample.rwUpsert None Sample.noStaging Sample.emptyDB))
    as [result|err] eqn:Hout; [|discriminate Hok].
  exists result. split; [reflexivity|].
  assert ((applyTxRwset false false Sample.serializeOk Sample.rwUpsert ∅).1 !! Sample.k
          = Some (KeyOps upsertVal (Sample.b "v1") None None 0)) as Hck
    by (vm_compute; reflexivity).
  destruct (only_upsert_entry_merged false false Sample.serializeOk Sample.order
              sample_order_perm Sample.rwUpsert None Sample.noStaging Sample.emptyDB
              Sample.k (KeyOps upsertVal (Sample.b "v1") None None 0) result
              Hck eq_refl Hout) as (latestMetadata & _ & Hdb & Hres & _).
  exists latestMetadata. split; [exact Hdb|exact Hres].
Defined.

(** S5: a delete together with a metadata write. *)
Lemma delete_and_full_entries_untouched_witness :
  (∀ c, c ∈ trace (prepareTxOps false false Sample.serializeOk Sample.order
                     Sample.rwDeleteMetadata None Sample.noStaging Sample.fullDB) →
        call_key c ≠ Sample.k)
  ∧ (∀ result,
       outcome (prepareTxOps false false Sample.serializeOk Sample.order
                  Sample.rwDeleteMetadata None Sample.noStaging Sample.fullDB)
         = Ok result →
       result !! Sample.k = Some (KeyOps 10 None (Sample.b "M2") None 0)).
Proof.
  assert ((applyTxRwset false false Sample.serializeOk Sample.rwDeleteMetadata ∅).1
            !! Sample.k
          = Some (KeyOps 10 None (Sample.b "M2") None 0)) as Hck
    by (vm_compute; reflexivity).
  exact (delete_and_full_entries_untouched false false Sample.serializeOk Sample.order
           sample_order_perm Sample.rwDeleteMetadata None Sample.noStaging Sample.fullDB
           Sample.k (KeyOps 10 None (Sample.b "M2") None 0) Hck (or_introl eq_refl)).
Defined.

(** ** Errors of the serializer *)

(** [applyTxRwset] has no other result than [nil]. *)
Lemma applyTxRwset_returns_nil lineage occ Serialize rwset (txops : txOps) :
  (applyTxRwset lineage occ Serialize rwset txops).2 = None.
Proof. reflexivity. Qed.

(** C2. A transaction whose only content is one metadata write with
    entries, under a serializer that fails with [err]: [applyMetadata]
    returns [err] and records nothing; [applyTxRwset] returns nil all the
    same (as it does on every input), and [prepareTxOps] returns the empty
    map and no error. *)
Theorem serialize_error_dropped (lineage occ : bool) order (err : error)
    (ns key : string) (es : list KVMetadataEntry.t) txht pu db :
  applyMetadata (λ _, Err err) ns "" (KVMetadataWrite.mk key (Some es)) ∅
    = (∅, Some err)
  ∧ applyTxRwset lineage occ (λ _, Err err)
      (TxRwSet.mk [NsRwSet.mk ns
                     (KVRWSet.mk [] [] [KVMetadataWrite.mk key (Some es)]) []]) ∅
    = (∅, None)
  ∧ prepareTxOps lineage occ (λ _, Err err) order
      (TxRwSet.mk [NsRwSet.mk ns
                     (KVRWSet.mk [] [] [KVMetadataWrite.mk key (Some es)]) []])
      txht pu db
    = ([], Ok ∅)
  ∧ ∀ Serialize rwset (txops : txOps),
      (applyTxRwset lineage occ Serialize rwset txops).2 = None.
Proof.
  assert (applyTxRwset lineage occ (λ _, Err err)
            (TxRwSet.mk [NsRwSet.mk ns
                           (KVRWSet.mk [] [] [KVMetadataWrite.mk key (Some es)]) []]) ∅
          = (∅, None)) as Happly.
  { unfold applyTxRwset, applyNsRwSet. simpl. by destruct lineage. }
  split; [reflexivity|]. split; [exact Happly|].
  split; [|intros; apply applyTxRwset_returns_nil].
  unfold prepareTxOps. rewrite Happly. apply mergeKeys_empty.
Qed.

(** ** Metadata writes *)

(** C6, as stated, fails on an entries slice that is empty but not nil:
    it is handed to the serializer and recorded as a metadata update. *)
Lemma applyMetadata_empty_entries :
  KVMetadataWrite.Entries (KVMetadataWrite.mk "k" (Some [])) = Some []
  ∧ applyMetadata Sample.serializeOk "n" "" (KVMetadataWrite.mk "k" (Some [])) ∅
    = (txops_metadataUpdate Sample.k (Sample.b "M2") ∅, None)
  ∧ (applyMetadata Sample.serializeOk "n" "" (KVMetadataWrite.mk "k" (Some [])) ∅).1
      !! Sample.k
    = Some (KeyOps metadataUpdate None (Sample.b "M2") None 0)
  ∧ (applyMetadata Sample.serializeOk "n" "" (KVMetadataWrite.mk "k" (Some [])) ∅).1
    ≠ txops_metadataDelete Sample.k ∅.
Proof.
  split; [reflexivity|]. split; [reflexivity|]. split; [by vm_compute|].
  intros Heq. apply (f_equal (λ m : txOps, flag <$> m !! Sample.k)) in Heq.
  vm_compute in Heq. discriminate.
Qed.

(** C6, amended.  With nil entries [applyMetadata] is [metadataDelete]
    on the key; with any other entries, the empty slice included, it is
    [metadataUpdate] with the serialized bytes, which end up in the
    metadata slot, provided the serializer succeeds, and it records nothing
    and returns the error otherwise.  On a key whose flag lacks the bit,
    the call sets that bit and no other: the flag of the entry becomes the
    former flag or-ed with the bit, and the fields that are not the
    payload of the call keep their content. *)
Theorem applyMetadata_nil_or_serialized Serialize ns coll
    (mw : KVMetadataWrite.t) (txops : txOps) :
  (KVMetadataWrite.Entries mw = None →
     applyMetadata Serialize ns coll mw txops
       = (txops_metadataDelete (CompositeKey ns coll (KVMetadataWrite.Key mw)) txops, None)
     ∧ (is_uint8 (flag (entry txops (CompositeKey ns coll (KVMetadataWrite.Key mw)))) →
        Z.land (flag (entry txops (CompositeKey ns coll (KVMetadataWrite.Key mw))))
               metadataDelete = 0 →
        (applyMetadata Serialize ns coll mw txops).1
          !! CompositeKey ns coll (KVMetadataWrite.Key mw)
        = Some (set_flag
                  (Z.lor (flag (entry txops (CompositeKey ns coll (KVMetadataWrite.Key mw))))
                         metadataDelete)
                  (entry txops (CompositeKey ns coll (KVMetadataWrite.Key mw))))
        ∧ ∃ keyop',
            (applyMetadata Serialize ns coll mw txops).1
              !! CompositeKey ns coll (KVMetadataWrite.Key mw) = Some keyop'
            ∧ flag keyop'
              = Z.lor (flag (entry txops (CompositeKey ns coll (KVMetadataWrite.Key mw))))
                      metadataDelete
            ∧ value keyop'
              = value (entry txops (CompositeKey ns coll (KVMetadataWrite.Key mw)))
            ∧ metadata keyop'
              = metadata (entry txops (CompositeKey ns coll (KVMetadataWrite.Key mw)))
            ∧ deps keyop'
              = deps (entry txops (CompositeKey ns coll (KVMetadataWrite.Key mw)))
            ∧ depSnapshot keyop'
              = depSnapshot (entry txops (CompositeKey ns coll (KVMetadataWrite.Key mw)))))
  ∧ (∀ es metadataBytes,
       KVMetadataWrite.Entries mw = Some es →
       Serialize (Some es) = Ok metadataBytes →
       applyMetadata Serialize ns coll mw txops
         = (txops_metadataUpdate (CompositeKey ns coll (KVMetadataWrite.Key mw))
              metadataBytes txops, None)
       ∧ (metadata <$> (applyMetadata Serialize ns coll mw txops).1
                         !! CompositeKey ns coll (KVMetadataWrite.Key mw))
         = Some metadataBytes
       ∧ (is_uint8 (flag (entry txops (CompositeKey ns coll (KVMetadataWrite.Key mw)))) →
          Z.land (flag (entry txops (CompositeKey ns coll (KVMetadataWrite.Key mw))))
                 metadataUpdate = 0 →
          (applyMetadata Serialize ns coll mw txops).1
            !! CompositeKey ns coll (KVMetadataWrite.Key mw)
          = Some (set_metadata metadataBytes
                    (set_flag
                       (Z.lor (flag (entry txops
                                       (CompositeKey ns coll (KVMetadataWrite.Key mw))))
                              metadataUpdate)
                       (entry txops (CompositeKey ns coll (KVMetadataWrite.Key mw)))))
          ∧ ∃ keyop',
              (applyMetadata Serialize ns coll mw txops).1
                !! CompositeKey ns coll (KVMetadataWrite.Key mw) = Some keyop'
              ∧ flag keyop'
                = Z.lor (flag (entry txops (CompositeKey ns coll (KVMetadataWrite.Key mw))))
                        metadataUpdate
              ∧ metadata keyop' = metadataBytes
              ∧ value keyop'
                = value (entry txops (CompositeKey ns coll (KVMetadataWrite.Key mw)))
              ∧ deps keyop'
                = deps (entry txops (CompositeKey ns coll (KVMetadataWrite.Key mw)))
              ∧ depSnapshot keyop'
                = depSnapshot
                    (entry txops (CompositeKey ns coll (KVMetadataWrite.Key mw)))))
  ∧ (∀ es err,
       KVMetadataWrite.Entries mw = Some es →
       Serialize (Some es) = Err err →
       applyMetadata Serialize ns coll mw txops = (txops, Some err)).
Proof.
  set (k := CompositeKey ns coll (KVMetadataWrite.Key mw)).
  unfold applyMetadata. fold k. split; [|split].
  - intros ->. split; [done|]. intros Hrange Hbit. simpl.
    rewrite txops_metadataDelete_eq, lookup_insert_eq. unfold add_flag.
    rewrite add_is_lor; [|done| |done]; [|set_solver].
    split; [reflexivity|]. eexists. split; [reflexivity|].
    repeat (split; [reflexivity|]). reflexivity.
  - intros es metadataBytes -> ->. split; [done|]. simpl.
    rewrite txops_metadataUpdate_eq, lookup_insert_eq. split; [done|].
    intros Hrange Hbit. unfold add_flag.
    rewrite add_is_lor; [|done| |done]; [|set_solver].
    split; [reflexivity|]. eexists. split; [reflexivity|].
    repeat (split; [reflexivity|]). reflexivity.
  - by intros es err -> ->.
Qed.

(** S3 again: the metadata write of a fresh key. *)
Lemma applyMetadata_nil_or_serialized_witness :
  applyMetadata Sample.serializeOk "n" ""
      (KVMetadataWrite.mk "k" Sample.entries) ∅
    = (txops_metadataUpdate Sample.k (Sample.b "M2") ∅, None)
  ∧ (metadata <$> (applyMetadata Sample.serializeOk "n" ""
                     (KVMetadataWrite.mk "k" Sample.entries) ∅).1 !! Sample.k)
    = Some (Sample.b "M2")
  ∧ (applyMetadata Sample.serializeOk "n" ""
       (KVMetadataWrite.mk "k" Sample.entries) ∅).1 !! Sample.k
    = Some (KeyOps metadataUpdate None (Sample.b "M2") None 0).
Proof.
  destruct (proj1 (proj2 (applyMetadata_nil_or_serialized Sample.serializeOk "n" ""
                            (KVMetadataWrite.mk "k" Sample.entries) ∅))
              [KVMetadataEntry.mk "a" (Sample.b "b")] (Sample.b "M2")
              eq_refl eq_refl) as (Hcall & Hslot & Hflag).
  split; [exact Hcall|]. split; [exact Hslot|].
  refine (proj1 (Hflag _ _)).
  - vm_compute. split; [discriminate|reflexivity].
  - reflexivity.
Defined.

(** ** The projection, cell by cell *)

Lemma entry_lookup (m : txOps) k keyop : m !! k = Some keyop → entry m k = keyop.
Proof. unfold entry. by intros ->. Qed.

Lemma entry_update k k' x (m : txOps) :
  entry (<[k := x]> m) k' = if decide (k = k') then x else entry m k'.
Proof. unfold entry. rewrite lookup_insert. by case_decide. Qed.

Lemma is_Some_update k k' x (m : txOps) :
  is_Some (<[k := x]> m !! k') ↔ k = k' ∨ is_Some (m !! k').
Proof.
  rewrite lookup_insert. case_decide.
  - split; [by left|by eexists].
  - split; [by right|]. by intros [?|?].
Qed.

(** The keys a step of the projection can add. *)
Lemma applyKVWrite_dom ns coll w (m : txOps) k :
  is_Some (applyKVWrite ns coll w m !! k)
  ↔ CompositeKey ns coll (KVWrite.Key w) = k ∨ is_Some (m !! k).
Proof.
  unfold applyKVWrite.
  destruct (KVWrite.IsDelete w);
    rewrite ?txops_delete_eq, ?txops_upsert_eq; apply is_Some_update.
Qed.

Lemma applyKVWriteWithDep_dom ns coll w ds s (m : txOps) k :
  is_Some (applyKVWriteWithDep ns coll w ds s m !! k)
  ↔ CompositeKey ns coll (KVWrite.Key w) = k ∨ is_Some (m !! k).
Proof.
  unfold applyKVWriteWithDep.
  destruct (KVWrite.IsDelete w);
    rewrite ?txops_deleteWithDep_eq, ?txops_upsertWithDep_eq; apply is_Some_update.
Qed.

Lemma applyMetadata_dom Serialize ns coll mw (m : txOps) k :
  is_Some ((applyMetadata Serialize ns coll mw m).1 !! k) →
  CompositeKey ns coll (KVMetadataWrite.Key mw) = k ∨ is_Some (m !! k).
Proof.
  unfold applyMetadata. destruct (KVMetadataWrite.Entries mw) as [es|]; simpl.
  - destruct (Serialize (Some es)); simpl; [|by right].
    rewrite txops_metadataUpdate_eq. apply is_Some_update.
  - rewrite txops_metadataDelete_eq. apply is_Some_update.
Qed.

Lemma applyMetadata_mono Serialize ns coll mw (m : txOps) k :
  is_Some (m !! k) → is_Some ((applyMetadata Serialize ns coll mw m).1 !! k).
Proof.
  intros Hk. unfold applyMetadata. destruct (KVMetadataWrite.Entries mw) as [es|]; simpl.
  - destruct (Serialize (Some es)); simpl; [|done].
    rewrite txops_metadataUpdate_eq. apply is_Some_update. by right.
  - rewrite txops_metadataDelete_eq. apply is_Some_update. by right.
Qed.

Lemma applyRealWrite_dom ns depsMap s (m : txOps) w k :
  is_Some (applyRealWrite ns depsMap s m w !! k) ↔
  (HasSuffix (KVWrite.Key w) "_prov" = false ∧ CompositeKey ns "" (KVWrite.Key w) = k)
  ∨ is_Some (m !! k).
Proof.
  unfold applyRealWrite. destruct (HasSuffix (KVWrite.Key w) "_prov").
  - split; [by right|]. by intros [[? _]|?].
  - rewrite applyKVWriteWithDep_dom.
    split; (intros [Hk|Hk]; [left|by right]); [done|by destruct Hk].
Qed.

(** Loops: a key bound after the loop was bound before it or is added
    by one of the steps; a key bound before the loop stays bound. *)
Lemma fold_left_dom {X} (step : txOps → X → txOps) (Q : X → compositeKey → Prop) :
  (∀ m x k, is_Some (step m x !! k) → Q x k ∨ is_Some (m !! k)) →
  ∀ l (m : txOps) k,
    is_Some (fold_left step l m !! k) → (∃ x, x ∈ l ∧ Q x k) ∨ is_Some (m !! k).
Proof.
  intros Hstep l. induction l as [|x l IH]; intros m k Hk; [by right|].
  simpl in Hk. apply IH in Hk as [(y & Hy & HQ)|Hk].
  - left. exists y. split; [by right|done].
  - apply Hstep in Hk as [HQ|Hk]; [|by right].
    left. exists x. split; [by left|done].
Qed.

Lemma fold_left_mono {X} (step : txOps → X → txOps) :
  (∀ m x k, is_Some (m !! k) → is_Some (step m x !! k)) →
  ∀ l (m : txOps) k, is_Some (m !! k) → is_Some (fold_left step l m !! k).
Proof.
  intros Hstep l. induction l as [|x l IH]; intros m k Hk; [done|].
  simpl. by apply IH, Hstep.
Qed.

Lemma fold_left_hit {X} (step : txOps → X → txOps) (key_of : X → compositeKey) :
  (∀ m x k, is_Some (m !! k) → is_Some (step m x !! k)) →
  (∀ m x, is_Some (step m x !! key_of x)) →
  ∀ l (m : txOps) x, x ∈ l → is_Some (fold_left step l m !! key_of x).
Proof.
  intros Hmono Hhit l. induction l as [|y l IH]; intros m x Hx.
  - by apply not_elem_of_nil in Hx.
  - simpl. apply elem_of_cons in Hx as [->|Hx]; [|by apply IH].
    by apply fold_left_mono.
Qed.

Lemma applyCollHashedRwSet_dom Serialize ns (m : txOps) c k :
  is_Some (applyCollHashedRwSet Serialize ns m c !! k) →
  k ∈ collKeys ns c ∨ is_Some (m !! k).
Proof.
  unfold applyCollHashedRwSet, collKeys. intros Hk.
  apply (fold_left_dom _ (λ w k,
           CompositeKey ns (CollHashedRwSet.CollectionName c)
             (string_of_bytes (KVMetadataWriteHash.KeyHash w)) = k)) in Hk.
  2:{ intros m0 x k0 H0. by apply applyMetadata_dom in H0. }
  destruct Hk as [(x & Hx & <-)|Hk].
  { left. apply elem_of_app. right. apply list_elem_of_fmap. by exists x. }
  apply (fold_left_dom _ (λ w k,
           CompositeKey ns (CollHashedRwSet.CollectionName c)
             (string_of_bytes (KVWriteHash.KeyHash w)) = k)) in Hk.
  2:{ intros m0 x k0 H0. by apply applyKVWrite_dom in H0. }
  destruct Hk as [(x & Hx & <-)|Hk]; [|by right].
  left. apply elem_of_app. left. apply list_elem_of_fmap. by exists x.
Qed.

Lemma applyCollHashedRwSet_mono Serialize ns (m : txOps) c k :
  is_Some (m !! k) → is_Some (applyCollHashedRwSet Serialize ns m c !! k).
Proof.
  intros Hk. unfold applyCollHashedRwSet.
  apply fold_left_mono; [intros; by apply applyMetadata_mono|].
  apply fold_left_mono; [|done].
  intros m0 x k0 H0. apply applyKVWrite_dom. by right.
Qed.

(** In provenance mode a namespace adds the keys of its real writes and
    of its metadata and collection writes, and no other. *)
Lemma applyNsRwSet_lineage_dom occ Serialize (m : txOps) n k :
  is_Some (applyNsRwSet true occ Serialize m n !! k) →
  HasSuffix (ck_key k) "_prov" = false ∨ k ∈ nsSideKeys n ∨ is_Some (m !! k).
Proof.
  unfold applyNsRwSet, nsSideKeys. intros Hk.
  apply (fold_left_dom _ (λ c k, k ∈ collKeys (NsRwSet.NameSpace n) c)) in Hk.
  2:{ intros m0 x k0 H0. by apply applyCollHashedRwSet_dom in H0. }
  destruct Hk as [(c & Hc & Hk)|Hk].
  { right. left. apply elem_of_app. right.
    apply list_elem_of_In, in_concat. exists (collKeys (NsRwSet.NameSpace n) c).
    split; [apply in_map|]; by apply list_elem_of_In. }
  apply (fold_left_dom _ (λ w k,
           CompositeKey (NsRwSet.NameSpace n) "" (KVMetadataWrite.Key w) = k)) in Hk.
  2:{ intros m0 x k0 H0. by apply applyMetadata_dom in H0. }
  destruct Hk as [(w & Hw & <-)|Hk].
  { right. left. apply elem_of_app. left. apply list_elem_of_fmap. by exists w. }
  apply (fold_left_dom _ (λ w k,
           HasSuffix (KVWrite.Key w) "_prov" = false
           ∧ CompositeKey (NsRwSet.NameSpace n) "" (KVWrite.Key w) = k)) in Hk.
  2:{ intros m0 x k0 H0. by apply applyRealWrite_dom in H0. }
  destruct Hk as [(w & Hw & Hsuf & <-)|Hk]; [by left|by right; right].
Qed.

Lemma applyTxRwset_lineage_dom occ Serialize rwset (m : txOps) k :
  is_Some ((applyTxRwset true occ Serialize rwset m).1 !! k) →
  HasSuffix (ck_key k) "_prov" = false ∨ k ∈ sideKeys rwset ∨ is_Some (m !! k).
Proof.
  unfold applyTxRwset, sideKeys. simpl. intros Hk.
  apply (fold_left_dom _ (λ n k, HasSuffix (ck_key k) "_prov" = false ∨ k ∈ nsSideKeys n))
    in Hk.
  2:{ intros m0 x k0 H0. apply applyNsRwSet_lineage_dom in H0. tauto. }
  destruct Hk as [(n & Hn & [Hsuf|Hside])|Hk]; [by left| |by right; right].
  right. left. apply list_elem_of_In, in_concat. exists (nsSideKeys n).
  split; [apply in_map|]; by apply list_elem_of_In.
Qed.

(** ** Provenance markers *)

(** [Split] never returns an empty slice, so [Split(...)[0]] is in range. *)
Lemma Split_nonempty s sep : Split s sep ≠ [].
Proof.
  destruct s as [|c s]; simpl; [done|].
  destruct (Ascii.eqb c sep); [done|]. by destruct (Split s sep).
Qed.

(** The first segment of a string is the string up to its first
    separator. *)
Lemma Split_head_app (x rest : string) sep :
  (∀ c, c ∈ list_ascii_of_string x → c ≠ sep) →
  hd "" (Split (x +:+ String sep rest) sep) = x.
Proof.
  induction x as [|c x IH]; intros Hx; simpl.
  - by rewrite Ascii.eqb_refl.
  - assert (Ascii.eqb c sep = false) as ->.
    { apply Ascii.eqb_neq, Hx. simpl. by left. }
    specialize (IH (λ c' Hc', Hx c' ltac:(simpl; by right))).
    pose proof (Split_nonempty (x +:+ String sep rest) sep) as Hne.
    destruct (Split (x +:+ String sep rest) sep) as [|seg segs]; [done|].
    simpl in *. by rewrite IH.
Qed.

(** A marker [X_prov] is filed under [X] when [X] has no underscore. *)
Lemma marker_key_no_underscore (x : string) :
  (∀ c, c ∈ list_ascii_of_string x → c ≠ underscore) →
  hd "" (Split (x +:+ "_prov") underscore) = x.
Proof. apply (Split_head_app x "prov" underscore). Qed.

(** C7. The marker [a_b_prov] with value [y_z_], followed by the write
    of [a_b]: the dependency list [y, z] is filed under [a], the first
    underscore-delimited segment of the marker key, and not under [a_b];
    the entry of [a_b] receives the empty list. *)
Theorem marker_with_underscore_misfiled (occ : bool) Serialize :
  hd "" (Split "a_b_prov" underscore) = "a"
  ∧ depsOf [KVWrite.mk "a_b_prov" false (Sample.b "y_z_");
            KVWrite.mk "a_b" false (Sample.b "v")] !! "a"
    = Some (Some ["y"; "z"])
  ∧ depsOf [KVWrite.mk "a_b_prov" false (Sample.b "y_z_");
            KVWrite.mk "a_b" false (Sample.b "v")] !! "a_b"
    = None
  ∧ (applyTxRwset true occ Serialize Sample.rwProvUnderscore ∅).1
      !! CompositeKey "n" "" "a_b"
    = Some (KeyOps upsertVal (Sample.b "v") None (Some []) MaxUint64).
Proof.
  split; [reflexivity|].
  split; [vm_compute; reflexivity|].
  split; [vm_compute; reflexivity|].
  vm_compute; reflexivity.
Qed.

(** C8, as stated, fails: with the provenance extension on, a metadata
    write of [x_prov] on a key that the database holds, and a hashed write
    whose key hash ends in [_prov], both stay in the returned map. *)
Lemma prov_suffix_in_output :
  ∃ result,
    outcome (prepareTxOps true false Sample.serializeOk Sample.order
               Sample.rwProvSide None Sample.noStaging Sample.fullDB) = Ok result
    ∧ result !! CompositeKey "n" "" "x_prov"
      = Some (KeyOps metadataDelete (Sample.b "v0") None None 0)
    ∧ result !! CompositeKey "n" "c" "h_prov"
      = Some (KeyOps upsertVal (Sample.b "vh") None None 0)
    ∧ HasSuffix "x_prov" "_prov" = true
    ∧ HasSuffix "h_prov" "_prov" = true.
Proof.
  assert (match outcome (prepareTxOps true false Sample.serializeOk Sample.order
                           Sample.rwProvSide None Sample.noStaging Sample.fullDB) with
          | Ok m => m !! CompositeKey "n" "" "x_prov"
          | Err _ => None
          end = Some (KeyOps metadataDelete (Sample.b "v0") None None 0)) as Hx
    by (vm_compute; reflexivity).
  assert (match outcome (prepareTxOps true false Sample.serializeOk Sample.order
                           Sample.rwProvSide None Sample.noStaging Sample.fullDB) with
          | Ok m => m !! CompositeKey "n" "c" "h_prov"
          | Err _ => None
          end = Some (KeyOps upsertVal (Sample.b "vh") None None 0)) as Hh
    by (vm_compute; reflexivity).
  destruct (outcome (prepareTxOps true false Sample.serializeOk Sample.order
                       Sample.rwProvSide None Sample.noStaging Sample.fullDB))
    as [result|err]; [|discriminate Hx].
  exists result. split; [reflexivity|]. split; [exact Hx|]. split; [exact Hh|].
  split; reflexivity.
Qed.

(** C8, amended.  With the provenance extension on, a key of the
    returned map that ends in [_prov] is the key of a public metadata
    write, of a hashed write or of a hashed metadata write of the
    transaction: the public value writes contribute none. *)
Theorem prov_keys_only_from_side_writes occ Serialize order rwset txht pu db result ck :
  outcome (prepareTxOps true occ Serialize order rwset txht pu db) = Ok result →
  is_Some (result !! ck) →
  HasSuffix (ck_key ck) "_prov" = true →
  ck ∈ sideKeys rwset.
Proof.
  unfold prepareTxOps. intros Hout Hck Hsuf.
  destruct (applyTxRwset true occ Serialize rwset ∅) as [txops e] eqn:Happly.
  destruct (mergeKeys pu db (order txops) txops) as [t r] eqn:Hrun.
  unfold outcome in Hout. simpl in Hout. subst r.
  apply (mergeKeys_dom _ _ _ _ _ _ _ Hrun) in Hck.
  assert (txops = (applyTxRwset true occ Serialize rwset ∅).1) as -> by by rewrite Happly.
  apply applyTxRwset_lineage_dom in Hck as [Hno|[Hside|Hempty]]; [congruence|done|].
  rewrite lookup_empty in Hempty. by destruct Hempty.
Qed.

(** The hashed write of the sample transaction. *)
Lemma prov_keys_only_from_side_writes_witness :
  CompositeKey "n" "c" "h_prov" ∈ sideKeys Sample.rwProvSide.
Proof.
  assert (match outcome (prepareTxOps true false Sample.serializeOk Sample.order
                           Sample.rwProvSide None Sample.noStaging Sample.fullDB) with
          | Ok m => m !! CompositeKey "n" "c" "h_prov"
          | Err _ => None
          end = Some (KeyOps upsertVal (Sample.b "vh") None None 0)) as Hh
    by (vm_compute; reflexivity).
  destruct (outcome (prepareTxOps true false Sample.serializeOk Sample.order
                       Sample.rwProvSide None Sample.noStaging Sample.fullDB))
    as [result|err] eqn:Hout; [|discriminate Hh].
  exact (prov_keys_only_from_side_writes false Sample.serializeOk Sample.order
           Sample.rwProvSide None Sample.noStaging Sample.fullDB result
           (CompositeKey "n" "c" "h_prov") Hout (mk_is_Some _ _ Hh) eq_refl).
Defined.

(** ** Dependencies and snapshots *)

(** A loop whose steps leave a field of every cell alone leaves it alone. *)
Lemma fold_left_field {X A} (step : txOps → X → txOps) (f : keyOps → A) :
  (∀ m x k, f (entry (step m x) k) = f (entry m k)) →
  ∀ l (m : txOps) k, f (entry (fold_left step l m) k) = f (entry m k).
Proof.
  intros Hstep l. induction l as [|x l IH]; intros m k; [done|].
  simpl. by rewrite IH.
Qed.

(** A loop whose steps keep a property of the map keeps it. *)
Lemma fold_left_inv {X} (step : txOps → X → txOps) (Q : txOps → Prop) :
  (∀ m x, Q m → Q (step m x)) →
  ∀ l (m : txOps), Q m → Q (fold_left step l m).
Proof.
  intros Hkeep l. induction l as [|x l IH]; intros m Hm; [done|].
  simpl. by apply IH, Hkeep.
Qed.

(** A loop whose steps keep a property of the map, and one of whose
    steps establishes it, establishes it. *)
Lemma fold_left_establish {X} (step : txOps → X → txOps) (P : X → Prop)
    (Q : txOps → Prop) :
  (∀ m x, Q m → Q (step m x)) →
  (∀ m x, P x → Q (step m x)) →
  ∀ l (m : txOps) x, x ∈ l → P x → Q (fold_left step l m).
Proof.
  intros Hkeep Hset l. induction l as [|y l IH]; intros m x Hx HP.
  - by apply not_elem_of_nil in Hx.
  - simpl. apply elem_of_cons in Hx as [->|Hx]; [|by eapply IH].
    by apply fold_left_inv, Hset.
Qed.

(** The dependency-free steps touch neither [deps] nor [depSnapshot]. *)
Lemma applyKVWrite_deps ns coll w (m : txOps) k :
  deps (entry (applyKVWrite ns coll w m) k) = deps (entry m k)
  ∧ depSnapshot (entry (applyKVWrite ns coll w m) k) = depSnapshot (entry m k).
Proof.
  unfold applyKVWrite.
  destruct (KVWrite.IsDelete w);
    rewrite ?txops_delete_eq, ?txops_upsert_eq, entry_update;
    case_decide; by subst.
Qed.

Lemma applyMetadata_deps Serialize ns coll mw (m : txOps) k :
  deps (entry (applyMetadata Serialize ns coll mw m).1 k) = deps (entry m k)
  ∧ depSnapshot (entry (applyMetadata Serialize ns coll mw m).1 k)
    = depSnapshot (entry m k).
Proof.
  unfold applyMetadata. destruct (KVMetadataWrite.Entries mw) as [es|]; simpl.
  - destruct (Serialize (Some es)); simpl; [|done].
    rewrite txops_metadataUpdate_eq, entry_update. case_decide; by subst.
  - rewrite txops_metadataDelete_eq, entry_update. case_decide; by subst.
Qed.

Lemma applyCollHashedRwSet_deps Serialize ns (m : txOps) c k :
  deps (entry (applyCollHashedRwSet Serialize ns m c) k) = deps (entry m k)
  ∧ depSnapshot (entry (applyCollHashedRwSet Serialize ns m c) k)
    = depSnapshot (entry m k).
Proof.
  unfold applyCollHashedRwSet. split.
  - rewrite (fold_left_field _ deps); [|intros; apply applyMetadata_deps].
    apply (fold_left_field _ deps). intros. apply applyKVWrite_deps.
  - rewrite (fold_left_field _ depSnapshot); [|intros; apply applyMetadata_deps].
    apply (fold_left_field _ depSnapshot). intros. apply applyKVWrite_deps.
Qed.

(** What the metadata writes and the collections of a namespace leave of
    the annotations made by its public writes. *)
Lemma side_writes_deps Serialize ns mws colls (m : txOps) k :
  deps (entry (fold_left (applyCollHashedRwSet Serialize ns) colls
                 (fold_left (λ txops mw, (applyMetadata Serialize ns "" mw txops).1)
                    mws m)) k) = deps (entry m k)
  ∧ depSnapshot (entry (fold_left (applyCollHashedRwSet Serialize ns) colls
                   (fold_left (λ txops mw, (applyMetadata Serialize ns "" mw txops).1)
                      mws m)) k) = depSnapshot (entry m k).
Proof.
  split.
  - rewrite (fold_left_field _ deps); [|intros; apply applyCollHashedRwSet_deps].
    apply (fold_left_field _ deps). intros. apply applyMetadata_deps.
  - rewrite (fold_left_field _ depSnapshot); [|intros; apply applyCollHashedRwSet_deps].
    apply (fold_left_field _ depSnapshot). intros. apply applyMetadata_deps.
Qed.

Lemma side_writes_mono Serialize ns mws colls (m : txOps) k :
  is_Some (m !! k) →
  is_Some (fold_left (applyCollHashedRwSet Serialize ns) colls
             (fold_left (λ txops mw, (applyMetadata Serialize ns "" mw txops).1)
                mws m) !! k).
Proof.
  intros Hk.
  apply fold_left_mono; [intros; by apply applyCollHashedRwSet_mono|].
  apply fold_left_mono; [intros; by apply applyMetadata_mono|done].
Qed.

(** With the extension off, the projection leaves [deps] and
    [depSnapshot] of every cell as they were. *)
Lemma applyNsRwSet_plain_deps occ Serialize (m : txOps) n k :
  deps (entry (applyNsRwSet false occ Serialize m n) k) = deps (entry m k)
  ∧ depSnapshot (entry (applyNsRwSet false occ Serialize m n) k) = depSnapshot (entry m k).
Proof.
  unfold applyNsRwSet.
  destruct (side_writes_deps Serialize (NsRwSet.NameSpace n)
              (KVRWSet.MetadataWrites (NsRwSet.KvRwSet n)) (NsRwSet.CollHashedRwSets n)
              (fold_left (λ txops kvWrite, applyKVWrite (NsRwSet.NameSpace n) "" kvWrite txops)
                 (KVRWSet.Writes (NsRwSet.KvRwSet n)) m) k) as [-> ->].
  split.
  - apply (fold_left_field _ deps). intros. apply applyKVWrite_deps.
  - apply (fold_left_field _ depSnapshot). intros. apply applyKVWrite_deps.
Qed.

Lemma applyTxRwset_plain_deps occ Serialize rwset k keyop :
  (applyTxRwset false occ Serialize rwset ∅).1 !! k = Some keyop →
  deps keyop = None ∧ depSnapshot keyop = 0.
Proof.
  intros Hk%entry_lookup. subst keyop. unfold applyTxRwset. simpl. split.
  - rewrite (fold_left_field _ deps); [by rewrite entry_empty|].
    intros. apply applyNsRwSet_plain_deps.
  - rewrite (fold_left_field _ depSnapshot); [by rewrite entry_empty|].
    intros. apply applyNsRwSet_plain_deps.
Qed.

(** The merge stage never writes [deps] or [depSnapshot]. *)
Lemma mergeKey_deps pu db ck (m m' : txOps) t k keyop' :
  mergeKey pu db ck m = (t, Ok m') → m' !! k = Some keyop' →
  ∃ keyop, m !! k = Some keyop
           ∧ deps keyop' = deps keyop ∧ depSnapshot keyop' = depSnapshot keyop.
Proof.
  intros Hrun Hk. destruct (decide (k = ck)) as [->|Hne].
  2:{ rewrite (mergeKey_frame _ _ _ _ _ _ _ Hrun Hne) in Hk. by exists keyop'. }
  destruct (m !! ck) as [keyop|] eqn:Hck.
  2:{ unfold mergeKey in Hrun. rewrite Hck in Hrun.
      apply mret_Ok_inv in Hrun as [_ <-]. congruence. }
  exists keyop. split; [done|].
  pose proof (mergeKey_cell _ _ _ _ _ _ _ Hck Hrun) as Hcell.
  unfold merged_cell in Hcell. rewrite Hk in Hcell.
  destruct (isDelete keyop || isUpsertAndMetadataUpdate keyop); [by injection Hcell as ->|].
  destruct (isOnlyUpsert keyop).
  - destruct Hcell as (md & _ & [= ->]). done.
  - destruct Hcell as ([vv|] & _ & Hres); simpl in Hres; [|done].
    injection Hres as ->. done.
Qed.

Lemma mergeKeys_deps pu db keys (m m' : txOps) t k keyop' :
  mergeKeys pu db keys m = (t, Ok m') → m' !! k = Some keyop' →
  ∃ keyop, m !! k = Some keyop
           ∧ deps keyop' = deps keyop ∧ depSnapshot keyop' = depSnapshot keyop.
Proof.
  revert m t. induction keys as [|ck keys IH]; intros m t Hrun Hk.
  - apply mret_Ok_inv in Hrun as [_ <-]. by exists keyop'.
  - rewrite mergeKeys_cons in Hrun.
    apply bind_Ok_inv in Hrun as (t1 & m1 & t2 & Hhead & Htail & _).
    destruct (IH _ _ Htail Hk) as (keyop1 & Hk1 & -> & ->).
    by eapply mergeKey_deps.
Qed.

(** With the extension on, a real write annotates its cell, and no later
    write of the namespace undoes it. *)
Lemma applyRealWrite_keeps ns depsMap s (m : txOps) w k :
  is_Some (m !! k) ∧ depSnapshot (entry m k) = s
    ∧ deps (entry m k) = keyDepsOf depsMap (ck_key k) →
  is_Some (applyRealWrite ns depsMap s m w !! k)
  ∧ depSnapshot (entry (applyRealWrite ns depsMap s m w) k) = s
  ∧ deps (entry (applyRealWrite ns depsMap s m w) k) = keyDepsOf depsMap (ck_key k).
Proof.
  intros (Hk & Hs & Hd). split; [apply applyRealWrite_dom; by right|].
  unfold applyRealWrite, applyKVWriteWithDep.
  destruct (HasSuffix (KVWrite.Key w) "_prov"); [done|].
  destruct (KVWrite.IsDelete w);
    rewrite ?txops_deleteWithDep_eq, ?txops_upsertWithDep_eq, entry_update;
    case_decide; by subst.
Qed.

Lemma applyRealWrite_sets ns depsMap s (m : txOps) w :
  HasSuffix (KVWrite.Key w) "_prov" = false →
  is_Some (applyRealWrite ns depsMap s m w !! CompositeKey ns "" (KVWrite.Key w))
  ∧ depSnapshot (entry (applyRealWrite ns depsMap s m w)
                   (CompositeKey ns "" (KVWrite.Key w))) = s
  ∧ deps (entry (applyRealWrite ns depsMap s m w) (CompositeKey ns "" (KVWrite.Key w)))
    = keyDepsOf depsMap (KVWrite.Key w).
Proof.
  intros Hsuf. split; [apply applyRealWrite_dom; by left|].
  unfold applyRealWrite, applyKVWriteWithDep. rewrite Hsuf.
  destruct (KVWrite.IsDelete w);
    rewrite ?txops_deleteWithDep_eq, ?txops_upsertWithDep_eq, entry_update;
    by rewrite decide_True.
Qed.

(** The cell of a real write after its namespace has been projected. *)
Lemma applyNsRwSet_lineage_annotation occ Serialize (m : txOps) n w :
  w ∈ KVRWSet.Writes (NsRwSet.KvRwSet n) →
  HasSuffix (KVWrite.Key w) "_prov" = false →
  ∃ keyop,
    applyNsRwSet true occ Serialize m n !! CompositeKey (NsRwSet.NameSpace n) "" (KVWrite.Key w)
      = Some keyop
    ∧ depSnapshot keyop = depSnapshotOf occ (KVRWSet.Reads (NsRwSet.KvRwSet n))
    ∧ deps keyop = keyDepsOf (depsOf (KVRWSet.Writes (NsRwSet.KvRwSet n))) (KVWrite.Key w).
Proof.
  intros Hw Hsuf.
  set (k := CompositeKey (NsRwSet.NameSpace n) "" (KVWrite.Key w)).
  set (s := depSnapshotOf occ (KVRWSet.Reads (NsRwSet.KvRwSet n))).
  set (dm := depsOf (KVRWSet.Writes (NsRwSet.KvRwSet n))).
  pose proof (fold_left_establish (applyRealWrite (NsRwSet.NameSpace n) dm s)
                (λ x, HasSuffix (KVWrite.Key x) "_prov" = false
                      ∧ KVWrite.Key x = KVWrite.Key w)
                (λ m', is_Some (m' !! k) ∧ depSnapshot (entry m' k) = s
                       ∧ deps (entry m' k) = keyDepsOf dm (ck_key k))) as Hfold.
  specialize (Hfold (λ m' x, applyRealWrite_keeps _ dm s m' x k)).
  assert (∀ (m' : txOps) x,
            HasSuffix (KVWrite.Key x) "_prov" = false ∧ KVWrite.Key x = KVWrite.Key w →
            is_Some (applyRealWrite (NsRwSet.NameSpace n) dm s m' x !! k)
            ∧ depSnapshot (entry (applyRealWrite (NsRwSet.NameSpace n) dm s m' x) k) = s
            ∧ deps (entry (applyRealWrite (NsRwSet.NameSpace n) dm s m' x) k)
              = keyDepsOf dm (ck_key k)) as Hset.
  { intros m' x [Hx Hkey]. unfold k. simpl. rewrite <- Hkey.
    by apply applyRealWrite_sets. }
  destruct (Hfold Hset (KVRWSet.Writes (NsRwSet.KvRwSet n)) m w Hw (conj Hsuf eq_refl))
    as (Hk & Hs & Hd).
  unfold applyNsRwSet. fold s dm.
  set (m1 := fold_left (applyRealWrite (NsRwSet.NameSpace n) dm s)
               (KVRWSet.Writes (NsRwSet.KvRwSet n)) m) in *.
  pose proof (side_writes_mono Serialize (NsRwSet.NameSpace n)
                (KVRWSet.MetadataWrites (NsRwSet.KvRwSet n))
                (NsRwSet.CollHashedRwSets n) m1 k Hk) as [keyop Hkeyop].
  destruct (side_writes_deps Serialize (NsRwSet.NameSpace n)
              (KVRWSet.MetadataWrites (NsRwSet.KvRwSet n))
              (NsRwSet.CollHashedRwSets n) m1 k) as [Hd' Hs'].
  exists keyop. split; [exact Hkeyop|].
  rewrite (entry_lookup _ _ _ Hkeyop) in Hd', Hs'. by rewrite Hd', Hs', Hs, Hd.
Qed.

Lemma depSnapshotOf_no_occ reads : depSnapshotOf false reads = MaxUint64.
Proof.
  unfold depSnapshotOf. generalize MaxUint64.
  induction reads as [|r reads IH]; intros s; [done|]. apply IH.
Qed.

Lemma depSnapshotOf_last reads r :
  depSnapshotOf true (reads ++ [r])
  = match KVRead.Version r with
    | None => MaxUint64
    | Some v => Version.BlockNum v
    end.
Proof. unfold depSnapshotOf. by rewrite fold_left_app. Qed.

(** C9. The snapshot of a namespace is [MaxUint64] when [IsOCC()] is
    false, whatever the reads, and when there is no read; when [IsOCC()]
    is true it is determined by the last read: its block number, or
    [MaxUint64] if it carries no version.  With the extension on, every
    real write ends up with the snapshot derived from the reads of its own
    namespace.  With the extension off, the writes are applied by
    [applyKVWrite], and every entry, after the projection and after the
    merge, has nil [deps] and [depSnapshot] zero. *)
Theorem depSnapshot_derivation :
  (∀ reads, depSnapshotOf false reads = MaxUint64)
  ∧ (∀ occ, depSnapshotOf occ [] = MaxUint64)
  ∧ (∀ reads r,
       depSnapshotOf true (reads ++ [r])
       = match KVRead.Version r with
         | None => MaxUint64
         | Some v => Version.BlockNum v
         end)
  ∧ (∀ occ Serialize (m : txOps) n w,
       w ∈ KVRWSet.Writes (NsRwSet.KvRwSet n) →
       HasSuffix (KVWrite.Key w) "_prov" = false →
       ∃ keyop,
         applyNsRwSet true occ Serialize m n
           !! CompositeKey (NsRwSet.NameSpace n) "" (KVWrite.Key w) = Some keyop
         ∧ depSnapshot keyop = depSnapshotOf occ (KVRWSet.Reads (NsRwSet.KvRwSet n)))
  ∧ (∀ occ Serialize (m : txOps) ns reads writes,
       applyNsRwSet false occ Serialize m (NsRwSet.mk ns (KVRWSet.mk reads writes []) [])
       = fold_left (λ txops kvWrite, applyKVWrite ns "" kvWrite txops) writes m)
  ∧ (∀ occ Serialize rwset k keyop,
       (applyTxRwset false occ Serialize rwset ∅).1 !! k = Some keyop →
       deps keyop = None ∧ depSnapshot keyop = 0)
  ∧ (∀ occ Serialize order rwset txht pu db result k keyop,
       outcome (prepareTxOps false occ Serialize order rwset txht pu db) = Ok result →
       result !! k = Some keyop →
       deps keyop = None ∧ depSnapshot keyop = 0).
Proof.
  split; [apply depSnapshotOf_no_occ|]. split; [done|].
  split; [apply depSnapshotOf_last|]. split.
  { intros occ Serialize m n w Hw Hsuf.
    destruct (applyNsRwSet_lineage_annotation occ Serialize m n w Hw Hsuf)
      as (keyop & Hk & Hs & _).
    by exists keyop. }
  split; [done|]. split; [apply applyTxRwset_plain_deps|].
  intros occ Serialize order rwset txht pu db result k keyop Hout Hk.
  unfold prepareTxOps in Hout.
  destruct (applyTxRwset false occ Serialize rwset ∅) as [txops e] eqn:Happly.
  destruct (mergeKeys pu db (order txops) txops) as [t r] eqn:Hrun.
  unfold outcome in Hout. simpl in Hout. subst r.
  destruct (mergeKeys_deps _ _ _ _ _ _ _ _ Hrun Hk) as (keyop0 & Hk0 & -> & ->).
  apply (applyTxRwset_plain_deps occ Serialize rwset k). by rewrite Happly.
Qed.

(** S6: the write of [x] after a read of [x] at block 7, under OCC. *)
Lemma depSnapshot_derivation_witness :
  ∃ keyop,
    applyNsRwSet true true Sample.serializeOk ∅ Sample.nsProv !! CompositeKey "n" "" "x"
      = Some keyop
    ∧ depSnapshot keyop = 7.
Proof.
  apply (proj1 (proj2 (proj2 (proj2 depSnapshot_derivation))) true Sample.serializeOk ∅
           Sample.nsProv (KVWrite.mk "x" false (Sample.b "v"))).
  - right. left.
  - vm_compute; reflexivity.
Defined.

(** ** Flags stay in range *)

Lemma flags_in_range_insert k x (m : txOps) :
  flags_in_range m → is_uint8 (flag x) → flags_in_range (<[k := x]> m).
Proof. intros Hm Hx k'. rewrite entry_update. case_decide; [done|apply Hm]. Qed.

Lemma applyKVWrite_flags ns coll w (m : txOps) :
  flags_in_range m → flags_in_range (applyKVWrite ns coll w m).
Proof.
  intros Hm. unfold applyKVWrite.
  destruct (KVWrite.IsDelete w); rewrite ?txops_delete_eq, ?txops_upsert_eq;
    apply flags_in_range_insert; try done; apply uint8_range.
Qed.

Lemma applyKVWriteWithDep_flags ns coll w ds s (m : txOps) :
  flags_in_range m → flags_in_range (applyKVWriteWithDep ns coll w ds s m).
Proof.
  intros Hm. unfold applyKVWriteWithDep.
  destruct (KVWrite.IsDelete w);
    rewrite ?txops_deleteWithDep_eq, ?txops_upsertWithDep_eq;
    apply flags_in_range_insert; try done; apply uint8_range.
Qed.

Lemma applyMetadata_flags Serialize ns coll mw (m : txOps) :
  flags_in_range m → flags_in_range (applyMetadata Serialize ns coll mw m).1.
Proof.
  intros Hm. unfold applyMetadata.
  destruct (KVMetadataWrite.Entries mw) as [es|]; simpl.
  - destruct (Serialize (Some es)); simpl; [|done].
    rewrite txops_metadataUpdate_eq.
    apply flags_in_range_insert; [done|apply uint8_range].
  - rewrite txops_metadataDelete_eq.
    apply flags_in_range_insert; [done|apply uint8_range].
Qed.

(** Every flag of a projected map is a [uint8]. *)
Lemma applyTxRwset_flags lineage occ Serialize rwset :
  flags_in_range (applyTxRwset lineage occ Serialize rwset ∅).1.
Proof.
  unfold applyTxRwset. simpl. apply fold_left_inv.
  2:{ intros k. rewrite entry_empty. by vm_compute. }
  intros m n Hm. unfold applyNsRwSet.
  apply fold_left_inv.
  { intros m0 c Hm0. unfold applyCollHashedRwSet.
    apply fold_left_inv; [intros; by apply applyMetadata_flags|].
    apply fold_left_inv; [intros; by apply applyKVWrite_flags|done]. }
  apply fold_left_inv; [intros; by apply applyMetadata_flags|].
  destruct lineage.
  - apply fold_left_inv; [|done].
    intros m0 w Hm0. unfold applyRealWrite.
    destruct (HasSuffix (KVWrite.Key w) "_prov"); [done|].
    by apply applyKVWriteWithDep_flags.
  - apply fold_left_inv; [intros; by apply applyKVWrite_flags|done].
Qed.

(** ** Marker keys with the extension off *)

Lemma applyNsRwSet_plain_mono occ Serialize (m : txOps) n k :
  is_Some (m !! k) → is_Some (applyNsRwSet false occ Serialize m n !! k).
Proof.
  intros Hk. unfold applyNsRwSet. apply side_writes_mono.
  apply fold_left_mono; [|done].
  intros m0 x k0 H0. apply applyKVWrite_dom. by right.
Qed.

Lemma applyNsRwSet_plain_hit occ Serialize (m : txOps) n w :
  w ∈ KVRWSet.Writes (NsRwSet.KvRwSet n) →
  is_Some (applyNsRwSet false occ Serialize m n
             !! CompositeKey (NsRwSet.NameSpace n) "" (KVWrite.Key w)).
Proof.
  intros Hw. unfold applyNsRwSet. apply side_writes_mono.
  apply (fold_left_hit
           (λ txops kvWrite, applyKVWrite (NsRwSet.NameSpace n) "" kvWrite txops)
           (λ x, CompositeKey (NsRwSet.NameSpace n) "" (KVWrite.Key x))); [| |done].
  - intros m0 x k0 H0. apply applyKVWrite_dom. by right.
  - intros m0 x. apply applyKVWrite_dom. by left.
Qed.

(** C10. With the extension off, every public write of the transaction
    has its key bound in the projected map, whatever the key ends in: the
    writes of a namespace are applied by [applyKVWrite], one by one, with
    no test on the key.  A transaction that consists of one write, of a
    marker key or of any other, comes out of [prepareTxOps] with that key
    bound to an entry flagged [keyDelete] for a delete, and to an entry
    flagged [upsertVal] that holds the written value otherwise. *)
Theorem marker_keys_kept_without_lineage :
  (∀ occ Serialize rwset n w,
     n ∈ TxRwSet.NsRwSets rwset →
     w ∈ KVRWSet.Writes (NsRwSet.KvRwSet n) →
     is_Some ((applyTxRwset false occ Serialize rwset ∅).1
                !! CompositeKey (NsRwSet.NameSpace n) "" (KVWrite.Key w)))
  ∧ (∀ occ Serialize (m : txOps) ns reads writes,
       applyNsRwSet false occ Serialize m (NsRwSet.mk ns (KVRWSet.mk reads writes []) [])
       = fold_left (λ txops kvWrite,
                      if KVWrite.IsDelete kvWrite then
                        txops_delete (CompositeKey ns "" (KVWrite.Key kvWrite)) txops
                      else
                        txops_upsert (CompositeKey ns "" (KVWrite.Key kvWrite))
                          (KVWrite.Value kvWrite) txops)
           writes m)
  ∧ (∀ occ Serialize order txht pu db ns w result,
       (∀ m : txOps, order m ≡ₚ (map_to_list m).*1) →
       outcome (prepareTxOps false occ Serialize order
                  (TxRwSet.mk [NsRwSet.mk ns (KVRWSet.mk [] [w] []) []]) txht pu db)
         = Ok result →
       ∃ keyop,
         result !! CompositeKey ns "" (KVWrite.Key w) = Some keyop
         ∧ flag keyop = (if KVWrite.IsDelete w then keyDelete else upsertVal)
         ∧ value keyop = (if KVWrite.IsDelete w then None else KVWrite.Value w)).
Proof.
  split; [|split; [done|]].
  - intros occ Serialize rwset n w Hn Hw. unfold applyTxRwset. simpl.
    apply (fold_left_establish (applyNsRwSet false occ Serialize) (λ n', n' = n)
             (λ m, is_Some (m !! CompositeKey (NsRwSet.NameSpace n) "" (KVWrite.Key w))))
      with (x := n); [| |done|done].
    + intros m x. apply applyNsRwSet_plain_mono.
    + intros m x ->. by apply applyNsRwSet_plain_hit.
  - intros occ Serialize order txht pu db ns w result Horder Hout.
    set (k := CompositeKey ns "" (KVWrite.Key w)).
    assert (∃ keyop,
              (applyTxRwset false occ Serialize
                 (TxRwSet.mk [NsRwSet.mk ns (KVRWSet.mk [] [w] []) []]) ∅).1 !! k
              = Some keyop
              ∧ flag keyop = (if KVWrite.IsDelete w then keyDelete else upsertVal)
              ∧ value keyop = (if KVWrite.IsDelete w then None else KVWrite.Value w)
              ∧ metadata keyop = None ∧ deps keyop = None ∧ depSnapshot keyop = 0)
      as (keyop & Hck & Hflag & Hval & Hmd & Hdeps & Hsnap).
    { unfold applyTxRwset, applyNsRwSet, applyKVWrite. simpl. fold k.
      destruct (KVWrite.IsDelete w).
      - rewrite txops_delete_eq, lookup_insert_eq, entry_empty. by eexists.
      - rewrite txops_upsert_eq, lookup_insert_eq, entry_empty. by eexists. }
    pose proof (prepareTxOps_cell false occ Serialize order Horder _ txht pu db k
                  keyop result Hck Hout) as Hcell.
    unfold merged_cell, isDelete, isUpsertAndMetadataUpdate, isOnlyUpsert in Hcell.
    rewrite Hflag in Hcell. destruct (KVWrite.IsDelete w).
    + exists keyop. by rewrite Hcell.
    + simpl in Hcell. destruct Hcell as (md & _ & ->). by eexists.
Qed.

(** The delete of a marker key, alone in its transaction. *)
Lemma marker_keys_kept_without_lineage_witness :
  ∃ result,
    outcome (prepareTxOps false false Sample.serializeOk Sample.order
               Sample.rwMarkerOnly None Sample.noStaging Sample.emptyDB) = Ok result
    ∧ ∃ keyop,
        result !! CompositeKey "n" "" "x_prov" = Some keyop
        ∧ flag keyop = keyDelete
        ∧ value keyop = None.
Proof.
  assert (match outcome (prepareTxOps false false Sample.serializeOk Sample.order
                           Sample.rwMarkerOnly None Sample.noStaging Sample.emptyDB) with
          | Ok _ => true
          | Err _ => false
          end = true) as Hok by (vm_compute; reflexivity).
  destruct (outcome (prepareTxOps false false Sample.serializeOk Sample.order
                       Sample.rwMarkerOnly None Sample.noStaging Sample.emptyDB))
    as [result|err] eqn:Hout; [|discriminate Hok].
  exists result. split; [reflexivity|].
  exact (proj2 (proj2 marker_keys_kept_without_lineage) false Sample.serializeOk
           Sample.order None Sample.noStaging Sample.emptyDB "n"
           (KVWrite.mk "x_prov" true None) result sample_order_perm Hout).
Defined.

(** ** The sample transactions, run *)

(** S2: upsert plus metadata; the entry is fully specified and nothing is
    looked up. *)
Example run_upsert_metadata :
  trace (prepareTxOps false false Sample.serializeOk Sample.order
           Sample.rwUpsertMetadata None Sample.noStaging Sample.emptyDB) = []
  ∧ match outcome (prepareTxOps false false Sample.serializeOk Sample.order
                     Sample.rwUpsertMetadata None Sample.noStaging Sample.emptyDB) with
    | Ok m => m !! Sample.k
    | Err _ => None
    end = Some (KeyOps 3 (Sample.b "v1") (Sample.b "M2") None 0).
Proof. split; vm_compute; reflexivity. Qed.

(** S4: a metadata write on a key that exists nowhere leaves no entry. *)
Example run_metadata_missing_key :
  trace (prepareTxOps false false Sample.serializeOk Sample.order
           Sample.rwMetadata None Sample.noStaging Sample.emptyDB)
    = [PublicUpdates_Get "n" "k"; DB_GetState "n" "k"]
  ∧ match outcome (prepareTxOps false false Sample.serializeOk Sample.order
                     Sample.rwMetadata None Sample.noStaging Sample.emptyDB) with
    | Ok m => Some (map_to_list m)
    | Err _ => None
    end = Some [].
Proof. split; vm_compute; reflexivity. Qed.

(** S6: a marker and the write it annotates, under OCC. *)
Example run_provenance :
  match outcome (prepareTxOps true true Sample.serializeOk Sample.order
                   Sample.rwProv None Sample.noStaging Sample.emptyDB) with
  | Ok m => Some (map_to_list m)
  | Err _ => None
  end = Some [(CompositeKey "n" "" "x",
               KeyOps upsertVal (Sample.b "v") None (Some ["y"; "z"]) 7)].
Proof. vm_compute; reflexivity. Qed.

(** Two upserts of one key in a transaction: the entry is merged as a
    metadata-only change, and vanishes when the key has no prior state. *)
Example run_upsert_twice :
  (applyTxRwset false false Sample.serializeOk Sample.rwUpsertTwice ∅).1 !! Sample.k
    = Some (KeyOps metadataUpdate (Sample.b "v2") None None 0)
  ∧ match outcome (prepareTxOps false false Sample.serializeOk Sample.order
                     Sample.rwUpsertTwice None Sample.noStaging Sample.emptyDB) with
    | Ok m => Some (map_to_list m)
    | Err _ => None
    end = Some [].
Proof. split; vm_compute; reflexivity. Qed.

(** * Further properties *)

(** ** The merge stage: errors *)

Section MergeErrors.

Variable precedingUpdates : publicAndHashUpdates.
Variable db : DB.

Lemma bind_Err_inv {A B} (m : M A) (f : A → M B) t err :
  m ≫= f = (t, Err err) →
  m = (t, Err err)
  ∨ ∃ t1 a t2, m = (t1, Ok a) ∧ f a = (t2, Err err) ∧ t = t1 ++ t2.
Proof.
  rewrite bind_unfold. destruct m as [t1 [a|err1]]; [|intros [= <- <-]; by left].
  destruct (f a) as [t2 r] eqn:Hf. intros [= <- ->]. right. by exists t1, a, t2.
Qed.

(** The body of the loop fails exactly when its lookup does. *)
Lemma mergeKey_Err ck (m : txOps) t err :
  mergeKey precedingUpdates db ck m = (t, Err err) →
  ∃ keyop, m !! ck = Some keyop ∧ resolver_fails precedingUpdates db ck keyop err.
Proof.
  unfold mergeKey, resolver_fails. intros Hrun.
  destruct (m !! ck) as [keyop|]; [|done]. exists keyop. split; [done|].
  destruct (isDelete keyop || isUpsertAndMetadataUpdate keyop); [done|].
  split; [done|]. unfold outcome. destruct (isOnlyUpsert keyop).
  - apply bind_Err_inv in Hrun as [->|(t1 & a & t2 & _ & Hret & _)]; done.
  - apply bind_Err_inv in Hrun as [->|(t1 & a & t2 & _ & Hret & _)]; [done|].
    by destruct a.
Qed.

Lemma mergeKey_fails ck (m : txOps) keyop err :
  m !! ck = Some keyop → resolver_fails precedingUpdates db ck keyop err →
  outcome (mergeKey precedingUpdates db ck m) = Err err.
Proof.
  unfold mergeKey, resolver_fails, outcome. intros -> [-> Hfail].
  destruct (isOnlyUpsert keyop); rewrite bind_unfold.
  - destruct (retrieveLatestMetadata _ _ _ _ _) as [t [a|e]]; simpl in *; congruence.
  - destruct (retrieveLatestState _ _ _ _ _) as [t [a|e]]; simpl in *; congruence.
Qed.

(** An error of the loop is the error of the lookup of one of the
    visited keys, for the cell the loop started with. *)
Lemma mergeKeys_Err keys (m : txOps) t err :
  NoDup keys → mergeKeys precedingUpdates db keys m = (t, Err err) →
  ∃ ck keyop, ck ∈ keys ∧ m !! ck = Some keyop
              ∧ resolver_fails precedingUpdates db ck keyop err.
Proof.
  revert m t. induction keys as [|k keys IH]; intros m t Hnd Hrun; [done|].
  apply NoDup_cons in Hnd as [Hfresh Hnd].
  rewrite mergeKeys_cons in Hrun.
  apply bind_Err_inv in Hrun as [Hhead|(t1 & m1 & t2 & Hhead & Htail & _)].
  - apply mergeKey_Err in Hhead as (keyop & Hk & Hfail).
    exists k, keyop. split; [by left|done].
  - destruct (IH _ _ Hnd Htail) as (ck & keyop & Hin & Hck & Hfail).
    exists ck, keyop. split; [by right|]. split; [|done].
    rewrite <- Hck. symmetry. eapply mergeKey_frame; [done|]. by intros ->.
Qed.

(** A visited key whose lookup fails makes the loop fail. *)
Lemma mergeKeys_fails keys (m : txOps) ck keyop err :
  NoDup keys → ck ∈ keys → m !! ck = Some keyop →
  resolver_fails precedingUpdates db ck keyop err →
  ∃ err', outcome (mergeKeys precedingUpdates db keys m) = Err err'.
Proof.
  revert m. induction keys as [|k keys IH]; intros m Hnd Hin Hck Hfail.
  - by apply not_elem_of_nil in Hin.
  - apply NoDup_cons in Hnd as [Hfresh Hnd]. rewrite mergeKeys_cons.
    destruct (mergeKey precedingUpdates db k m) as [t1 [m1|e1]] eqn:Hhead.
    2:{ exists e1. by rewrite bind_unfold. }
    destruct (decide (ck = k)) as [->|Hne].
    { pose proof (mergeKey_fails _ _ _ _ Hck Hfail) as Hout.
      rewrite Hhead in Hout. done. }
    apply elem_of_cons in Hin as [?|Hin]; [done|].
    destruct (IH m1 Hnd Hin) as [err' Herr'].
    { by rewrite (mergeKey_frame _ _ _ _ _ _ _ Hhead Hne). }
    { done. }
    exists err'. rewrite bind_unfold. unfold outcome in *.
    destruct (mergeKeys precedingUpdates db keys m1) as [t2 r2]. done.
Qed.

End MergeErrors.

(** ** The merge stage: what it returns *)

(** The cell that one pass of the body leaves is determined by the cell
    it finds. *)
Lemma merged_cell_functional pu db ck keyop r1 r2 :
  merged_cell pu db ck keyop r1 → merged_cell pu db ck keyop r2 → r1 = r2.
Proof.
  unfold merged_cell.
  destruct (isDelete keyop || isUpsertAndMetadataUpdate keyop); [congruence|].
  destruct (isOnlyUpsert keyop).
  - intros (md1 & H1 & ->) (md2 & H2 & ->). congruence.
  - intros (v1 & H1 & ->) (v2 & H2 & ->). congruence.
Qed.

(** A cell that has a merged form has no failing lookup. *)
Lemma merged_cell_no_failure pu db ck keyop r err :
  merged_cell pu db ck keyop r → ¬ resolver_fails pu db ck keyop err.
Proof.
  unfold merged_cell, resolver_fails. intros Hcell [Hterm Hfail].
  rewrite Hterm in Hcell. destruct (isOnlyUpsert keyop).
  - destruct Hcell as (md & Hmd & _). congruence.
  - destruct Hcell as (v & Hv & _). congruence.
Qed.

(** The merged form of a cell is stable: merging it again changes
    nothing. *)
Lemma merged_cell_stable pu db ck keyop keyop' :
  merged_cell pu db ck keyop (Some keyop') → merged_cell pu db ck keyop' (Some keyop').
Proof.
  unfold merged_cell, isDelete, isUpsertAndMetadataUpdate, isOnlyUpsert.
  destruct (Z.eqb (Z.land (flag keyop) keyDelete) keyDelete
            || (if Z.eqb (Z.land (flag keyop) upsertVal) upsertVal
                then Z.eqb (Z.land (flag keyop) metadataUpdate) metadataUpdate
                     || Z.eqb (Z.land (flag keyop) metadataDelete) metadataDelete
                else false)) eqn:Hterm.
  { intros [= <-]. by rewrite Hterm. }
  destruct (Z.eqb (Z.lor (flag keyop) upsertVal) upsertVal) eqn:Honly.
  - intros (md & Hmd & [= ->]). simpl. rewrite Hterm, Honly.
    exists md. by split.
  - intros ([vv|] & Hv & Hres); [|done]. injection Hres as ->.
    simpl. rewrite Hterm, Honly. exists (Some vv). by split.
Qed.

(** The flag is out of reach of the merge stage. *)
Lemma merged_cell_flag pu db ck keyop keyop' :
  merged_cell pu db ck keyop (Some keyop') → flag keyop' = flag keyop.
Proof.
  unfold merged_cell.
  destruct (isDelete keyop || isUpsertAndMetadataUpdate keyop); [by intros [= <-]|].
  destruct (isOnlyUpsert keyop).
  - by intros (md & _ & [= ->]).
  - intros ([vv|] & _ & Hres); [|done]. by injection Hres as ->.
Qed.

Lemma mergeKey_flag pu db ck (m m' : txOps) t k keyop' :
  mergeKey pu db ck m = (t, Ok m') → m' !! k = Some keyop' →
  ∃ keyop, m !! k = Some keyop ∧ flag keyop' = flag keyop.
Proof.
  intros Hrun Hk. destruct (decide (k = ck)) as [->|Hne].
  2:{ rewrite (mergeKey_frame _ _ _ _ _ _ _ Hrun Hne) in Hk. by exists keyop'. }
  destruct (m !! ck) as [keyop|] eqn:Hck.
  2:{ unfold mergeKey in Hrun. rewrite Hck in Hrun.
      apply mret_Ok_inv in Hrun as [_ <-]. congruence. }
  exists keyop. split; [done|].
  pose proof (mergeKey_cell _ _ _ _ _ _ _ Hck Hrun) as Hcell.
  rewrite Hk in Hcell. by eapply merged_cell_flag.
Qed.

Lemma mergeKeys_flag pu db keys (m m' : txOps) t k keyop' :
  mergeKeys pu db keys m = (t, Ok m') → m' !! k = Some keyop' →
  ∃ keyop, m !! k = Some keyop ∧ flag keyop' = flag keyop.
Proof.
  revert m t. induction keys as [|ck keys IH]; intros m t Hrun Hk.
  - apply mret_Ok_inv in Hrun as [_ <-]. by exists keyop'.
  - rewrite mergeKeys_cons in Hrun.
    apply bind_Ok_inv in Hrun as (t1 & m1 & t2 & Hhead & Htail & _).
    destruct (IH _ _ Htail Hk) as (keyop1 & Hk1 & ->).
    by eapply mergeKey_flag.
Qed.

Section PrepareTxOpsMore.

Variable LineageSupported : bool.
Variable IsOCC : bool.
Variable Serialize : slice KVMetadataEntry.t → result bytes.

(** X1. An error returned by [prepareTxOps] is the error of a lookup:
    there is a projected key that is neither a delete nor fully
    specified, for which [retrieveLatestMetadata] (for an only-upsert
    entry) or [retrieveLatestState] (otherwise) fails with that error.
    Conversely a projected key with such a failing lookup makes
    [prepareTxOps] fail, in whatever order the keys are visited. *)
Theorem prepareTxOps_error_is_lookup_error range_order rwset txht pu db :
  (∀ m : txOps, range_order m ≡ₚ (map_to_list m).*1) →
  (∀ err,
     outcome (prepareTxOps LineageSupported IsOCC Serialize range_order rwset txht pu db)
       = Err err →
     ∃ ck keyop,
       (applyTxRwset LineageSupported IsOCC Serialize rwset ∅).1 !! ck = Some keyop
       ∧ resolver_fails pu db ck keyop err)
  ∧ (∀ ck keyop err,
       (applyTxRwset LineageSupported IsOCC Serialize rwset ∅).1 !! ck = Some keyop →
       resolver_fails pu db ck keyop err →
       ∃ err',
         outcome (prepareTxOps LineageSupported IsOCC Serialize range_order rwset txht pu db)
           = Err err').
Proof.
  intros Horder. rewrite prepareTxOps_unfold. split.
  - intros err Hout.
    destruct (mergeKeys pu db _ _) as [t r] eqn:Hrun.
    unfold outcome in Hout. simpl in Hout. subst r.
    apply mergeKeys_Err in Hrun as (ck & keyop & _ & Hck & Hfail);
      [|by apply range_order_NoDup].
    by exists ck, keyop.
  - intros ck keyop err Hck Hfail.
    eapply mergeKeys_fails; [by apply range_order_NoDup| |done|done].
    apply range_order_elem; [done|]. by eexists.
Qed.

(** X2. The order in which [range] visits the map does not matter for a
    successful merge: if [prepareTxOps] returns a map under one order, it
    returns the same map under every other order. *)
Theorem prepareTxOps_order_independent order1 order2 rwset txht pu db result :
  (∀ m : txOps, order1 m ≡ₚ (map_to_list m).*1) →
  (∀ m : txOps, order2 m ≡ₚ (map_to_list m).*1) →
  outcome (prepareTxOps LineageSupported IsOCC Serialize order1 rwset txht pu db)
    = Ok result →
  outcome (prepareTxOps LineageSupported IsOCC Serialize order2 rwset txht pu db)
    = Ok result.
Proof.
  intros Ho1 Ho2 Hout1.
  destruct (outcome (prepareTxOps LineageSupported IsOCC Serialize order2
                       rwset txht pu db)) as [result2|err] eqn:Hout2.
  - f_equal. apply map_eq. intros ck.
    destruct ((applyTxRwset LineageSupported IsOCC Serialize rwset ∅).1 !! ck)
      as [keyop|] eqn:Hck.
    + apply (merged_cell_functional pu db ck keyop).
      * eapply (prepareTxOps_cell _ _ _ order2); done.
      * eapply (prepareTxOps_cell _ _ _ order1); done.
    + rewrite prepareTxOps_unfold in Hout1, Hout2.
      destruct (mergeKeys pu db (order1 _) _) as [t1 r1] eqn:Hrun1.
      destruct (mergeKeys pu db (order2 _) _) as [t2 r2] eqn:Hrun2.
      unfold outcome in Hout1, Hout2. simpl in Hout1, Hout2. subst r1 r2.
      destruct (result2 !! ck) eqn:H2.
      { apply mk_is_Some, (mergeKeys_dom _ _ _ _ _ _ _ Hrun2) in H2.
        rewrite Hck in H2. by destruct H2. }
      destruct (result !! ck) eqn:H1; [|done].
      apply mk_is_Some, (mergeKeys_dom _ _ _ _ _ _ _ Hrun1) in H1.
      rewrite Hck in H1. by destruct H1.
  - exfalso. rewrite prepareTxOps_unfold in Hout2.
    destruct (mergeKeys pu db (order2 _) _) as [t2 r2] eqn:Hrun2.
    unfold outcome in Hout2. simpl in Hout2. subst r2.
    apply mergeKeys_Err in Hrun2 as (ck & keyop & _ & Hck & Hfail);
      [|by apply range_order_NoDup].
    eapply merged_cell_no_failure; [|done].
    eapply (prepareTxOps_cell _ _ _ order1); done.
Qed.


(** X3. The merge stage is idempotent: running the loop of
    [prepareTxOps] once more on the map it returned looks up the same
    keys again and returns that map unchanged. *)
Theorem merge_stage_idempotent range_order rwset txht pu db result :
  (∀ m : txOps, range_order m ≡ₚ (map_to_list m).*1) →
  outcome (prepareTxOps LineageSupported IsOCC Serialize range_order rwset txht pu db)
    = Ok result →
  outcome (mergeKeys pu db (range_order result) result) = Ok result.
Proof.
  intros Horder Hout.
  assert (∀ ck keyop', result !! ck = Some keyop' →
                       merged_cell pu db ck keyop' (Some keyop')) as Hstable.
  { intros ck keyop' Hk. rewrite prepareTxOps_unfold in Hout.
    destruct (mergeKeys pu db (range_order _) _) as [t r] eqn:Hrun.
    unfold outcome in Hout. simpl in Hout. subst r.
    pose proof (mergeKeys_dom _ _ _ _ _ _ ck Hrun (mk_is_Some _ _ Hk)) as [keyop Hck].
    apply (merged_cell_stable pu db ck keyop). rewrite <- Hk.
    eapply mergeKeys_cell; [by apply range_order_NoDup| |done|done].
    apply range_order_elem; [done|]. by eexists. }
  destruct (mergeKeys pu db (range_order result) result) as [t2 [r2|err]] eqn:Hrun2;
    unfold outcome; simpl.
  - f_equal. apply map_eq. intros ck.
    destruct (result !! ck) as [keyop'|] eqn:Hk.
    + apply (merged_cell_functional pu db ck keyop'); [|by apply Hstable].
      eapply mergeKeys_cell; [by apply range_order_NoDup| |done|done].
      apply range_order_elem; [done|]. by eexists.
    + destruct (r2 !! ck) eqn:H2; [|done].
      apply mk_is_Some, (mergeKeys_dom _ _ _ _ _ _ _ Hrun2) in H2.
      rewrite Hk in H2. by destruct H2.
  - exfalso.
    apply mergeKeys_Err in Hrun2 as (ck & keyop' & _ & Hk & Hfail);
      [|by apply range_order_NoDup].
    eapply merged_cell_no_failure; [|done]. by apply Hstable.
Qed.

(** X4. The merge stage adds no key and writes neither [flag] nor
    [deps] nor [depSnapshot]: every entry of the returned map has the
    flag and the annotations the projection gave it.  This holds for every
    visiting order, admissible or not. *)
Theorem prepareTxOps_keeps_flags_and_keys range_order rwset txht pu db result ck keyop' :
  outcome (prepareTxOps LineageSupported IsOCC Serialize range_order rwset txht pu db)
    = Ok result →
  result !! ck = Some keyop' →
  ∃ keyop,
    (applyTxRwset LineageSupported IsOCC Serialize rwset ∅).1 !! ck = Some keyop
    ∧ flag keyop' = flag keyop
    ∧ deps keyop' = deps keyop
    ∧ depSnapshot keyop' = depSnapshot keyop.
Proof.
  intros Hout Hk. unfold prepareTxOps in Hout.
  destruct (applyTxRwset LineageSupported IsOCC Serialize rwset ∅) as [txops e].
  destruct (mergeKeys pu db (range_order txops) txops) as [t r] eqn:Hrun.
  unfold outcome in Hout. simpl in *. subst r.
  destruct (mergeKeys_flag _ _ _ _ _ _ _ _ Hrun Hk) as (keyop & Hck & Hflag).
  destruct (mergeKeys_deps _ _ _ _ _ _ _ _ Hrun Hk) as (keyop0 & Hck0 & Hdeps & Hsnap).
  exists keyop. rewrite Hck in Hck0. injection Hck0 as <-. done.
Qed.

(** X5. The merge stage drops a key in one case only.  A projected
    entry that is a delete, that carries an upsert with a metadata change,
    or that is an only-upsert is in the returned map; an entry that is
    missing from it was in none of these classes and its key has no latest
    state. *)
Theorem prepareTxOps_drops_only_stateless_metadata range_order rwset txht pu db
    result ck keyop :
  (∀ m : txOps, range_order m ≡ₚ (map_to_list m).*1) →
  (applyTxRwset LineageSupported IsOCC Serialize rwset ∅).1 !! ck = Some keyop →
  outcome (prepareTxOps LineageSupported IsOCC Serialize range_order rwset txht pu db)
    = Ok result →
  (isDelete keyop = true ∨ isUpsertAndMetadataUpdate keyop = true
   ∨ isOnlyUpsert keyop = true →
   is_Some (result !! ck))
  ∧ (result !! ck = None →
     isDelete keyop = false ∧ isUpsertAndMetadataUpdate keyop = false
     ∧ isOnlyUpsert keyop = false
     ∧ outcome (retrieveLatestState (ck_ns ck) (ck_coll ck) (ck_key ck) pu db) = Ok None).
Proof.
  intros Horder Hck Hout.
  pose proof (prepareTxOps_cell _ _ _ _ Horder _ _ _ _ _ _ _ Hck Hout) as Hcell.
  unfold merged_cell in Hcell.
  destruct (isDelete keyop) eqn:Hdel; simpl in Hcell.
  { rewrite Hcell. split; [by eexists|done]. }
  destruct (isUpsertAndMetadataUpdate keyop) eqn:Hfull.
  { rewrite Hcell. split; [by eexists|done]. }
  destruct (isOnlyUpsert keyop) eqn:Honly.
  { destruct Hcell as (md & _ & ->). split; [by eexists|done]. }
  destruct Hcell as ([vv|] & Hlatest & ->); simpl.
  - split; [by eexists|done].
  - split; [|done]. intros [?|[?|?]]; done.
Qed.

End PrepareTxOpsMore.

(** ** The merge stage: what it looks up *)

Lemma bind_trace_eq {A B} (m : M A) (f : A → M B) :
  trace (m ≫= f) = trace m ++ match outcome m with
                              | Ok a => trace (f a)
                              | Err _ => []
                              end.
Proof.
  rewrite bind_unfold. unfold trace, outcome.
  destruct m as [t [a|err]]; simpl; [|by rewrite app_nil_r].
  by destruct (f a).
Qed.

(** The resolver never repeats a lookup, and goes to the database only
    when the staging buffer has nothing for the slot. *)
Lemma retrieveLatestState_lookups pu db ck :
  NoDup (trace (retrieveLatestState (ck_ns ck) (ck_coll ck) (ck_key ck) pu db))
  ∧ ∀ c, c ∈ trace (retrieveLatestState (ck_ns ck) (ck_coll ck) (ck_key ck) pu db) →
         is_db_call c = true → staged pu ck = None.
Proof.
  unfold retrieveLatestState, staged.
  destruct (String.eqb (ck_coll ck) ""); rewrite bind_trace_eq; simpl.
  - destruct (publicUpdates_Get pu _ _); simpl.
    + split; [apply NoDup_singleton|]. by intros c ->%list_elem_of_singleton.
    + split; [|done]. apply NoDup_cons. split; [|apply NoDup_singleton].
      by intros ?%list_elem_of_singleton.
  - destruct (hashUpdates_Get pu _ _ _); simpl.
    + split; [apply NoDup_singleton|]. by intros c ->%list_elem_of_singleton.
    + split; [|done]. apply NoDup_cons. split; [|apply NoDup_singleton].
      by intros ?%list_elem_of_singleton.
Qed.

Lemma retrieveLatestMetadata_lookups pu db ck :
  NoDup (trace (retrieveLatestMetadata (ck_ns ck) (ck_coll ck) (ck_key ck) pu db))
  ∧ ∀ c, c ∈ trace (retrieveLatestMetadata (ck_ns ck) (ck_coll ck) (ck_key ck) pu db) →
         is_db_call c = true → staged pu ck = None.
Proof.
  unfold retrieveLatestMetadata, staged.
  destruct (String.eqb (ck_coll ck) ""); rewrite bind_trace_eq; simpl.
  - destruct (publicUpdates_Get pu _ _); simpl.
    + split; [apply NoDup_singleton|]. by intros c ->%list_elem_of_singleton.
    + split; [|done]. apply NoDup_cons. split; [|apply NoDup_singleton].
      by intros ?%list_elem_of_singleton.
  - destruct (hashUpdates_Get pu _ _ _); simpl.
    + split; [apply NoDup_singleton|]. by intros c ->%list_elem_of_singleton.
    + split; [|done]. apply NoDup_cons. split; [|apply NoDup_singleton].
      by intros ?%list_elem_of_singleton.
Qed.

Lemma mergeKey_lookups pu db ck (m : txOps) :
  NoDup (trace (mergeKey pu db ck m))
  ∧ ∀ c, c ∈ trace (mergeKey pu db ck m) → is_db_call c = true → staged pu ck = None.
Proof.
  unfold mergeKey. destruct (m !! ck) as [keyop|].
  2:{ split; [apply NoDup_nil_2|]. by intros c ?%not_elem_of_nil. }
  destruct (isDelete keyop || isUpsertAndMetadataUpdate keyop).
  { split; [apply NoDup_nil_2|]. by intros c ?%not_elem_of_nil. }
  destruct (isOnlyUpsert keyop); rewrite bind_trace_eq.
  - destruct (retrieveLatestMetadata_lookups pu db ck) as [Hnd Hdb].
    assert (∀ md, trace (mret (<[ck:=set_metadata md keyop]> m) : M txOps) = []) as Hret
      by done.
    destruct (outcome _); rewrite ?Hret, app_nil_r; done.
  - destruct (retrieveLatestState_lookups pu db ck) as [Hnd Hdb].
    destruct (outcome _) as [[vv|]|]; simpl; rewrite app_nil_r; done.
Qed.

Lemma mergeKeys_lookups pu db keys (m : txOps) :
  NoDup keys →
  NoDup (trace (mergeKeys pu db keys m))
  ∧ ∀ c, c ∈ trace (mergeKeys pu db keys m) →
         is_db_call c = true → staged pu (call_key c) = None.
Proof.
  revert m. induction keys as [|k keys IH]; intros m Hnd.
  { split; [apply NoDup_nil_2|]. by intros c ?%not_elem_of_nil. }
  apply NoDup_cons in Hnd as [Hfresh Hnd].
  rewrite mergeKeys_cons, bind_trace_eq.
  destruct (mergeKey_lookups pu db k m) as [Hnd1 Hdb1].
  assert (∀ c, c ∈ trace (mergeKey pu db k m) → call_key c = k) as Hkey.
  { intros c Hc. by apply mergeKey_trace in Hc as [? _]. }
  destruct (outcome (mergeKey pu db k m)) as [m1|err].
  2:{ rewrite app_nil_r. split; [done|]. intros c Hc Hdb.
      rewrite (Hkey c Hc). by eapply Hdb1. }
  destruct (IH m1 Hnd) as [Hnd2 Hdb2]. split.
  - apply NoDup_app. split; [done|]. split; [|done].
    intros c Hc1 Hc2. apply Hkey in Hc1.
    apply mergeKeys_trace in Hc2 as [Hin _]; [|done]. by rewrite Hc1 in Hin.
  - intros c [Hc|Hc]%elem_of_app Hdb; [|by apply Hdb2].
    rewrite (Hkey c Hc). by eapply Hdb1.
Qed.

(** X6. [prepareTxOps] looks up only keys of the projected map, never
    repeats a lookup, and asks the state database only about keys for
    which the staging buffer holds nothing. *)
Theorem prepareTxOps_lookups lineage occ Serialize range_order rwset txht pu db :
  (∀ m : txOps, range_order m ≡ₚ (map_to_list m).*1) →
  NoDup (trace (prepareTxOps lineage occ Serialize range_order rwset txht pu db))
  ∧ ∀ c, c ∈ trace (prepareTxOps lineage occ Serialize range_order rwset txht pu db) →
         is_Some ((applyTxRwset lineage occ Serialize rwset ∅).1 !! call_key c)
         ∧ (is_db_call c = true → staged pu (call_key c) = None).
Proof.
  intros Horder. rewrite prepareTxOps_unfold.
  pose proof (range_order_NoDup _ Horder
                (applyTxRwset lineage occ Serialize rwset ∅).1) as Hnd.
  destruct (mergeKeys_lookups pu db _ (applyTxRwset lineage occ Serialize rwset ∅).1 Hnd)
    as [Hnd' Hdb].
  split; [done|]. intros c Hc. split; [|by apply Hdb].
  apply mergeKeys_trace in Hc as [_ (keyop & Hk & _)]; [|done]. by eexists.
Qed.

(** *** The merge stage on sample transactions *)

Lemma reverse_order_perm (m : txOps) : MoreSamples.reverseOrder m ≡ₚ (map_to_list m).*1.
Proof. apply reverse_Permutation. Qed.

(** An upsert when the database is down. *)
Lemma prepareTxOps_error_is_lookup_error_witness :
  ∃ err',
    outcome (prepareTxOps false false Sample.serializeOk Sample.order Sample.rwUpsert
               None Sample.noStaging MoreSamples.failingDB) = Err err'.
Proof.
  refine (proj2 (prepareTxOps_error_is_lookup_error false false Sample.serializeOk
                   Sample.order Sample.rwUpsert None Sample.noStaging
                   MoreSamples.failingDB sample_order_perm)
            Sample.k (KeyOps upsertVal (Sample.b "v1") None None 0) "db down" _ _).
  - vm_compute; reflexivity.
  - split; vm_compute; reflexivity.
Defined.

(** Two keys, visited in either order. *)
Lemma prepareTxOps_order_independent_witness :
  ∃ result,
    outcome (prepareTxOps false false Sample.serializeOk Sample.order
               MoreSamples.rwTwoKeys None Sample.noStaging Sample.fullDB) = Ok result
    ∧ outcome (prepareTxOps false false Sample.serializeOk MoreSamples.reverseOrder
                 MoreSamples.rwTwoKeys None Sample.noStaging Sample.fullDB) = Ok result.
Proof.
  assert (match outcome (prepareTxOps false false Sample.serializeOk Sample.order
                           MoreSamples.rwTwoKeys None Sample.noStaging Sample.fullDB) with
          | Ok _ => true
          | Err _ => false
          end = true) as Hok by (vm_compute; reflexivity).
  destruct (outcome (prepareTxOps false false Sample.serializeOk Sample.order
                       MoreSamples.rwTwoKeys None Sample.noStaging Sample.fullDB))
    as [result|err] eqn:Hout; [|discriminate Hok].
  exists result. split; [reflexivity|].
  exact (prepareTxOps_order_independent false false Sample.serializeOk Sample.order
           MoreSamples.reverseOrder MoreSamples.rwTwoKeys None Sample.noStaging
           Sample.fullDB result sample_order_perm reverse_order_perm Hout).
Defined.

(** The same two keys, merged twice. *)
Lemma merge_stage_idempotent_witness :
  ∃ result,
    outcome (prepareTxOps false false Sample.serializeOk Sample.order
               MoreSamples.rwTwoKeys None Sample.noStaging Sample.fullDB) = Ok result
    ∧ outcome (mergeKeys Sample.noStaging Sample.fullDB (Sample.order result) result)
      = Ok result.
Proof.
  assert (match outcome (prepareTxOps false false Sample.serializeOk Sample.order
                           MoreSamples.rwTwoKeys None Sample.noStaging Sample.fullDB) with
          | Ok _ => true
          | Err _ => false
          end = true) as Hok by (vm_compute; reflexivity).
  destruct (outcome (prepareTxOps false false Sample.serializeOk Sample.order
                       MoreSamples.rwTwoKeys None Sample.noStaging Sample.fullDB))
    as [result|err] eqn:Hout; [|discriminate Hok].
  exists result. split; [reflexivity|].
  exact (merge_stage_idempotent false false Sample.serializeOk Sample.order
           MoreSamples.rwTwoKeys None Sample.noStaging Sample.fullDB result
           sample_order_perm Hout).
Defined.

(** S6: the annotated write keeps its flag, its dependencies and its
    snapshot through the merge. *)
Lemma prepareTxOps_keeps_flags_and_keys_witness :
  ∃ keyop,
    (applyTxRwset true true Sample.serializeOk Sample.rwProv ∅).1
      !! CompositeKey "n" "" "x" = Some keyop
    ∧ upsertVal = flag keyop
    ∧ Some ["y"; "z"] = deps keyop
    ∧ 7 = depSnapshot keyop.
Proof.
  assert (match outcome (prepareTxOps true true Sample.serializeOk Sample.order
                           Sample.rwProv None Sample.noStaging Sample.emptyDB) with
          | Ok m => m !! CompositeKey "n" "" "x"
          | Err _ => None
          end = Some (KeyOps upsertVal (Sample.b "v") None (Some ["y"; "z"]) 7)) as Hx
    by (vm_compute; reflexivity).
  destruct (outcome (prepareTxOps true true Sample.serializeOk Sample.order
                       Sample.rwProv None Sample.noStaging Sample.emptyDB))
    as [result|err] eqn:Hout; [|discriminate Hx].
  exact (prepareTxOps_keeps_flags_and_keys true true Sample.serializeOk Sample.order
           Sample.rwProv None Sample.noStaging Sample.emptyDB result
           (CompositeKey "n" "" "x")
           (KeyOps upsertVal (Sample.b "v") None (Some ["y"; "z"]) 7) Hout Hx).
Defined.

(** S1: a pure upsert is never dropped, whatever the database holds. *)
Lemma prepareTxOps_drops_only_stateless_metadata_witness :
  ∃ result,
    outcome (prepareTxOps false false Sample.serializeOk Sample.order
               Sample.rwUpsert None Sample.noStaging Sample.emptyDB) = Ok result
    ∧ is_Some (result !! Sample.k).
Proof.
  assert (match outcome (prepareTxOps false false Sample.serializeOk Sample.order
                           Sample.rwUpsert None Sample.noStaging Sample.emptyDB) with
          | Ok _ => true
          | Err _ => false
          end = true) as Hok by (vm_compute; reflexivity).
  destruct (outcome (prepareTxOps false false Sample.serializeOk Sample.order
                       Sample.rwUpsert None Sample.noStaging Sample.emptyDB))
    as [result|err] eqn:Hout; [|discriminate Hok].
  exists result. split; [reflexivity|].
  assert ((applyTxRwset false false Sample.serializeOk Sample.rwUpsert ∅).1 !! Sample.k
          = Some (KeyOps upsertVal (Sample.b "v1") None None 0)) as Hck
    by (vm_compute; reflexivity).
  exact (proj1 (prepareTxOps_drops_only_stateless_metadata false false
                  Sample.serializeOk Sample.order Sample.rwUpsert None Sample.noStaging
                  Sample.emptyDB result Sample.k
                  (KeyOps upsertVal (Sample.b "v1") None None 0)
                  sample_order_perm Hck Hout)
           (or_intror (or_intror eq_refl))).
Defined.

(** Two keys whose state is staged: the database is not asked. *)
Lemma prepareTxOps_lookups_witness :
  NoDup (trace (prepareTxOps false false Sample.serializeOk Sample.order
                  MoreSamples.rwTwoKeys None MoreSamples.fullStaging
                  MoreSamples.failingDB))
  ∧ ∀ c, c ∈ trace (prepareTxOps false false Sample.serializeOk Sample.order
                      MoreSamples.rwTwoKeys None MoreSamples.fullStaging
                      MoreSamples.failingDB) →
         is_Some ((applyTxRwset false false Sample.serializeOk MoreSamples.rwTwoKeys ∅).1
                    !! call_key c)
         ∧ (is_db_call c = true → staged MoreSamples.fullStaging (call_key c) = None).
Proof.
  exact (prepareTxOps_lookups false false Sample.serializeOk Sample.order
           MoreSamples.rwTwoKeys None MoreSamples.fullStaging MoreSamples.failingDB
           sample_order_perm).
Defined.

(** ** The projection: which keys it binds *)

Lemma fold_left_dom_iff {X} (step : txOps → X → txOps) (Q : X → compositeKey → Prop) :
  (∀ m x k, is_Some (step m x !! k) ↔ Q x k ∨ is_Some (m !! k)) →
  ∀ l (m : txOps) k,
    is_Some (fold_left step l m !! k) ↔ (∃ x, x ∈ l ∧ Q x k) ∨ is_Some (m !! k).
Proof.
  intros Hstep l. induction l as [|x l IH]; intros m k; simpl.
  - split; [by right|]. intros [(x & Hx & _)|?]; [|done].
    by apply not_elem_of_nil in Hx.
  - rewrite IH, Hstep. split.
    + intros [(y & Hy & HQ)|[HQ|Hk]]; [| |by right].
      * left. exists y. split; [by right|done].
      * left. exists x. split; [by left|done].
    + intros [(y & Hy & HQ)|Hk]; [|by right; right].
      apply elem_of_cons in Hy as [->|Hy]; [by right; left|].
      left. by exists y.
Qed.

Lemma elem_of_map_filter {X} (f : X → compositeKey) (p : X → bool) (l : list X) k :
  k ∈ map f (List.filter p l) ↔ ∃ x, x ∈ l ∧ p x = true ∧ f x = k.
Proof.
  rewrite list_elem_of_In, in_map_iff. split.
  - intros (x & <- & [Hx Hp]%filter_In). exists x. by rewrite list_elem_of_In.
  - intros (x & Hx & Hp & <-). exists x. split; [done|].
    apply filter_In. by rewrite <- list_elem_of_In.
Qed.

Lemma elem_of_concat_map {X} (f : X → list compositeKey) (l : list X) k :
  k ∈ concat (map f l) ↔ ∃ x, x ∈ l ∧ k ∈ f x.
Proof.
  rewrite list_elem_of_In, in_concat. split.
  - intros (ks & (x & <- & Hx)%in_map_iff & Hk).
    exists x. by rewrite !list_elem_of_In.
  - intros (x & Hx & Hk). exists (f x).
    split; [apply in_map|]; by apply list_elem_of_In.
Qed.

Lemma applyMetadata_dom_iff Serialize ns coll mw (m : txOps) k :
  is_Some ((applyMetadata Serialize ns coll mw m).1 !! k)
  ↔ (recorded Serialize (KVMetadataWrite.Entries mw) = true
     ∧ CompositeKey ns coll (KVMetadataWrite.Key mw) = k)
    ∨ is_Some (m !! k).
Proof.
  unfold applyMetadata, recorded.
  destruct (KVMetadataWrite.Entries mw) as [es|]; simpl.
  - destruct (Serialize (Some es)); simpl.
    + rewrite txops_metadataUpdate_eq, is_Some_update. by intuition.
    + split; [by right|]. by intros [[? _]|?].
  - rewrite txops_metadataDelete_eq, is_Some_update. by intuition.
Qed.

Lemma applyCollHashedRwSet_dom_iff Serialize ns (m : txOps) c k :
  is_Some (applyCollHashedRwSet Serialize ns m c !! k)
  ↔ k ∈ collRecordedKeys Serialize ns c ∨ is_Some (m !! k).
Proof.
  unfold applyCollHashedRwSet, collRecordedKeys.
  rewrite (fold_left_dom_iff _ (λ w k,
             recorded Serialize (KVMetadataWriteHash.Entries w) = true
             ∧ CompositeKey ns (CollHashedRwSet.CollectionName c)
                 (string_of_bytes (KVMetadataWriteHash.KeyHash w)) = k)).
  2:{ intros m0 x k0. apply applyMetadata_dom_iff. }
  rewrite (fold_left_dom_iff _ (λ w k,
             CompositeKey ns (CollHashedRwSet.CollectionName c)
               (string_of_bytes (KVWriteHash.KeyHash w)) = k)).
  2:{ intros m0 x k0. apply applyKVWrite_dom. }
  rewrite elem_of_app, elem_of_map_filter, list_elem_of_fmap.
  split.
  - intros [(x & Hx & Hrec & Hk)|[(x & Hx & Hk)|Hk]]; [| |by right].
    + left. right. by exists x.
    + left. left. by exists x.
  - intros [[(x & Hk & Hx)|(x & Hx & Hrec & Hk)]|Hk]; [| |by right; right].
    + right. left. by exists x.
    + left. by exists x.
Qed.

Lemma applyNsRwSet_dom_iff lineage occ Serialize (m : txOps) n k :
  is_Some (applyNsRwSet lineage occ Serialize m n !! k)
  ↔ k ∈ nsRecordedKeys lineage Serialize n ∨ is_Some (m !! k).
Proof.
  unfold applyNsRwSet, nsRecordedKeys.
  rewrite (fold_left_dom_iff _ (λ c k,
             k ∈ collRecordedKeys Serialize (NsRwSet.NameSpace n) c)).
  2:{ intros m0 x k0. apply applyCollHashedRwSet_dom_iff. }
  rewrite (fold_left_dom_iff _ (λ w k,
             recorded Serialize (KVMetadataWrite.Entries w) = true
             ∧ CompositeKey (NsRwSet.NameSpace n) "" (KVMetadataWrite.Key w) = k)).
  2:{ intros m0 x k0. apply applyMetadata_dom_iff. }
  assert (is_Some ((if lineage
                    then fold_left
                           (applyRealWrite (NsRwSet.NameSpace n)
                              (depsOf (KVRWSet.Writes (NsRwSet.KvRwSet n)))
                              (depSnapshotOf occ (KVRWSet.Reads (NsRwSet.KvRwSet n))))
                           (KVRWSet.Writes (NsRwSet.KvRwSet n)) m
                    else fold_left
                           (λ txops kvWrite,
                              applyKVWrite (NsRwSet.NameSpace n) "" kvWrite txops)
                           (KVRWSet.Writes (NsRwSet.KvRwSet n)) m) !! k)
          ↔ (∃ w, w ∈ KVRWSet.Writes (NsRwSet.KvRwSet n)
                  ∧ negb (lineage && HasSuffix (KVWrite.Key w) "_prov") = true
                  ∧ CompositeKey (NsRwSet.NameSpace n) "" (KVWrite.Key w) = k)
            ∨ is_Some (m !! k)) as ->.
  { destruct lineage; simpl.
    - rewrite (fold_left_dom_iff _ (λ w k,
                 HasSuffix (KVWrite.Key w) "_prov" = false
                 ∧ CompositeKey (NsRwSet.NameSpace n) "" (KVWrite.Key w) = k)).
      2:{ intros m0 x k0. apply applyRealWrite_dom. }
      split; (intros [(w & Hw & Hsuf & Hk)|Hk]; [left|by right]);
        exists w; (split; [done|]); (split; [|done]).
      + by rewrite Hsuf.
      + by destruct (HasSuffix (KVWrite.Key w) "_prov").
    - rewrite (fold_left_dom_iff _ (λ w k,
                 CompositeKey (NsRwSet.NameSpace n) "" (KVWrite.Key w) = k)).
      2:{ intros m0 x k0. apply applyKVWrite_dom. }
      split; [intros [(w & Hw & Hk)|Hk]|intros [(w & Hw & _ & Hk)|Hk]];
        try (by right); left; by exists w. }
  rewrite !elem_of_app, !elem_of_map_filter, elem_of_concat_map. tauto.
Qed.

(** X7. The keys of the projected map are exactly the keys the
    transaction writes: those of the public writes (with the provenance
    extension on, of those whose key does not end in [_prov]), of the
    metadata writes whose entries are nil or can be serialized, and of the
    hashed writes and hashed metadata writes of its collections.  Reads
    bind nothing. *)
Theorem applyTxRwset_keys lineage occ Serialize rwset k :
  is_Some ((applyTxRwset lineage occ Serialize rwset ∅).1 !! k)
  ↔ k ∈ recordedKeys lineage Serialize rwset.
Proof.
  unfold applyTxRwset, recordedKeys. simpl.
  rewrite (fold_left_dom_iff _ (λ n k, k ∈ nsRecordedKeys lineage Serialize n)).
  2:{ intros m0 x k0. apply applyNsRwSet_dom_iff. }
  rewrite elem_of_concat_map, lookup_empty. split; [|by left].
  intros [?|[? ?]]; done.
Qed.

(** ** The projection: namespaces do not interfere *)

Lemma update_cell_local k (f : keyOps → keyOps) :
  cell_local (λ m, <[k := f (entry m k)]> m).
Proof.
  intros m1 m2 k' Hk. rewrite !lookup_insert. case_decide; [|done].
  subst k'. unfold entry. by rewrite Hk.
Qed.

Lemma applyKVWrite_local ns coll w : cell_local (applyKVWrite ns coll w).
Proof.
  unfold applyKVWrite. destruct (KVWrite.IsDelete w); intros m1 m2 k Hk.
  - rewrite !txops_delete_eq. by apply (update_cell_local _ (add_flag keyDelete)).
  - rewrite !txops_upsert_eq.
    by apply (update_cell_local _
                (λ ko, set_value (KVWrite.Value w) (add_flag upsertVal ko))).
Qed.

Lemma applyKVWriteWithDep_local ns coll w ds s :
  cell_local (applyKVWriteWithDep ns coll w ds s).
Proof.
  unfold applyKVWriteWithDep. destruct (KVWrite.IsDelete w); intros m1 m2 k Hk.
  - rewrite !txops_deleteWithDep_eq.
    by apply (update_cell_local _
                (λ ko, set_depSnapshot s (set_deps ds (add_flag keyDelete ko)))).
  - rewrite !txops_upsertWithDep_eq.
    by apply (update_cell_local _
                (λ ko, set_depSnapshot s
                         (set_deps ds (set_value (KVWrite.Value w)
                                         (add_flag upsertVal ko))))).
Qed.

Lemma applyMetadata_local Serialize ns coll mw :
  cell_local (λ m, (applyMetadata Serialize ns coll mw m).1).
Proof.
  unfold applyMetadata. intros m1 m2 k Hk.
  destruct (KVMetadataWrite.Entries mw) as [es|]; simpl.
  - destruct (Serialize (Some es)) as [md|]; simpl; [|done].
    rewrite !txops_metadataUpdate_eq.
    by apply (update_cell_local _ (λ ko, set_metadata md (add_flag metadataUpdate ko))).
  - rewrite !txops_metadataDelete_eq.
    by apply (update_cell_local _ (add_flag metadataDelete)).
Qed.

Lemma fold_left_local {X} (step : txOps → X → txOps) (l : list X) :
  (∀ x, cell_local (λ m, step m x)) → cell_local (λ m, fold_left step l m).
Proof.
  intros Hstep. induction l as [|x l IH]; intros m1 m2 k Hk; [done|].
  simpl. apply IH. by apply Hstep.
Qed.

Lemma applyNsRwSet_local lineage occ Serialize n :
  cell_local (λ m, applyNsRwSet lineage occ Serialize m n).
Proof.
  intros m1 m2 k Hk. unfold applyNsRwSet.
  apply (fold_left_local (applyCollHashedRwSet Serialize (NsRwSet.NameSpace n))).
  { intros c m1' m2' k' Hk'. unfold applyCollHashedRwSet.
    apply (fold_left_local (λ txops metadataWrite, (applyMetadata Serialize _ _ _ txops).1)).
    { intros x. apply applyMetadata_local. }
    apply (fold_left_local (λ txops hashedWrite, applyKVWrite _ _ _ txops)); [|done].
    intros x. apply applyKVWrite_local. }
  apply (fold_left_local (λ txops kvMetadataWrite,
                            (applyMetadata Serialize _ _ kvMetadataWrite txops).1)).
  { intros x. apply applyMetadata_local. }
  destruct lineage.
  - apply (fold_left_local (applyRealWrite _ _ _)); [|done].
    intros w m1' m2' k' Hk'. unfold applyRealWrite.
    destruct (HasSuffix (KVWrite.Key w) "_prov"); [done|].
    by apply applyKVWriteWithDep_local.
  - apply (fold_left_local (λ txops kvWrite, applyKVWrite _ _ kvWrite txops)); [|done].
    intros x. apply applyKVWrite_local.
Qed.

(** A namespace record touches no cell of another namespace. *)
Lemma fold_left_frame {X} (step : txOps → X → txOps) k :
  (∀ m x, step m x !! k = m !! k) →
  ∀ l (m : txOps), fold_left step l m !! k = m !! k.
Proof.
  intros Hstep l. induction l as [|x l IH]; intros m; [done|].
  simpl. by rewrite IH.
Qed.

Lemma update_cell_frame k k' x (m : txOps) :
  ck_ns k' ≠ ck_ns k → <[k := x]> m !! k' = m !! k'.
Proof. intros Hne. apply lookup_insert_ne. by intros ->. Qed.

Lemma applyKVWrite_frame ns coll w (m : txOps) k :
  ck_ns k ≠ ns → applyKVWrite ns coll w m !! k = m !! k.
Proof.
  intros Hne. unfold applyKVWrite.
  destruct (KVWrite.IsDelete w); rewrite ?txops_delete_eq, ?txops_upsert_eq;
    by apply update_cell_frame.
Qed.

Lemma applyKVWriteWithDep_frame ns coll w ds s (m : txOps) k :
  ck_ns k ≠ ns → applyKVWriteWithDep ns coll w ds s m !! k = m !! k.
Proof.
  intros Hne. unfold applyKVWriteWithDep.
  destruct (KVWrite.IsDelete w);
    rewrite ?txops_deleteWithDep_eq, ?txops_upsertWithDep_eq;
    by apply update_cell_frame.
Qed.

Lemma applyMetadata_frame Serialize ns coll mw (m : txOps) k :
  ck_ns k ≠ ns → (applyMetadata Serialize ns coll mw m).1 !! k = m !! k.
Proof.
  intros Hne. unfold applyMetadata.
  destruct (KVMetadataWrite.Entries mw) as [es|]; simpl.
  - destruct (Serialize (Some es)); simpl; [|done].
    rewrite txops_metadataUpdate_eq. by apply update_cell_frame.
  - rewrite txops_metadataDelete_eq. by apply update_cell_frame.
Qed.

Lemma applyNsRwSet_frame lineage occ Serialize (m : txOps) n k :
  ck_ns k ≠ NsRwSet.NameSpace n → applyNsRwSet lineage occ Serialize m n !! k = m !! k.
Proof.
  intros Hne. unfold applyNsRwSet.
  rewrite fold_left_frame.
  2:{ intros m0 c. unfold applyCollHashedRwSet.
      rewrite fold_left_frame; [|intros; by apply applyMetadata_frame].
      apply fold_left_frame. intros. by apply applyKVWrite_frame. }
  rewrite fold_left_frame; [|intros; by apply applyMetadata_frame].
  destruct lineage.
  - apply fold_left_frame. intros m0 w. unfold applyRealWrite.
    destruct (HasSuffix (KVWrite.Key w) "_prov"); [done|].
    by apply applyKVWriteWithDep_frame.
  - apply fold_left_frame. intros. by apply applyKVWrite_frame.
Qed.

Lemma applyNsRwSet_commute lineage occ Serialize (m : txOps) n1 n2 :
  NsRwSet.NameSpace n1 ≠ NsRwSet.NameSpace n2 →
  applyNsRwSet lineage occ Serialize (applyNsRwSet lineage occ Serialize m n1) n2
  = applyNsRwSet lineage occ Serialize (applyNsRwSet lineage occ Serialize m n2) n1.
Proof.
  intros Hne. apply map_eq. intros k.
  destruct (decide (ck_ns k = NsRwSet.NameSpace n2)) as [Heq|Hne2].
  - assert (ck_ns k ≠ NsRwSet.NameSpace n1) as Hne1 by congruence.
    rewrite (applyNsRwSet_frame _ _ _ _ n1 k Hne1).
    apply (applyNsRwSet_local lineage occ Serialize n2).
    by apply applyNsRwSet_frame.
  - rewrite (applyNsRwSet_frame _ _ _ _ n2 k Hne2).
    symmetry. apply (applyNsRwSet_local lineage occ Serialize n1).
    by apply applyNsRwSet_frame.
Qed.

Lemma fold_applyNsRwSet_perm lineage occ Serialize nss nss' :
  nss ≡ₚ nss' → NoDup (NsRwSet.NameSpace <$> nss) →
  ∀ m : txOps, fold_left (applyNsRwSet lineage occ Serialize) nss m
               = fold_left (applyNsRwSet lineage occ Serialize) nss' m.
Proof.
  induction 1 as [|x l l' Hperm IH|x y l|l1 l2 l3 H12 IH12 H23 IH23]; intros Hnd m.
  - done.
  - simpl. apply IH. by apply NoDup_cons in Hnd as [_ ?].
  - simpl. f_equal. apply applyNsRwSet_commute.
    rewrite !fmap_cons in Hnd. apply NoDup_cons in Hnd as [Hy _].
    intros Heq. apply Hy. rewrite Heq. by left.
  - rewrite IH12; [|done]. apply IH23. by rewrite <- H12.
Qed.

(** X8. The namespace records of a transaction can be walked in any
    order: when their namespaces are pairwise distinct, permuting them
    changes neither the projected map nor what [prepareTxOps] returns. *)
Theorem namespace_order_irrelevant lineage occ Serialize range_order nss nss' txht pu db :
  NoDup (NsRwSet.NameSpace <$> nss) →
  nss ≡ₚ nss' →
  (applyTxRwset lineage occ Serialize (TxRwSet.mk nss) ∅).1
    = (applyTxRwset lineage occ Serialize (TxRwSet.mk nss') ∅).1
  ∧ prepareTxOps lineage occ Serialize range_order (TxRwSet.mk nss) txht pu db
    = prepareTxOps lineage occ Serialize range_order (TxRwSet.mk nss') txht pu db.
Proof.
  intros Hnd Hperm.
  assert ((applyTxRwset lineage occ Serialize (TxRwSet.mk nss) ∅).1
          = (applyTxRwset lineage occ Serialize (TxRwSet.mk nss') ∅).1) as Heq.
  { unfold applyTxRwset. simpl. by apply fold_applyNsRwSet_perm. }
  split; [done|]. rewrite !prepareTxOps_unfold. by rewrite Heq.
Qed.

(** Two namespaces, walked in either order. *)
Lemma namespace_order_irrelevant_witness :
  (applyTxRwset false false Sample.serializeOk
     (TxRwSet.mk [MoreSamples2.nsOne; MoreSamples2.nsTwo]) ∅).1
    = (applyTxRwset false false Sample.serializeOk
         (TxRwSet.mk [MoreSamples2.nsTwo; MoreSamples2.nsOne]) ∅).1
  ∧ prepareTxOps false false Sample.serializeOk Sample.order
      (TxRwSet.mk [MoreSamples2.nsOne; MoreSamples2.nsTwo]) None
      Sample.noStaging Sample.emptyDB
    = prepareTxOps false false Sample.serializeOk Sample.order
        (TxRwSet.mk [MoreSamples2.nsTwo; MoreSamples2.nsOne]) None
        Sample.noStaging Sample.emptyDB.
Proof.
  apply (namespace_order_irrelevant false false Sample.serializeOk Sample.order
           [MoreSamples2.nsOne; MoreSamples2.nsTwo]
           [MoreSamples2.nsTwo; MoreSamples2.nsOne] None Sample.noStaging
           Sample.emptyDB).
  - apply (bool_decide_unpack _). vm_compute. exact I.
  - apply perm_swap.
Defined.

(** ** Strings: suffixes and segments *)

Lemma length_append_string (p s : string) :
  String.length (p +:+ s) = (String.length p + String.length s)%nat.
Proof. induction p as [|c p IH]; simpl; [done|]. by rewrite IH. Qed.

Lemma substring_full (s : string) : substring 0 (String.length s) s = s.
Proof. induction s as [|c s IH]; simpl; [done|]. by rewrite IH. Qed.

Lemma HasSuffix_cons c (s suffix : string) :
  (String.length suffix ≤ String.length s)%nat →
  HasSuffix (String c s) suffix = HasSuffix s suffix.
Proof.
  intros Hle. unfold HasSuffix. simpl String.length.
  rewrite (Nat.sub_succ_l _ _ Hle). simpl substring.
  assert ((String.length suffix <=? S (String.length s))%nat = true) as ->.
  { apply Nat.leb_le. lia. }
  assert ((String.length suffix <=? String.length s)%nat = true) as ->.
  { by apply Nat.leb_le. }
  done.
Qed.

(** [HasSuffix s suffix] holds exactly when [s] ends with [suffix]. *)
Lemma HasSuffix_append (p suffix : string) : HasSuffix (p +:+ suffix) suffix = true.
Proof.
  induction p as [|c p IH].
  - change ("" +:+ suffix) with suffix.
    unfold HasSuffix. rewrite Nat.leb_refl, Nat.sub_diag, substring_full. simpl.
    apply String.eqb_refl.
  - change (String c p +:+ suffix) with (String c (p +:+ suffix)).
    rewrite HasSuffix_cons; [done|]. rewrite length_append_string. lia.
Qed.

Lemma HasSuffix_inv (s suffix : string) :
  HasSuffix s suffix = true → ∃ p, s = p +:+ suffix.
Proof.
  induction s as [|c s IH]; intros Hsuf.
  - unfold HasSuffix in Hsuf. simpl in Hsuf.
    destruct suffix; [by exists ""|done].
  - destruct (decide (String.length suffix ≤ String.length s)%nat) as [Hle|Hgt].
    + rewrite HasSuffix_cons in Hsuf; [|done].
      destruct (IH Hsuf) as [p ->]. by exists (String c p).
    + unfold HasSuffix in Hsuf. apply andb_true_iff in Hsuf as [Hlen Heq].
      apply Nat.leb_le in Hlen. simpl String.length in *.
      assert (String.length suffix = S (String.length s)) as Hm by lia.
      rewrite Hm, Nat.sub_diag in Heq.
      change (S (String.length s)) with (String.length (String c s)) in Heq.
      rewrite substring_full in Heq. apply String.eqb_eq in Heq as <-.
      by exists "".
Qed.

Lemma list_ascii_of_append (p s : string) :
  list_ascii_of_string (p +:+ s) = list_ascii_of_string p ++ list_ascii_of_string s.
Proof. induction p as [|c p IH]; simpl; [done|]. by rewrite IH. Qed.

(** A key without underscore is not a marker key. *)
Lemma no_underscore_not_marker (x : string) :
  (∀ c, c ∈ list_ascii_of_string x → c ≠ underscore) → HasSuffix x "_prov" = false.
Proof.
  intros Hx. destruct (HasSuffix x "_prov") eqn:Hsuf; [|done].
  apply HasSuffix_inv in Hsuf as [p ->]. exfalso.
  apply (Hx underscore); [|done].
  rewrite list_ascii_of_append. apply elem_of_app. right. simpl. by left.
Qed.

(** No segment returned by [Split] contains the separator. *)
Lemma Split_no_sep (s : string) sep seg :
  seg ∈ Split s sep → ∀ c, c ∈ list_ascii_of_string seg → c ≠ sep.
Proof.
  revert seg. induction s as [|a s IH]; intros seg Hseg c Hc; simpl in Hseg.
  - apply list_elem_of_singleton in Hseg as ->. by apply not_elem_of_nil in Hc.
  - destruct (Ascii.eqb a sep) eqn:Ha.
    + apply elem_of_cons in Hseg as [->|Hseg]; [by apply not_elem_of_nil in Hc|].
      by eapply IH.
    + destruct (Split s sep) as [|seg0 segs] eqn:Hsplit.
      * apply list_elem_of_singleton in Hseg as ->. simpl in Hc.
        apply list_elem_of_singleton in Hc as ->. by apply Ascii.eqb_neq.
      * apply elem_of_cons in Hseg as [->|Hseg].
        -- simpl in Hc. apply elem_of_cons in Hc as [->|Hc]; [by apply Ascii.eqb_neq|].
           eapply IH; [|done]. by left.
        -- eapply IH; [|done]. by right.
Qed.

(** ** Provenance: the dependency lists *)

(** The dependency list of a marker value: the non-empty segments, in
    order. *)
Lemma depKeysOf_filter (val : bytes) :
  depKeysOf val
  = Some (List.filter (λ dk, negb (String.eqb dk ""))
            (Split (string_of_bytes val) underscore)).
Proof.
  unfold depKeysOf.
  assert (∀ l acc,
            fold_left (λ depKeys dk, if String.eqb dk "" then depKeys
                                     else append depKeys dk) l (Some acc)
            = Some (acc ++ List.filter (λ dk, negb (String.eqb dk "")) l)) as Hfold.
  { intros l. induction l as [|dk l IH]; intros acc; simpl.
    - by rewrite app_nil_r.
    - destruct (String.eqb dk ""); simpl; [apply IH|].
      rewrite IH. by rewrite <- app_assoc. }
  apply (Hfold _ []).
Qed.

Lemma depKeysOf_elements (val : bytes) ds d :
  depKeysOf val = Some ds → d ∈ ds →
  d ≠ "" ∧ ∀ c, c ∈ list_ascii_of_string d → c ≠ underscore.
Proof.
  rewrite depKeysOf_filter. intros [= <-] Hd.
  apply list_elem_of_In, filter_In in Hd as [Hd Hne]. split.
  - intros ->. done.
  - apply (Split_no_sep (string_of_bytes val)). by apply list_elem_of_In.
Qed.

(** Every list of the dependency map is the list of some marker. *)
Lemma depsOf_values writes key d :
  depsOf writes !! key = Some d →
  ∃ w, w ∈ writes ∧ HasSuffix (KVWrite.Key w) "_prov" = true
       ∧ hd "" (Split (KVWrite.Key w) underscore) = key
       ∧ d = depKeysOf (KVWrite.Value w).
Proof.
  unfold depsOf.
  assert (∀ l (dm : gmap string (slice string)),
            fold_left recordDeps l dm !! key = Some d →
            dm !! key = Some d
            ∨ ∃ w, w ∈ l ∧ HasSuffix (KVWrite.Key w) "_prov" = true
                   ∧ hd "" (Split (KVWrite.Key w) underscore) = key
                   ∧ d = depKeysOf (KVWrite.Value w)) as Hfold.
  { intros l. induction l as [|w l IH]; intros dm Hd; [by left|].
    simpl in Hd. apply IH in Hd as [Hd|(w' & Hw' & Hrest)].
    2:{ right. exists w'. split; [by right|done]. }
    unfold recordDeps in Hd.
    destruct (HasSuffix (KVWrite.Key w) "_prov") eqn:Hsuf; simpl in Hd; [|by left].
    rewrite lookup_insert in Hd. case_decide as Hkey; [|by left].
    right. exists w. split; [by left|]. by injection Hd as <-. }
  intros Hd. apply Hfold in Hd as [Hd|Hd]; [|done].
  by rewrite lookup_empty in Hd.
Qed.

(** The last marker of a key decides its list. *)
Lemma depsOf_last_marker ws1 mk ws2 x :
  HasSuffix (KVWrite.Key mk) "_prov" = true →
  hd "" (Split (KVWrite.Key mk) underscore) = x →
  (∀ w, w ∈ ws2 → HasSuffix (KVWrite.Key w) "_prov" = true →
        hd "" (Split (KVWrite.Key w) underscore) ≠ x) →
  depsOf (ws1 ++ mk :: ws2) !! x = Some (depKeysOf (KVWrite.Value mk)).
Proof.
  intros Hsuf Hkey Hlater. unfold depsOf. rewrite fold_left_app. simpl.
  assert (∀ l (dm : gmap string (slice string)),
            (∀ w, w ∈ l → HasSuffix (KVWrite.Key w) "_prov" = true →
                  hd "" (Split (KVWrite.Key w) underscore) ≠ x) →
            fold_left recordDeps l dm !! x = dm !! x) as Hfold.
  { intros l. induction l as [|w l IH]; intros dm Hl; [done|].
    simpl. rewrite IH.
    2:{ intros w' Hw'. apply Hl. by right. }
    unfold recordDeps.
    destruct (HasSuffix (KVWrite.Key w) "_prov") eqn:Hw; simpl; [|done].
    apply lookup_insert_ne. apply Hl; [by left|done]. }
  rewrite Hfold; [|done].
  unfold recordDeps at 1. rewrite Hsuf. simpl. rewrite Hkey.
  apply lookup_insert_eq.
Qed.

(** X9. With the provenance extension on, the entry of a real write
    carries a dependency list that is never nil: the list the dependency
    map of its namespace has for its key, or the empty list when the map
    has none.  The list does not depend on where the markers stand
    relative to the write, and each of its elements is a non-empty string
    without underscore. *)
Theorem real_write_dependencies occ Serialize (m : txOps) n w :
  w ∈ KVRWSet.Writes (NsRwSet.KvRwSet n) →
  HasSuffix (KVWrite.Key w) "_prov" = false →
  ∃ keyop ds,
    applyNsRwSet true occ Serialize m n
      !! CompositeKey (NsRwSet.NameSpace n) "" (KVWrite.Key w) = Some keyop
    ∧ deps keyop = Some ds
    ∧ deps keyop = keyDepsOf (depsOf (KVRWSet.Writes (NsRwSet.KvRwSet n))) (KVWrite.Key w)
    ∧ (depsOf (KVRWSet.Writes (NsRwSet.KvRwSet n)) !! KVWrite.Key w = None → ds = [])
    ∧ ∀ d, d ∈ ds → d ≠ "" ∧ ∀ c, c ∈ list_ascii_of_string d → c ≠ underscore.
Proof.
  intros Hw Hsuf.
  destruct (applyNsRwSet_lineage_annotation occ Serialize m n w Hw Hsuf)
    as (keyop & Hk & _ & Hdeps).
  unfold keyDepsOf in Hdeps.
  destruct (depsOf (KVRWSet.Writes (NsRwSet.KvRwSet n)) !! KVWrite.Key w) as [d|] eqn:Hd.
  - destruct (depsOf_values _ _ _ Hd) as (w' & _ & _ & _ & ->).
    pose proof (depKeysOf_filter (KVWrite.Value w')) as Hfilter.
    eexists keyop, _. split; [done|]. split; [by rewrite Hdeps, Hfilter|].
    split; [by rewrite Hdeps; unfold keyDepsOf; rewrite Hd|]. split; [done|].
    intros d Hin. by apply (depKeysOf_elements (KVWrite.Value w') _ d Hfilter).
  - exists keyop, []. split; [done|]. split; [done|].
    split; [by rewrite Hdeps; unfold keyDepsOf; rewrite Hd|]. split; [done|].
    by intros d ?%not_elem_of_nil.
Qed.

(** S6: the write of [x], annotated by the marker [x_prov]. *)
Lemma real_write_dependencies_witness :
  ∃ keyop ds,
    applyNsRwSet true true Sample.serializeOk ∅ Sample.nsProv !! CompositeKey "n" "" "x"
      = Some keyop
    ∧ deps keyop = Some ds
    ∧ deps keyop
      = keyDepsOf (depsOf (KVRWSet.Writes (NsRwSet.KvRwSet Sample.nsProv))) "x"
    ∧ (depsOf (KVRWSet.Writes (NsRwSet.KvRwSet Sample.nsProv)) !! "x" = None → ds = [])
    ∧ ∀ d, d ∈ ds → d ≠ "" ∧ ∀ c, c ∈ list_ascii_of_string d → c ≠ underscore.
Proof.
  apply (real_write_dependencies true Sample.serializeOk ∅ Sample.nsProv
           (KVWrite.mk "x" false (Sample.b "v"))).
  - right. left.
  - vm_compute; reflexivity.
Defined.

(** X10. With the provenance extension on, the marker [x_prov] of a key
    [x] without underscore annotates the write of [x] wherever it stands
    among the writes of the namespace, before the write or after it: the
    entry of [x] carries the non-empty segments of the value of the last
    marker written for [x]. *)
Theorem marker_annotates_write occ Serialize (m : txOps) n ws1 mk ws2 w (x : string) :
  KVRWSet.Writes (NsRwSet.KvRwSet n) = ws1 ++ mk :: ws2 →
  (∀ c, c ∈ list_ascii_of_string x → c ≠ underscore) →
  KVWrite.Key mk = x +:+ "_prov" →
  (∀ w', w' ∈ ws2 → HasSuffix (KVWrite.Key w') "_prov" = true →
         hd "" (Split (KVWrite.Key w') underscore) ≠ x) →
  w ∈ KVRWSet.Writes (NsRwSet.KvRwSet n) →
  KVWrite.Key w = x →
  ∃ keyop,
    applyNsRwSet true occ Serialize m n !! CompositeKey (NsRwSet.NameSpace n) "" x
      = Some keyop
    ∧ deps keyop
      = Some (List.filter (λ dk, negb (String.eqb dk ""))
                (Split (string_of_bytes (KVWrite.Value mk)) underscore)).
Proof.
  intros Hwrites Hx Hmk Hlater Hw Hkey.
  pose proof (no_underscore_not_marker x Hx) as Hreal. rewrite <- Hkey in Hreal.
  destruct (applyNsRwSet_lineage_annotation occ Serialize m n w Hw Hreal)
    as (keyop & Hk & _ & Hdeps).
  rewrite Hkey in Hk, Hdeps. exists keyop. split; [done|].
  rewrite Hdeps, Hwrites. unfold keyDepsOf.
  rewrite (depsOf_last_marker ws1 mk ws2 x); [apply depKeysOf_filter| | |done].
  - rewrite Hmk. apply HasSuffix_append.
  - rewrite Hmk. by apply marker_key_no_underscore.
Qed.

(** The write of [x] followed by its marker. *)
Lemma marker_annotates_write_witness :
  ∃ keyop,
    applyNsRwSet true false Sample.serializeOk ∅
      (Sample.publicNs "n" []
         [KVWrite.mk "x" false (Sample.b "v"); KVWrite.mk "x_prov" false (Sample.b "y__z")]
         [])
      !! CompositeKey "n" "" "x" = Some keyop
    ∧ deps keyop = Some ["y"; "z"].
Proof.
  apply (marker_annotates_write false Sample.serializeOk ∅
           (Sample.publicNs "n" []
              [KVWrite.mk "x" false (Sample.b "v");
               KVWrite.mk "x_prov" false (Sample.b "y__z")] [])
           [KVWrite.mk "x" false (Sample.b "v")]
           (KVWrite.mk "x_prov" false (Sample.b "y__z")) []
           (KVWrite.mk "x" false (Sample.b "v")) "x").
  - reflexivity.
  - intros c Hc. simpl in Hc. apply list_elem_of_singleton in Hc as ->. by vm_compute.
  - reflexivity.
  - intros w' Hw'. by apply not_elem_of_nil in Hw'.
  - left.
  - reflexivity.
Defined.

(** ** Provenance: collections stay outside *)

Lemma fold_left_field_at {X A} (step : txOps → X → txOps) (f : keyOps → A) k :
  (∀ m x, f (entry (step m x) k) = f (entry m k)) →
  ∀ l (m : txOps), f (entry (fold_left step l m) k) = f (entry m k).
Proof.
  intros Hstep l. induction l as [|x l IH]; intros m; [done|].
  simpl. by rewrite IH.
Qed.

Lemma applyRealWrite_coll_entry ns depsMap s (m : txOps) w k :
  ck_coll k ≠ "" → entry (applyRealWrite ns depsMap s m w) k = entry m k.
Proof.
  intros Hcoll. unfold applyRealWrite, applyKVWriteWithDep.
  destruct (HasSuffix (KVWrite.Key w) "_prov"); [done|].
  destruct (KVWrite.IsDelete w);
    rewrite ?txops_deleteWithDep_eq, ?txops_upsertWithDep_eq, entry_update;
    (case_decide as Hk; [|done]); by rewrite <- Hk in Hcoll.
Qed.

Lemma applyNsRwSet_coll_deps lineage occ Serialize (m : txOps) n k :
  ck_coll k ≠ "" →
  deps (entry (applyNsRwSet lineage occ Serialize m n) k) = deps (entry m k)
  ∧ depSnapshot (entry (applyNsRwSet lineage occ Serialize m n) k)
    = depSnapshot (entry m k).
Proof.
  intros Hcoll. destruct lineage; [|apply applyNsRwSet_plain_deps].
  unfold applyNsRwSet.
  destruct (side_writes_deps Serialize (NsRwSet.NameSpace n)
              (KVRWSet.MetadataWrites (NsRwSet.KvRwSet n)) (NsRwSet.CollHashedRwSets n)
              (fold_left
                 (applyRealWrite (NsRwSet.NameSpace n)
                    (depsOf (KVRWSet.Writes (NsRwSet.KvRwSet n)))
                    (depSnapshotOf occ (KVRWSet.Reads (NsRwSet.KvRwSet n))))
                 (KVRWSet.Writes (NsRwSet.KvRwSet n)) m) k) as [-> ->].
  split.
  - apply (fold_left_field_at _ deps). intros. by rewrite applyRealWrite_coll_entry.
  - apply (fold_left_field_at _ depSnapshot). intros. by rewrite applyRealWrite_coll_entry.
Qed.

(** X11. Hashed writes never take part in provenance: whether the
    extension is on or off, an entry under a collection has nil [deps] and
    [depSnapshot] zero, in the projected map and in the map that
    [prepareTxOps] returns. *)
Theorem collection_entries_carry_no_provenance lineage occ Serialize range_order
    rwset txht pu db k :
  ck_coll k ≠ "" →
  (∀ keyop,
     (applyTxRwset lineage occ Serialize rwset ∅).1 !! k = Some keyop →
     deps keyop = None ∧ depSnapshot keyop = 0)
  ∧ (∀ result keyop,
       outcome (prepareTxOps lineage occ Serialize range_order rwset txht pu db)
         = Ok result →
       result !! k = Some keyop →
       deps keyop = None ∧ depSnapshot keyop = 0).
Proof.
  intros Hcoll.
  assert (∀ keyop,
            (applyTxRwset lineage occ Serialize rwset ∅).1 !! k = Some keyop →
            deps keyop = None ∧ depSnapshot keyop = 0) as Hproj.
  { intros keyop Hk%entry_lookup. subst keyop. unfold applyTxRwset. simpl. split.
    - rewrite (fold_left_field_at _ deps); [by rewrite entry_empty|].
      intros. by apply applyNsRwSet_coll_deps.
    - rewrite (fold_left_field_at _ depSnapshot); [by rewrite entry_empty|].
      intros. by apply applyNsRwSet_coll_deps. }
  split; [done|]. intros result keyop Hout Hk.
  rewrite prepareTxOps_unfold in Hout.
  destruct (mergeKeys pu db _ _) as [t r] eqn:Hrun.
  unfold outcome in Hout. simpl in Hout. subst r.
  destruct (mergeKeys_deps _ _ _ _ _ _ _ _ Hrun Hk) as (keyop0 & Hk0 & -> & ->).
  by apply Hproj.
Qed.

(** The hashed write of the sample transaction, with the extension on. *)
Lemma collection_entries_carry_no_provenance_witness :
  deps (KeyOps upsertVal (Sample.b "vh") None None 0) = None
  ∧ depSnapshot (KeyOps upsertVal (Sample.b "vh") None None 0) = 0.
Proof.
  assert (ck_coll (CompositeKey "n" "c" "h_prov") ≠ "") as Hcoll by discriminate.
  assert ((applyTxRwset true true Sample.serializeOk Sample.rwProvSide ∅).1
            !! CompositeKey "n" "c" "h_prov"
          = Some (KeyOps upsertVal (Sample.b "vh") None None 0)) as Hk
    by (vm_compute; reflexivity).
  exact (proj1 (collection_entries_carry_no_provenance true true Sample.serializeOk
                  Sample.order Sample.rwProvSide None Sample.noStaging Sample.fullDB
                  (CompositeKey "n" "c" "h_prov") Hcoll)
           (KeyOps upsertVal (Sample.b "vh") None None 0) Hk).
Defined.

(** ** The mutation primitives *)

(** X12. Each of the six primitives binds its key and leaves every other
    cell of the map as it was. *)
Theorem primitives_touch_one_cell (k k' : compositeKey) (val md : bytes)
    (ds : slice string) (s : Z) (m : txOps) :
  k' ≠ k →
  (txops_upsert k val m !! k' = m !! k' ∧ is_Some (txops_upsert k val m !! k))
  ∧ (txops_delete k m !! k' = m !! k' ∧ is_Some (txops_delete k m !! k))
  ∧ (txops_upsertWithDep k val ds s m !! k' = m !! k'
     ∧ is_Some (txops_upsertWithDep k val ds s m !! k))
  ∧ (txops_deleteWithDep k ds s m !! k' = m !! k'
     ∧ is_Some (txops_deleteWithDep k ds s m !! k))
  ∧ (txops_metadataUpdate k md m !! k' = m !! k'
     ∧ is_Some (txops_metadataUpdate k md m !! k))
  ∧ (txops_metadataDelete k m !! k' = m !! k'
     ∧ is_Some (txops_metadataDelete k m !! k)).
Proof.
  intros Hne.
  rewrite txops_upsert_eq, txops_delete_eq, txops_upsertWithDep_eq,
    txops_deleteWithDep_eq, txops_metadataUpdate_eq, txops_metadataDelete_eq.
  rewrite !lookup_insert_eq, !lookup_insert_ne by done.
  repeat (split; [split; [done|by eexists]|]). split; [done|by eexists].
Qed.

(** An upsert of [k] and the cell of another key. *)
Lemma primitives_touch_one_cell_witness :
  txops_upsert Sample.k (Sample.b "v") ∅ !! CompositeKey "n" "" "other"
    = (∅ : txOps) !! CompositeKey "n" "" "other"
  ∧ is_Some (txops_upsert Sample.k (Sample.b "v") ∅ !! Sample.k).
Proof.
  refine (proj1 (primitives_touch_one_cell Sample.k (CompositeKey "n" "" "other")
                   (Sample.b "v") None None 0 ∅ _)).
  discriminate.
Defined.

(** X13. On a cell whose flag is a [uint8] that lacks the bit of the
    primitive, the primitive sets that bit and no other, writes its
    payload, and leaves the remaining fields alone; a fresh key counts as
    a cell with flag zero.  Field by field: the flag becomes the former
    flag or-ed with the bit, the payload slots hold the arguments, and
    every other field keeps its content. *)
Theorem primitives_set_their_bit (k : compositeKey) (val md : bytes)
    (ds : slice string) (s : Z) (m : txOps) :
  is_uint8 (flag (entry m k)) →
  (Z.land (flag (entry m k)) upsertVal = 0 →
   txops_upsert k val m !! k
     = Some (set_value val (set_flag (Z.lor (flag (entry m k)) upsertVal) (entry m k)))
   ∧ txops_upsertWithDep k val ds s m !! k
     = Some (set_depSnapshot s
               (set_deps ds
                  (set_value val
                     (set_flag (Z.lor (flag (entry m k)) upsertVal) (entry m k)))))
   ∧ (∃ keyop',
        txops_upsert k val m !! k = Some keyop'
        ∧ flag keyop' = Z.lor (flag (entry m k)) upsertVal
        ∧ value keyop' = val
        ∧ metadata keyop' = metadata (entry m k)
        ∧ deps keyop' = deps (entry m k)
        ∧ depSnapshot keyop' = depSnapshot (entry m k))
   ∧ (∃ keyop',
        txops_upsertWithDep k val ds s m !! k = Some keyop'
        ∧ flag keyop' = Z.lor (flag (entry m k)) upsertVal
        ∧ value keyop' = val
        ∧ metadata keyop' = metadata (entry m k)
        ∧ deps keyop' = ds
        ∧ depSnapshot keyop' = s))
  ∧ (Z.land (flag (entry m k)) keyDelete = 0 →
     txops_delete k m !! k
       = Some (set_flag (Z.lor (flag (entry m k)) keyDelete) (entry m k))
     ∧ txops_deleteWithDep k ds s m !! k
       = Some (set_depSnapshot s
                 (set_deps ds
                    (set_flag (Z.lor (flag (entry m k)) keyDelete) (entry m k))))
     ∧ (∃ keyop',
          txops_delete k m !! k = Some keyop'
          ∧ flag keyop' = Z.lor (flag (entry m k)) keyDelete
          ∧ value keyop' = value (entry m k)
          ∧ metadata keyop' = metadata (entry m k)
          ∧ deps keyop' = deps (entry m k)
          ∧ depSnapshot keyop' = depSnapshot (entry m k))
     ∧ (∃ keyop',
          txops_deleteWithDep k ds s m !! k = Some keyop'
          ∧ flag keyop' = Z.lor (flag (entry m k)) keyDelete
          ∧ value keyop' = value (entry m k)
          ∧ metadata keyop' = metadata (entry m k)
          ∧ deps keyop' = ds
          ∧ depSnapshot keyop' = s))
  ∧ (Z.land (flag (entry m k)) metadataUpdate = 0 →
     txops_metadataUpdate k md m !! k
       = Some (set_metadata md
                 (set_flag (Z.lor (flag (entry m k)) metadataUpdate) (entry m k)))
     ∧ ∃ keyop',
         txops_metadataUpdate k md m !! k = Some keyop'
         ∧ flag keyop' = Z.lor (flag (entry m k)) metadataUpdate
         ∧ value keyop' = value (entry m k)
         ∧ metadata keyop' = md
         ∧ deps keyop' = deps (entry m k)
         ∧ depSnapshot keyop' = depSnapshot (entry m k))
  ∧ (Z.land (flag (entry m k)) metadataDelete = 0 →
     txops_metadataDelete k m !! k
       = Some (set_flag (Z.lor (flag (entry m k)) metadataDelete) (entry m k))
     ∧ ∃ keyop',
         txops_metadataDelete k m !! k = Some keyop'
         ∧ flag keyop' = Z.lor (flag (entry m k)) metadataDelete
         ∧ value keyop' = value (entry m k)
         ∧ metadata keyop' = metadata (entry m k)
         ∧ deps keyop' = deps (entry m k)
         ∧ depSnapshot keyop' = depSnapshot (entry m k)).
Proof.
  intros Hrange.
  rewrite txops_upsert_eq, txops_delete_eq, txops_upsertWithDep_eq,
    txops_deleteWithDep_eq, txops_metadataUpdate_eq, txops_metadataDelete_eq.
  rewrite !lookup_insert_eq. unfold add_flag.
  split; [|split; [|split]]; intros Hbit;
    (rewrite add_is_lor; [|done| |done]; [|set_solver]).
  - split; [reflexivity|]. split; [reflexivity|].
    split; eexists; (split; [reflexivity|]);
      repeat (split; [reflexivity|]); reflexivity.
  - split; [reflexivity|]. split; [reflexivity|].
    split; eexists; (split; [reflexivity|]);
      repeat (split; [reflexivity|]); reflexivity.
  - split; [reflexivity|]. eexists. split; [reflexivity|].
    repeat (split; [reflexivity|]). reflexivity.
  - split; [reflexivity|]. eexists. split; [reflexivity|].
    repeat (split; [reflexivity|]). reflexivity.
Qed.

(** A value write after a metadata write, on one key. *)
Lemma primitives_set_their_bit_witness :
  txops_upsert Sample.k (Sample.b "v") (txops_metadataUpdate Sample.k (Sample.b "M") ∅)
    !! Sample.k
  = Some (KeyOps 3 (Sample.b "v") (Sample.b "M") None 0).
Proof.
  assert (entry (txops_metadataUpdate Sample.k (Sample.b "M") ∅) Sample.k
          = KeyOps metadataUpdate None (Sample.b "M") None 0) as Hentry
    by (vm_compute; reflexivity).
  assert (is_uint8 (flag (entry (txops_metadataUpdate Sample.k (Sample.b "M") ∅)
                            Sample.k))) as Hrange.
  { rewrite Hentry. vm_compute. split; [discriminate|reflexivity]. }
  assert (Z.land (flag (entry (txops_metadataUpdate Sample.k (Sample.b "M") ∅) Sample.k))
                 upsertVal = 0) as Hbit.
  { rewrite Hentry. reflexivity. }
  destruct (proj1 (primitives_set_their_bit Sample.k (Sample.b "v") None None 0
                     (txops_metadataUpdate Sample.k (Sample.b "M") ∅) Hrange) Hbit)
    as [Hup _].
  rewrite Hup, Hentry. reflexivity.
Defined.

(** ** Value writes and metadata writes *)

Lemma uint8_add_swap (f a b : Z) : uint8 (uint8 (f + a) + b) = uint8 (uint8 (f + b) + a).
Proof. unfold uint8. rewrite !Zplus_mod_idemp_l. f_equal. lia. Qed.

Lemma uint8_add_assoc (f a b : Z) : uint8 (uint8 (f + a) + b) = uint8 (f + (a + b)).
Proof. unfold uint8. rewrite Zplus_mod_idemp_l. f_equal. lia. Qed.

Lemma update_cell_commute k1 k2 (f g : keyOps → keyOps) (m : txOps) :
  (∀ ko, f (g ko) = g (f ko)) →
  <[k1 := f (entry (<[k2 := g (entry m k2)]> m) k1)]> (<[k2 := g (entry m k2)]> m)
  = <[k2 := g (entry (<[k1 := f (entry m k1)]> m) k2)]> (<[k1 := f (entry m k1)]> m).
Proof.
  intros Hfg. destruct (decide (k1 = k2)) as [->|Hne].
  - by rewrite !entry_insert, !insert_insert_eq, Hfg.
  - rewrite !entry_update, !decide_False by done. by apply insert_insert_ne.
Qed.

Ltac commute_cells f g :=
  apply (update_cell_commute _ _ f g); intros [];
  unfold add_flag, set_metadata, set_value, set_deps, set_depSnapshot, set_flag;
  simpl; f_equal; apply uint8_add_swap.

(** X14. A value write and a metadata write commute, on one key as on
    two: applying [applyKVWrite] (or [applyKVWriteWithDep]) and
    [applyMetadata] in either order gives the same map. *)
Theorem value_and_metadata_writes_commute Serialize ns coll w ds s ns' coll' mw
    (m : txOps) :
  (applyMetadata Serialize ns' coll' mw (applyKVWrite ns coll w m)).1
    = applyKVWrite ns coll w (applyMetadata Serialize ns' coll' mw m).1
  ∧ (applyMetadata Serialize ns' coll' mw (applyKVWriteWithDep ns coll w ds s m)).1
    = applyKVWriteWithDep ns coll w ds s (applyMetadata Serialize ns' coll' mw m).1.
Proof.
  unfold applyMetadata, applyKVWrite, applyKVWriteWithDep.
  destruct (KVMetadataWrite.Entries mw) as [es|]; simpl.
  - destruct (Serialize (Some es)) as [md|err]; simpl; [|done].
    destruct (KVWrite.IsDelete w);
      rewrite ?txops_upsert_eq, ?txops_delete_eq, ?txops_upsertWithDep_eq,
        ?txops_deleteWithDep_eq, !txops_metadataUpdate_eq; split.
    + commute_cells (λ ko, set_metadata md (add_flag metadataUpdate ko))
        (add_flag keyDelete).
    + commute_cells (λ ko, set_metadata md (add_flag metadataUpdate ko))
        (λ ko, set_depSnapshot s (set_deps ds (add_flag keyDelete ko))).
    + commute_cells (λ ko, set_metadata md (add_flag metadataUpdate ko))
        (λ ko, set_value (KVWrite.Value w) (add_flag upsertVal ko)).
    + commute_cells (λ ko, set_metadata md (add_flag metadataUpdate ko))
        (λ ko, set_depSnapshot s
                 (set_deps ds (set_value (KVWrite.Value w) (add_flag upsertVal ko)))).
  - destruct (KVWrite.IsDelete w);
      rewrite ?txops_upsert_eq, ?txops_delete_eq, ?txops_upsertWithDep_eq,
        ?txops_deleteWithDep_eq, !txops_metadataDelete_eq; split.
    + commute_cells (add_flag metadataDelete) (add_flag keyDelete).
    + commute_cells (add_flag metadataDelete)
        (λ ko, set_depSnapshot s (set_deps ds (add_flag keyDelete ko))).
    + commute_cells (add_flag metadataDelete)
        (λ ko, set_value (KVWrite.Value w) (add_flag upsertVal ko)).
    + commute_cells (add_flag metadataDelete)
        (λ ko, set_depSnapshot s
                 (set_deps ds (set_value (KVWrite.Value w) (add_flag upsertVal ko)))).
Qed.

(** ** The predicates, bit by bit *)

(** X15. On a [uint8] flag the three predicates read single bits:
    [isDelete] is bit 3; [isUpsertAndMetadataUpdate] is bit 0 together
    with bit 1 or bit 2; [isOnlyUpsert] holds when no bit above bit 0 is
    set, that is for the flags 0 and 1 and no other, so that it excludes
    the other two predicates but accepts the zero flag. *)
Theorem predicates_read_bits (keyop : keyOps) :
  is_uint8 (flag keyop) →
  isDelete keyop = Z.testbit (flag keyop) 3
  ∧ isUpsertAndMetadataUpdate keyop
    = Z.testbit (flag keyop) 0 && (Z.testbit (flag keyop) 1 || Z.testbit (flag keyop) 2)
  ∧ isOnlyUpsert keyop = negb (existsb (Z.testbit (flag keyop)) [1; 2; 3; 4; 5; 6; 7])
  ∧ isOnlyUpsert keyop = Z.eqb (flag keyop) 0 || Z.eqb (flag keyop) 1
  ∧ (isOnlyUpsert keyop = true →
     isDelete keyop = false ∧ isUpsertAndMetadataUpdate keyop = false).
Proof.
  intros Hrange. unfold isDelete, isUpsertAndMetadataUpdate, isOnlyUpsert.
  assert (Forall (λ f,
            Z.eqb (Z.land f keyDelete) keyDelete = Z.testbit f 3
            ∧ (if Z.eqb (Z.land f upsertVal) upsertVal
               then Z.eqb (Z.land f metadataUpdate) metadataUpdate
                    || Z.eqb (Z.land f metadataDelete) metadataDelete
               else false)
              = Z.testbit f 0 && (Z.testbit f 1 || Z.testbit f 2)
            ∧ Z.eqb (Z.lor f upsertVal) upsertVal
              = negb (existsb (Z.testbit f) [1; 2; 3; 4; 5; 6; 7])
            ∧ Z.eqb (Z.lor f upsertVal) upsertVal = Z.eqb f 0 || Z.eqb f 1
            ∧ (Z.eqb (Z.lor f upsertVal) upsertVal = true →
               Z.eqb (Z.land f keyDelete) keyDelete = false
               ∧ (if Z.eqb (Z.land f upsertVal) upsertVal
                  then Z.eqb (Z.land f metadataUpdate) metadataUpdate
                       || Z.eqb (Z.land f metadataDelete) metadataDelete
                  else false) = false))
            (seqZ 0 256)) as Hall.
  { apply (bool_decide_unpack _). by vm_compute. }
  rewrite Forall_forall in Hall. apply Hall.
  apply elem_of_seqZ. unfold is_uint8 in Hrange. lia.
Qed.

(** The flag of a delete together with a metadata update. *)
Lemma predicates_read_bits_witness :
  isDelete (KeyOps 10 None None None 0) = Z.testbit 10 3
  ∧ isUpsertAndMetadataUpdate (KeyOps 10 None None None 0)
    = Z.testbit 10 0 && (Z.testbit 10 1 || Z.testbit 10 2)
  ∧ isOnlyUpsert (KeyOps 10 None None None 0)
    = negb (existsb (Z.testbit 10) [1; 2; 3; 4; 5; 6; 7])
  ∧ isOnlyUpsert (KeyOps 10 None None None 0) = Z.eqb 10 0 || Z.eqb 10 1
  ∧ (isOnlyUpsert (KeyOps 10 None None None 0) = true →
     isDelete (KeyOps 10 None None None 0) = false
     ∧ isUpsertAndMetadataUpdate (KeyOps 10 None None None 0) = false).
Proof.
  apply (predicates_read_bits (KeyOps 10 None None None 0)).
  vm_compute. split; [discriminate|reflexivity].
Defined.

(** ** Repeated writes of one key *)

Lemma applyKVWrite_entry ns coll w (m : txOps) k :
  entry (applyKVWrite ns coll w m) k
  = if decide (CompositeKey ns coll (KVWrite.Key w) = k)
    then (if KVWrite.IsDelete w then add_flag keyDelete (entry m k)
          else set_value (KVWrite.Value w) (add_flag upsertVal (entry m k)))
    else entry m k.
Proof.
  unfold applyKVWrite.
  destruct (KVWrite.IsDelete w); rewrite ?txops_delete_eq, ?txops_upsert_eq, entry_update;
    case_decide; by subst.
Qed.

Lemma fold_applyKVWrite_flag ns coll ws (m : txOps) k :
  is_uint8 (flag (entry m k)) →
  flag (entry (fold_left (λ txops kvWrite, applyKVWrite ns coll kvWrite txops) ws m) k)
  = uint8 (flag (entry m k) + bitsWritten ns coll k ws).
Proof.
  revert m. induction ws as [|w ws IH]; intros m Hrange; simpl.
  - rewrite Z.add_0_r. unfold uint8, is_uint8 in *. by rewrite Z.mod_small.
  - rewrite IH.
    2:{ rewrite applyKVWrite_entry. case_decide; [|done].
        destruct (KVWrite.IsDelete w); apply uint8_range. }
    rewrite applyKVWrite_entry. case_decide.
    + destruct (KVWrite.IsDelete w); simpl; apply uint8_add_assoc.
    + by rewrite Z.add_0_l.
Qed.

Lemma fold_applyKVWrite_value ns coll ws (m : txOps) k :
  (∀ w, w ∈ ws → CompositeKey ns coll (KVWrite.Key w) = k → KVWrite.IsDelete w = true) →
  value (entry (fold_left (λ txops kvWrite, applyKVWrite ns coll kvWrite txops) ws m) k)
  = value (entry m k).
Proof.
  revert m. induction ws as [|w ws IH]; intros m Hws; [done|].
  simpl. rewrite IH.
  2:{ intros w' Hw'. apply Hws. by right. }
  rewrite applyKVWrite_entry. case_decide as Hk; [|done].
  by rewrite (Hws w (ltac:(by left)) Hk).
Qed.

(** X16. Repeated writes of one key add up.  After the loop that
    applies a list of writes with [applyKVWrite], the flag of a cell is
    its former flag plus [upsertVal] for every upsert of its key and
    [keyDelete] for every delete, modulo 256; its value is that of the
    last upsert of the key, which later deletes do not clear. *)
Theorem repeated_writes_add_up ns coll ws (m : txOps) k :
  is_uint8 (flag (entry m k)) →
  flag (entry (fold_left (λ txops kvWrite, applyKVWrite ns coll kvWrite txops) ws m) k)
    = uint8 (flag (entry m k) + bitsWritten ns coll k ws)
  ∧ ∀ ws1 w ws2,
      ws = ws1 ++ w :: ws2 →
      CompositeKey ns coll (KVWrite.Key w) = k →
      KVWrite.IsDelete w = false →
      (∀ w', w' ∈ ws2 → CompositeKey ns coll (KVWrite.Key w') = k →
             KVWrite.IsDelete w' = true) →
      value (entry (fold_left (λ txops kvWrite, applyKVWrite ns coll kvWrite txops) ws m) k)
      = KVWrite.Value w.
Proof.
  intros Hrange. split; [by apply fold_applyKVWrite_flag|].
  intros ws1 w ws2 -> Hk Hup Hlater. rewrite fold_left_app. simpl.
  rewrite fold_applyKVWrite_value; [|done].
  rewrite applyKVWrite_entry, decide_True, Hup by done. done.
Qed.

(** Upsert, upsert, delete of one fresh key: flag 1 + 1 + 8, value of
    the second upsert. *)
Lemma repeated_writes_add_up_witness :
  flag (entry (fold_left (λ txops kvWrite, applyKVWrite "n" "" kvWrite txops)
                 [KVWrite.mk "k" false (Sample.b "v1");
                  KVWrite.mk "k" false (Sample.b "v2");
                  KVWrite.mk "k" true None] ∅) Sample.k)
    = 10
  ∧ value (entry (fold_left (λ txops kvWrite, applyKVWrite "n" "" kvWrite txops)
                    [KVWrite.mk "k" false (Sample.b "v1");
                     KVWrite.mk "k" false (Sample.b "v2");
                     KVWrite.mk "k" true None] ∅) Sample.k)
    = Sample.b "v2".
Proof.
  assert (is_uint8 (flag (entry (∅ : txOps) Sample.k))) as Hrange.
  { vm_compute. split; [discriminate|reflexivity]. }
  destruct (repeated_writes_add_up "n" ""
              [KVWrite.mk "k" false (Sample.b "v1");
               KVWrite.mk "k" false (Sample.b "v2");
               KVWrite.mk "k" true None] ∅ Sample.k Hrange) as [Hflag Hvalue].
  split.
  - rewrite Hflag. vm_compute; reflexivity.
  - apply (Hvalue [KVWrite.mk "k" false (Sample.b "v1")]
             (KVWrite.mk "k" false (Sample.b "v2")) [KVWrite.mk "k" true None]).
    + reflexivity.
    + reflexivity.
    + reflexivity.
    + intros w' Hw' _. apply list_elem_of_singleton in Hw' as ->. reflexivity.
Defined.

(** ** The provenance extension is conservative *)

Lemma update_cell_sim k0 (F1 F2 : keyOps → keyOps) (m1 m2 : txOps) :
  (∀ e1 e2, flag e1 = flag e2 → value e1 = value e2 → metadata e1 = metadata e2 →
            flag (F1 e1) = flag (F2 e2) ∧ value (F1 e1) = value (F2 e2)
            ∧ metadata (F1 e1) = metadata (F2 e2)) →
  same_up_to_provenance m1 m2 →
  same_up_to_provenance (<[k0 := F1 (entry m1 k0)]> m1) (<[k0 := F2 (entry m2 k0)]> m2).
Proof.
  intros HF Hsim k. destruct (Hsim k) as (Hdom & Hflag & Hval & Hmd).
  rewrite !is_Some_update, !entry_update. split; [by rewrite Hdom|].
  case_decide; [|done]. subst k. by apply HF.
Qed.

Lemma fold_left_sim {X} (step1 step2 : txOps → X → txOps) :
  (∀ x m1 m2, same_up_to_provenance m1 m2 →
              same_up_to_provenance (step1 m1 x) (step2 m2 x)) →
  ∀ l m1 m2, same_up_to_provenance m1 m2 →
             same_up_to_provenance (fold_left step1 l m1) (fold_left step2 l m2).
Proof.
  intros Hstep l. induction l as [|x l IH]; intros m1 m2 Hsim; [done|].
  simpl. by apply IH, Hstep.
Qed.

Lemma applyKVWrite_sim ns coll w (m1 m2 : txOps) :
  same_up_to_provenance m1 m2 →
  same_up_to_provenance (applyKVWrite ns coll w m1) (applyKVWrite ns coll w m2).
Proof.
  intros Hsim. unfold applyKVWrite.
  destruct (KVWrite.IsDelete w); rewrite ?txops_delete_eq, ?txops_upsert_eq.
  - apply (update_cell_sim _ (add_flag keyDelete) (add_flag keyDelete)); [|done].
    intros [] [] ? ? ?; simpl in *. by subst.
  - apply (update_cell_sim _
             (λ ko, set_value (KVWrite.Value w) (add_flag upsertVal ko))
             (λ ko, set_value (KVWrite.Value w) (add_flag upsertVal ko))); [|done].
    intros [] [] ? ? ?; simpl in *. by subst.
Qed.

Lemma applyMetadata_sim Serialize ns coll mw (m1 m2 : txOps) :
  same_up_to_provenance m1 m2 →
  same_up_to_provenance (applyMetadata Serialize ns coll mw m1).1
                        (applyMetadata Serialize ns coll mw m2).1.
Proof.
  intros Hsim. unfold applyMetadata.
  destruct (KVMetadataWrite.Entries mw) as [es|]; simpl.
  - destruct (Serialize (Some es)) as [md|]; simpl; [|done].
    rewrite !txops_metadataUpdate_eq.
    apply (update_cell_sim _
             (λ ko, set_metadata md (add_flag metadataUpdate ko))
             (λ ko, set_metadata md (add_flag metadataUpdate ko))); [|done].
    intros [] [] ? ? ?; simpl in *. by subst.
  - rewrite !txops_metadataDelete_eq.
    apply (update_cell_sim _ (add_flag metadataDelete) (add_flag metadataDelete)); [|done].
    intros [] [] ? ? ?; simpl in *. by subst.
Qed.

(** A real write with its annotations against the same write without. *)
Lemma applyKVWriteWithDep_sim ns coll w ds s (m1 m2 : txOps) :
  same_up_to_provenance m1 m2 →
  same_up_to_provenance (applyKVWriteWithDep ns coll w ds s m1) (applyKVWrite ns coll w m2).
Proof.
  intros Hsim. unfold applyKVWriteWithDep, applyKVWrite.
  destruct (KVWrite.IsDelete w);
    rewrite ?txops_deleteWithDep_eq, ?txops_upsertWithDep_eq,
      ?txops_delete_eq, ?txops_upsert_eq.
  - apply (update_cell_sim _
             (λ ko, set_depSnapshot s (set_deps ds (add_flag keyDelete ko)))
             (add_flag keyDelete)); [|done].
    intros [] [] ? ? ?; simpl in *. by subst.
  - apply (update_cell_sim _
             (λ ko, set_depSnapshot s
                      (set_deps ds (set_value (KVWrite.Value w) (add_flag upsertVal ko))))
             (λ ko, set_value (KVWrite.Value w) (add_flag upsertVal ko))); [|done].
    intros [] [] ? ? ?; simpl in *. by subst.
Qed.

Lemma realWrites_sim ns depsMap s ws (m1 m2 : txOps) :
  same_up_to_provenance m1 m2 →
  same_up_to_provenance
    (fold_left (applyRealWrite ns depsMap s) ws m1)
    (fold_left (λ txops kvWrite, applyKVWrite ns "" kvWrite txops)
       (List.filter (λ w, negb (HasSuffix (KVWrite.Key w) "_prov")) ws) m2).
Proof.
  revert m1 m2. induction ws as [|w ws IH]; intros m1 m2 Hsim; [done|].
  simpl. unfold applyRealWrite at 2.
  destruct (HasSuffix (KVWrite.Key w) "_prov"); simpl; [by apply IH|].
  apply IH. by apply applyKVWriteWithDep_sim.
Qed.

Lemma applyNsRwSet_sim occ Serialize n (m1 m2 : txOps) :
  same_up_to_provenance m1 m2 →
  same_up_to_provenance (applyNsRwSet true occ Serialize m1 n)
                        (applyNsRwSet false occ Serialize m2 (stripMarkersNs n)).
Proof.
  intros Hsim. unfold applyNsRwSet, stripMarkersNs. simpl.
  apply fold_left_sim.
  { intros c m1' m2' Hsim'. unfold applyCollHashedRwSet.
    apply (fold_left_sim
             (λ txops metadataWrite, (applyMetadata Serialize _ _ _ txops).1)
             (λ txops metadataWrite, (applyMetadata Serialize _ _ _ txops).1)).
    { intros x m1'' m2'' ?. by apply applyMetadata_sim. }
    apply (fold_left_sim (λ txops hashedWrite, applyKVWrite _ _ _ txops)
             (λ txops hashedWrite, applyKVWrite _ _ _ txops)); [|done].
    intros x m1'' m2'' ?. by apply applyKVWrite_sim. }
  apply (fold_left_sim
           (λ txops kvMetadataWrite, (applyMetadata Serialize _ _ kvMetadataWrite txops).1)
           (λ txops kvMetadataWrite, (applyMetadata Serialize _ _ kvMetadataWrite txops).1)).
  { intros x m1' m2' ?. by apply applyMetadata_sim. }
  by apply realWrites_sim.
Qed.

(** X17. The provenance extension is conservative.  The map projected
    with the extension on binds the same keys, with the same flags, values
    and metadata, as the map projected with the extension off from the
    transaction without its marker writes; the two differ in [deps] and
    [depSnapshot] only. *)
Theorem provenance_extension_conservative occ Serialize rwset k :
  (is_Some ((applyTxRwset true occ Serialize rwset ∅).1 !! k)
   ↔ is_Some ((applyTxRwset false occ Serialize (stripMarkers rwset) ∅).1 !! k))
  ∧ flag (entry (applyTxRwset true occ Serialize rwset ∅).1 k)
    = flag (entry (applyTxRwset false occ Serialize (stripMarkers rwset) ∅).1 k)
  ∧ value (entry (applyTxRwset true occ Serialize rwset ∅).1 k)
    = value (entry (applyTxRwset false occ Serialize (stripMarkers rwset) ∅).1 k)
  ∧ metadata (entry (applyTxRwset true occ Serialize rwset ∅).1 k)
    = metadata (entry (applyTxRwset false occ Serialize (stripMarkers rwset) ∅).1 k).
Proof.
  revert k. change (same_up_to_provenance
                      (applyTxRwset true occ Serialize rwset ∅).1
                      (applyTxRwset false occ Serialize (stripMarkers rwset) ∅).1).
  unfold applyTxRwset, stripMarkers. simpl.
  assert (∀ nss (m1 m2 : txOps),
            same_up_to_provenance m1 m2 →
            same_up_to_provenance
              (fold_left (applyNsRwSet true occ Serialize) nss m1)
              (fold_left (applyNsRwSet false occ Serialize) (map stripMarkersNs nss) m2))
    as Hfold.
  { intros nss. induction nss as [|n nss IH]; intros m1 m2 Hsim; [done|].
    simpl. by apply IH, applyNsRwSet_sim. }
  apply Hfold. by intros k.
Qed.

(** ** Staged keys need no database *)

Lemma staged_never_fails pu db ck keyop err :
  is_Some (staged pu ck) → ¬ resolver_fails pu db ck keyop err.
Proof.
  intros [vv Hvv] [_ Hfail].
  rewrite retrieveLatestMetadata_outcome, retrieveLatestState_outcome, Hvv in Hfail.
  by destruct (isOnlyUpsert keyop).
Qed.

(** X18. When the staging buffer holds a value for every projected key
    that is neither a delete nor fully specified, [prepareTxOps] returns a
    map without a single lookup in the state database, whatever the
    database would answer. *)
Theorem staged_keys_need_no_database lineage occ Serialize range_order rwset txht pu db :
  (∀ m : txOps, range_order m ≡ₚ (map_to_list m).*1) →
  (∀ ck keyop,
     (applyTxRwset lineage occ Serialize rwset ∅).1 !! ck = Some keyop →
     isDelete keyop || isUpsertAndMetadataUpdate keyop = false →
     is_Some (staged pu ck)) →
  (∃ result,
     outcome (prepareTxOps lineage occ Serialize range_order rwset txht pu db) = Ok result)
  ∧ ∀ c, c ∈ trace (prepareTxOps lineage occ Serialize range_order rwset txht pu db) →
         is_db_call c = false.
Proof.
  intros Horder Hstaged. rewrite prepareTxOps_unfold.
  pose proof (range_order_NoDup _ Horder
                (applyTxRwset lineage occ Serialize rwset ∅).1) as Hnd.
  split.
  - destruct (mergeKeys pu db _ _) as [t [result|err]] eqn:Hrun; [by exists result|].
    exfalso. apply mergeKeys_Err in Hrun as (ck & keyop & _ & Hck & Hfail); [|done].
    eapply staged_never_fails; [|done]. eapply Hstaged; [done|]. by destruct Hfail.
  - intros c Hc. destruct (is_db_call c) eqn:Hdb; [|done]. exfalso.
    destruct (mergeKeys_lookups pu db _ (applyTxRwset lineage occ Serialize rwset ∅).1 Hnd)
      as [_ Hmiss].
    specialize (Hmiss c Hc Hdb).
    apply mergeKeys_trace in Hc as [_ (keyop & Hck & Hterm)]; [|done].
    destruct (Hstaged _ _ Hck Hterm) as [vv Hvv]. congruence.
Qed.

(** Two keys, both staged, and a database that is down. *)
Lemma staged_keys_need_no_database_witness :
  (∃ result,
     outcome (prepareTxOps false false Sample.serializeOk Sample.order
                MoreSamples.rwTwoKeys None MoreSamples.fullStaging
                MoreSamples.failingDB) = Ok result)
  ∧ ∀ c, c ∈ trace (prepareTxOps false false Sample.serializeOk Sample.order
                      MoreSamples.rwTwoKeys None MoreSamples.fullStaging
                      MoreSamples.failingDB) →
         is_db_call c = false.
Proof.
  apply (staged_keys_need_no_database false false Sample.serializeOk Sample.order
           MoreSamples.rwTwoKeys None MoreSamples.fullStaging MoreSamples.failingDB
           sample_order_perm).
  intros ck keyop _ _. unfold staged. simpl.
  destruct (String.eqb (ck_coll ck) ""); by eexists.
Defined.
